(** * Kasuga [molecular.py]: geometry primitives, connectivity graph, molecules

    A shallow embedding of the classes [Vector], [ConnectivityGraph], [Atom]
    and [Molecule] of [src/molecular.py], and the properties of the
    specification that are settled against it.

    Conventions of the embedding.
    - Python exceptions are values of [exn]; a computation yields [Ok v],
      [Raise e], or [OutOfFuel] when the bound given to a [while True] or to
      a [for] over a growing list is exhausted.
    - A [float] is a real number ([R]): the values are the finite floats
      and the arithmetic is exact.  NaN, inf, rounding, overflow and
      underflow are outside the model; a property that holds of the code
      only under this reading says so ("in real arithmetic", "finite
      coordinates").  A one-dimensional [np.array] of floats is a
      [list R].  The 0.0/1.0 flag arrays of the connectivity
      graph ([nodes], [inside], [checked]) are lists of the integers 0 and 1,
      which the code only ever compares with 0 and 1.
    - Python objects that are mutated in place and can be aliased (atoms,
      atom lists, molecules) live in a [store] and are named by locations.
    - The methods of a class are the definitions of the module of its
      name: [Vector.mirror], [ConnectivityGraph.flood_fill_search],
      [Atom.assign_weight], [Molecule.change_bond]. *)

From Stdlib Require Import Reals Lra ZArith Lia.
From stdpp Require Import gmap strings list pretty.

(** ** Outcomes of Python computations *)

Inductive exn : Type :=
  | TypeError
  | IndexError
  | AttributeError
  | ValueError
  | NoObject
  | FatalError (msg : string).

Inductive res (A : Type) : Type :=
  | Ok (a : A)
  | Raise (e : exn)
  | OutOfFuel.
Arguments Ok {A} a.
Arguments Raise {A} e.
Arguments OutOfFuel {A}.

#[global] Instance res_ret : MRet res := fun A a => Ok a.
#[global] Instance res_bind : MBind res := fun A B k m =>
  match m with
  | Ok a => k a
  | Raise e => Raise e
  | OutOfFuel => OutOfFuel
  end.

(** [not r] on the outcome of a comparison. *)
Definition res_negb (r : res bool) : res bool :=
  match r with
  | Ok b => Ok (negb b)
  | Raise e => Raise e
  | OutOfFuel => OutOfFuel
  end.

(** [for x in l: s = body x s] in a monad [F], stopping at the first
    exception. *)
Fixpoint for_each {F : Type → Type} `{!MRet F, !MBind F} {A S : Type}
    (l : list A) (body : A → S → F S) (s : S) : F S :=
  match l with
  | [] => mret s
  | x :: l' => s' ← body x s; for_each l' body s'
  end.

(** A loop whose body may [return True]: the first index that tests true
    ends it. *)
Fixpoint any_in {A : Type} (l : list A) (test : A → res bool) : res bool :=
  match l with
  | [] => Ok false
  | x :: l' => b ← test x; if b : bool then Ok true else any_in l' test
  end.

(** [range(n)] as the indices the loop variable takes. *)
Definition range (n : nat) : list Z := Z.of_nat <$> seq 0 n.

(** [range(a, n)]. *)
Definition range_from (a : Z) (n : nat) : list Z :=
  (λ k, a + Z.of_nat k)%Z <$> seq 0 (Z.to_nat (Z.of_nat n - a)).

(** ** Indexing of Python lists and NumPy arrays *)

(** An index [i] into a sequence of length [n]: negative indices count from
    the end, anything outside [-n, n) is an [IndexError]. *)
Definition norm_index (n : nat) (i : Z) : res nat :=
  if bool_decide (0 ≤ i < Z.of_nat n)%Z then Ok (Z.to_nat i)
  else if bool_decide (- Z.of_nat n ≤ i < 0)%Z then Ok (Z.to_nat (i + Z.of_nat n))
  else Raise IndexError.

Definition getitem {A : Type} (l : list A) (i : Z) : res A :=
  k ← norm_index (length l) i;
  match l !! k with
  | Some x => Ok x
  | None => Raise IndexError
  end.

Definition setitem {A : Type} (l : list A) (i : Z) (x : A) : res (list A) :=
  k ← norm_index (length l) i; Ok (<[k:=x]> l).

(** [m[i, j]] on a two-dimensional array. *)
Definition getitem2 {A : Type} (m : list (list A)) (i j : Z) : res A :=
  row ← getitem m i; getitem row j.

(** [m[i, j] = x] on a two-dimensional array. *)
Definition setitem2 {A : Type} (m : list (list A)) (i j : Z) (x : A)
    : res (list (list A)) :=
  row ← getitem m i; row' ← setitem row j x; setitem m i row'.

(** The values a caller passes where the code expects a container of vertex
    indices: a tuple (or set) of integers, or, as [Molecule.change_bond] and
    [Molecule.change_angle] do with [(bond[1])], a bare integer. *)
Inductive pyobj : Type :=
  | PyInt (z : Z)
  | PyTuple (l : list Z).

(** [x in c]: an [int] is not iterable. *)
Definition py_in (x : Z) (c : pyobj) : res bool :=
  match c with
  | PyTuple l => Ok (bool_decide (x ∈ l))
  | PyInt _ => Raise TypeError
  end.

(** ** ConnectivityGraph *)

Record ConnectivityGraph : Type := mkGraph {
  size : nat;
  nodes : list (list Z)
}.

(** [self.nodes[i, j] == 1 or self.nodes[j, i] == 1], the right operand
    evaluated only when the left one is false. *)
Definition linked (g : ConnectivityGraph) (i j : Z) : res bool :=
  a ← getitem2 (nodes g) i j;
  if bool_decide (a = 1%Z) then Ok true
  else b ← getitem2 (nodes g) j i; Ok (bool_decide (b = 1%Z)).

(** Body of the first [for] of the [while] loop: flag [i] when it is a
    neighbour of [startpoint] and is not excluded. *)
Definition mark_step (g : ConnectivityGraph) (startpoint : Z) (excluded : pyobj)
    (i : Z) (inside : list Z) : res (list Z) :=
  l ← linked g startpoint i;
  if l : bool then
    e ← py_in i excluded;
    if e : bool then Ok inside else setitem inside i 1%Z
  else Ok inside.

Definition mark_neighbours (g : ConnectivityGraph) (startpoint : Z)
    (excluded : pyobj) (inside : list Z) : res (list Z) :=
  for_each (range (size g)) (mark_step g startpoint excluded) inside.

(** Body of the second [for]: the two counters and the next start point,
    as the triple [(count_checked, count_inside, startpoint)]. *)
Definition survey_step (inside checked : list Z) (i : Z) (acc : Z * Z * Z)
    : res (Z * Z * Z) :=
  let '(count_checked, count_inside, startpoint) := acc in
  c ← getitem checked i;
  let count_checked := if bool_decide (c = 1%Z) then (count_checked + 1)%Z else count_checked in
  n ← getitem inside i;
  let count_inside := if bool_decide (n = 1%Z) then (count_inside + 1)%Z else count_inside in
  c' ← getitem checked i;
  if bool_decide (c' ≠ 0%Z) then
    n' ← getitem inside i;
    if bool_decide (n' = 1%Z) then Ok (count_checked, count_inside, i)
    else Ok (count_checked, count_inside, startpoint)
  else Ok (count_checked, count_inside, startpoint).

Definition survey (g : ConnectivityGraph) (inside checked : list Z)
    (startpoint : Z) : res (Z * Z * Z) :=
  for_each (range (size g)) (survey_step inside checked) (0%Z, 0%Z, startpoint).

(** One pass of the [while True] body: either the function returns
    [inside] ([inl]) or the loop goes on with a new start point and the
    updated arrays ([inr]). *)
Definition flood_fill_step (g : ConnectivityGraph) (excluded : pyobj)
    (startpoint : Z) (inside checked : list Z)
    : res (list Z + Z * list Z * list Z) :=
  inside' ← mark_neighbours g startpoint excluded inside;
  checked' ← setitem checked startpoint 1%Z;
  '(count_checked, count_inside, startpoint') ← survey g inside' checked' startpoint;
  if bool_decide (count_inside = count_checked) then Ok (inl inside')
  else Ok (inr (startpoint', inside', checked')).

Fixpoint flood_fill_loop (fuel : nat) (g : ConnectivityGraph) (excluded : pyobj)
    (startpoint : Z) (inside checked : list Z) : res (list Z) :=
  match fuel with
  | O => OutOfFuel
  | S fuel' =>
      r ← flood_fill_step g excluded startpoint inside checked;
      match r with
      | inl inside' => Ok inside'
      | inr (startpoint', inside', checked') =>
          flood_fill_loop fuel' g excluded startpoint' inside' checked'
      end
  end.

(** The methods of [ConnectivityGraph]. *)
Module ConnectivityGraph.

(** [__init__]: [np.zeros((size, size))]. *)
Definition __init__ (n : nat) : ConnectivityGraph :=
  {| size := n; nodes := replicate n (replicate n 0%Z) |}.

(** [flood_fill_search]; [fuel] bounds the number of passes of the
    [while True] loop. *)
Definition flood_fill_search (fuel : nat) (g : ConnectivityGraph)
    (startpoint : Z) (excluded : pyobj) : res (list Z) :=
  flood_fill_loop fuel g excluded startpoint
    (replicate (size g) 0%Z) (replicate (size g) 0%Z).

(** [subsets_connected]: the subsets are arrays, of which only [.size] is
    read. *)
Definition subsets_connected (g : ConnectivityGraph)
    (subset_one subset_two : list Z) : res bool :=
  any_in (range (length subset_one)) (fun i1 =>
    any_in (range (length subset_two)) (fun i2 => linked g i1 i2)).

End ConnectivityGraph.

(** *** Notions for describing what the search computes *)

(** The matrix is [size] x [size]. *)
Definition wf_graph (g : ConnectivityGraph) : Prop :=
  length (nodes g) = size g ∧ Forall (λ row, length row = size g) (nodes g).

(** [i] is a neighbour of [startpoint] that is not excluded. *)
Definition admissible (g : ConnectivityGraph) (startpoint : Z) (excluded : list Z)
    (i : Z) : bool :=
  match linked g startpoint i with
  | Ok true => bool_decide (i ∉ excluded)
  | _ => false
  end.

(** The flag array of the admissible neighbours of [startpoint], and how
    many they are. *)
Definition neighbour_flags (g : ConnectivityGraph) (startpoint : Z)
    (excluded : list Z) : list Z :=
  (λ i, if admissible g startpoint excluded i then 1%Z else 0%Z) <$> range (size g).

Definition neighbour_count (g : ConnectivityGraph) (startpoint : Z)
    (excluded : list Z) : Z :=
  foldr (λ i acc, (if admissible g startpoint excluded i then 1 else 0) + acc)%Z 0%Z
    (range (size g)).

(** The update the first loop of the search makes for the vertex [i], and
    the [checked] array once the start point [s] is checked. *)
Definition mark (g : ConnectivityGraph) (startpoint : Z) (excluded : list Z)
    (inside : list Z) (i : nat) : list Z :=
  if admissible g startpoint excluded (Z.of_nat i) then <[i:=1%Z]> inside else inside.

Definition start_checked (g : ConnectivityGraph) (s : nat) : list Z :=
  <[s:=1%Z]> (replicate (size g) 0%Z).

(** No flag of the array is set. *)
Definition all_zero (flags : list Z) : Prop :=
  ∀ i v, getitem flags i = Ok v → v = 0%Z.

(** *** What the specification asks of the graph queries *)

(** [v] is a member of the subset given as a flag array. *)
Definition member (v : nat) (flags : list Z) : Prop := flags !! v = Some 1%Z.

(** An edge of the graph between two vertices. *)
Definition edge (g : ConnectivityGraph) (u v : nat) : Prop :=
  linked g (Z.of_nat u) (Z.of_nat v) = Ok true.

(** [v] can be reached from [s] along edges, every vertex entered being
    outside [excluded]. *)
Inductive reachable (g : ConnectivityGraph) (excluded : list Z) (s : nat) : nat → Prop :=
  | reach_edge v :
      edge g s v → Z.of_nat v ∉ excluded → reachable g excluded s v
  | reach_step u v :
      reachable g excluded s u → edge g u v → Z.of_nat v ∉ excluded →
      reachable g excluded s v.

(** Some edge joins a member of [A] to a member of [B]; the same when the
    subsets are given as arrays of vertex indices. *)
Definition joined (g : ConnectivityGraph) (A B : list Z) : Prop :=
  ∃ u v, member u A ∧ member v B ∧ edge g u v.

Definition joined_indices (g : ConnectivityGraph) (A B : list Z) : Prop :=
  ∃ u v, Z.of_nat u ∈ A ∧ Z.of_nat v ∈ B ∧ edge g u v.

(** ** NumPy arrays of floats *)

(** [a op b] on one-dimensional arrays: equal shapes are combined
    component by component, a one-element array is stretched to the other
    shape, any other pair of shapes cannot be broadcast. *)
Definition broadcast (op : R → R → R) (a b : list R) : res (list R) :=
  if bool_decide (length a = length b) then Ok (zip_with op a b)
  else match a, b with
       | _, [y] => Ok ((λ x, op x y) <$> a)
       | [x], _ => Ok (op x <$> b)
       | _, _ => Raise ValueError
       end.

(** [a op= b]: the left array is updated in place and keeps its shape. *)
Definition broadcast_inplace (op : R → R → R) (a b : list R) : res (list R) :=
  if bool_decide (length a = length b) then Ok (zip_with op a b)
  else match b with
       | [y] => Ok ((λ x, op x y) <$> a)
       | _ => Raise ValueError
       end.

(** [np.linalg.norm] of a one-dimensional array, in real arithmetic: the
    exact square root of the exact sum of squares.  In binary64 the
    computed norm is 0.0 when every component is below about 1e-154 in
    absolute value and NaN when a component is NaN or inf. *)
Definition np_norm (a : list R) : R :=
  sqrt (foldr Rplus 0%R ((λ x, x * x)%R <$> a)).

(** [np.deg2rad]. *)
Definition deg2rad (x : R) : R := (x * (PI / 180))%R.

(** [np.matmul(v, m)] for a vector and a 3 x 3 matrix given by its rows. *)
Definition matmul_vec (v : list R) (m : list (list R)) : res (list R) :=
  match v, m with
  | [v0; v1; v2], [[m00; m01; m02]; [m10; m11; m12]; [m20; m21; m22]] =>
      Ok [v0 * m00 + v1 * m10 + v2 * m20;
          v0 * m01 + v1 * m11 + v2 * m21;
          v0 * m02 + v1 * m12 + v2 * m22]%R
  | _, _ => Raise ValueError
  end.

(** [np.cross] of two three-component vectors; the coordinates of a
    [Vector] are created with three components, other shapes are reported
    as the [ValueError] NumPy raises for incompatible dimensions. *)
Definition np_cross (u v : list R) : res (list R) :=
  match u, v with
  | [u0; u1; u2], [v0; v1; v2] =>
      Ok [u1 * v2 - u2 * v1; u2 * v0 - u0 * v2; u0 * v1 - u1 * v0]%R
  | _, _ => Raise ValueError
  end.

(** *** 3 x 3 matrices, for the properties of the rotation matrix *)

Definition transpose3 (m : list (list R)) : list (list R) :=
  match m with
  | [[m00; m01; m02]; [m10; m11; m12]; [m20; m21; m22]] =>
      [[m00; m10; m20]; [m01; m11; m21]; [m02; m12; m22]]
  | _ => m
  end.

Definition matmul3 (a b : list (list R)) : res (list (list R)) :=
  match a with
  | [r0; r1; r2] =>
      x0 ← matmul_vec r0 b; x1 ← matmul_vec r1 b; x2 ← matmul_vec r2 b;
      Ok [x0; x1; x2]
  | _ => Raise ValueError
  end.

Definition det3 (m : list (list R)) : R :=
  match m with
  | [[m00; m01; m02]; [m10; m11; m12]; [m20; m21; m22]] =>
      (m00 * (m11 * m22 - m12 * m21)
       - m01 * (m10 * m22 - m12 * m20)
       + m02 * (m10 * m21 - m11 * m20))%R
  | _ => 0%R
  end.

Definition identity3 : list (list R) := [[1; 0; 0]; [0; 1; 0]; [0; 0; 1]]%R.

(** The matrix is orthonormal with determinant +1. *)
Definition is_rotation (m : list (list R)) : Prop :=
  matmul3 (transpose3 m) m = Ok identity3 ∧ det3 m = 1%R.

(** ** Vector *)

(** The methods of [Vector] read and replace [self.coord] only; they are
    given as functions from the coordinates before the call to the
    coordinates after it. *)

(** What a caller passes as a point: an array, or (as
    [Molecule.change_angle] does) an [Atom] object, here by its location. *)
Inductive point_arg : Type :=
  | ArgArray (v : list R)
  | ArgObject (l : positive).

(** [array - point]: an object that is not an array has no subtraction
    with a float. *)
Definition sub_point (a : list R) (p : point_arg) : res (list R) :=
  match p with
  | ArgArray v => broadcast Rminus a v
  | ArgObject _ => Raise TypeError
  end.

(** The matrix [Vector.rotate] builds from the angle (in degrees) and the
    axis: [np.zeros((3, 3))] with eight entries assigned, [matrix[2, 1]]
    keeping its zero.  The entries are those of real arithmetic; for an
    axis whose computed norm is 0.0 (the zero axis, or one that underflows)
    NumPy divides by zero without an exception and the entries are inf or
    NaN, which the model does not have: the properties of [rotate] below
    are stated for an axis of non-zero norm, in real arithmetic. *)
Definition rotation_matrix (angle : R) (axis_vector : list R) : res (list (list R)) :=
  let axis_vector := (λ x, x / np_norm axis_vector)%R <$> axis_vector in
  let angle_rad := deg2rad angle in
  a0 ← getitem axis_vector 0;
  a1 ← getitem axis_vector 1;
  a2 ← getitem axis_vector 2;
  let m00 := (cos angle_rad + a0 ^ 2 * (1 - cos angle_rad))%R in
  let m01 := (a0 * a1 * (1 - cos angle_rad) - a2 * sin angle_rad)%R in
  let m02 := (a0 * a0 * (1 - cos angle_rad) + a1 * sin angle_rad)%R in
  let m11 := (cos angle_rad + a1 ^ 2 * (1 - cos angle_rad))%R in
  let m12 := (a1 * a2 * (1 - cos angle_rad) - a0 * sin angle_rad)%R in
  let m22 := (cos angle_rad + a2 ^ 2 * (1 - cos angle_rad))%R in
  let m10 := m01 in
  let m20 := m02 in
  Ok [[m00; m01; m02]; [m10; m11; m12]; [m20; 0%R; m22]].

Module Vector.

(** [mirror]. *)
Definition mirror (coord normal point : list R) : res (list R) :=
  let n := (λ x, x / np_norm normal)%R <$> normal in
  a ← getitem normal 0;
  b ← getitem normal 1;
  c ← getitem normal 2;
  p0 ← getitem point 0;
  p1 ← getitem point 1;
  p2 ← getitem point 2;
  let d := (-1 * (a * p0 + b * p1 + c * p2))%R in
  x0 ← getitem coord 0;
  x1 ← getitem coord 1;
  x3 ← getitem coord 3;
  let distance := (Rabs (a * x0 + b * x1 + c * x3 + d) / sqrt (a ^ 2 + b ^ 2 + c ^ 2))%R in
  test1 ← broadcast Rplus coord ((λ x, 2 * x * distance)%R <$> n);
  test2 ← broadcast Rminus coord ((λ x, 2 * x * distance)%R <$> n);
  t10 ← getitem test1 0;
  t11 ← getitem test1 1;
  t13 ← getitem test1 3;
  let distance_test1 := (Rabs (a * t10 + b * t11 + c * t13 + d) / sqrt (a ^ 2 + b ^ 2 + c ^ 2))%R in
  t20 ← getitem test2 0;
  t21 ← getitem test2 1;
  t23 ← getitem test2 3;
  let distance_test2 := (Rabs (a * t20 + b * t21 + c * t23 + d) / sqrt (a ^ 2 + b ^ 2 + c ^ 2))%R in
  if Rlt_dec distance_test1 distance_test2 then Ok test1 else Ok test2.

(** [rotate]. *)
Definition rotate (coord : list R) (angle : R) (axis_vector : list R)
    (axis_point : point_arg) : res (list R) :=
  axis_diff ← sub_point coord axis_point;
  matrix ← rotation_matrix angle axis_vector;
  axis_diff_rotated ← matmul_vec axis_diff matrix;
  axis_translation ← broadcast Rminus axis_diff axis_diff_rotated;
  broadcast_inplace Rplus coord axis_translation.

(** [invert]. *)
Definition invert (coord inv_coord : list R) : res (list R) :=
  shift ← broadcast Rminus inv_coord coord;
  broadcast_inplace Rplus coord ((λ x, 2 * x)%R <$> shift).

(** [xyz_mirror]: a [match] without a default case. *)
Definition xyz_mirror (coord : list R) (plane : string) (plane_point : list R)
    : res (list R) :=
  if bool_decide (plane = "xy" ∨ plane = "ab") then mirror coord [0; 0; 1]%R plane_point
  else if bool_decide (plane = "xz" ∨ plane = "ac") then mirror coord [0; 1; 0]%R plane_point
  else if bool_decide (plane = "yz" ∨ plane = "bc") then mirror coord [1; 0; 0]%R plane_point
  else Ok coord.

(** The methods below call two steps in a row, each of which replaces
    [self.coord]: they are given with the coordinates the object holds
    when the call ends, also when it ends in an exception. *)
Definition second_step (coord : list R) (step : list R → res (list R))
    : res unit * list R :=
  match step coord with
  | Ok c => (Ok tt, c)
  | Raise e => (Raise e, coord)
  | OutOfFuel => (OutOfFuel, coord)
  end.

Definition two_steps (coord : list R) (first second : list R → res (list R))
    : res unit * list R :=
  match first coord with
  | Ok c => second_step c second
  | Raise e => (Raise e, coord)
  | OutOfFuel => (OutOfFuel, coord)
  end.

(** [improper_rotate]. *)
Definition improper_rotate (coord : list R) (angle : R) (axis_vector point : list R)
    : res unit * list R :=
  two_steps coord
    (λ c, rotate c angle axis_vector (ArgArray point))
    (λ c, mirror c axis_vector point).

(** [screw_axis]. *)
Definition screw_axis (coord : list R) (angle : R)
    (axis_vector point translation_vector : list R) : res unit * list R :=
  two_steps coord
    (λ c, rotate c angle axis_vector (ArgArray point))
    (λ c, broadcast_inplace Rplus c translation_vector).

(** [glide_plane]. *)
Definition glide_plane (coord normal point translation_vector : list R)
    : res unit * list R :=
  two_steps coord
    (λ c, mirror c normal point)
    (λ c, broadcast_inplace Rplus c translation_vector).

(** [distance], on the coordinates of the two vectors. *)
Definition distance (coord v2 : list R) : res R :=
  delta ← broadcast Rminus coord v2;
  Ok (np_norm delta).

(** [distance_rough]. *)
Definition distance_rough (coord v2 : list R) : res R :=
  delta ← broadcast Rminus coord v2;
  d0 ← getitem delta 0;
  d1 ← getitem delta 1;
  d2 ← getitem delta 2;
  Ok (Rmax (Rabs d0) (Rmax (Rabs d1) (Rabs d2))).

End Vector.

(** *** What the specification asks of [mirror] *)

Definition dot3 (u v : list R) : R := foldr Rplus 0%R (zip_with Rmult u v).

(** The reflection of [x] across the plane through [point] with normal
    [normal]. *)
Definition reflection (x normal point : list R) : list R :=
  let k := (2 * dot3 (zip_with Rminus x point) normal / dot3 normal normal)%R in
  zip_with (λ xi ni, xi - k * ni)%R x normal.

(** ** The object store *)

Definition loc : Type := positive.

Record Atom : Type := mkAtom {
  symbol : string;
  weight : R;
  coord : list R
}.

(** The fields of [Molecule.__init__] that the methods below read or
    write: [atoms] refers to a list object, [molecular_formula] and
    [connectivity_graph] start as [None]. *)
Record Molecule : Type := mkMolecule {
  atoms : loc;
  molecular_formula : option string;
  connectivity_graph : option ConnectivityGraph
}.

Record store : Type := mkStore {
  atom_objs : gmap loc Atom;
  list_objs : gmap loc (list loc);
  molecule_objs : gmap loc Molecule
}.

(** Stateful computations over the store: the store reached is returned
    with the outcome, also when the outcome is an exception. *)
Definition M (A : Type) : Type := store → res A * store.

#[global] Instance M_ret : MRet M := λ A a st, (Ok a, st).
#[global] Instance M_bind : MBind M := λ A B k m st,
  match m st with
  | (Ok a, st') => k a st'
  | (Raise e, st') => (Raise e, st')
  | (OutOfFuel, st') => (OutOfFuel, st')
  end.

(** A computation that does not touch the store. *)
Definition lift {A : Type} (r : res A) : M A := λ st, (r, st).

Definition raise {A : Type} (e : exn) : M A := lift (Raise e).

(** Reading and writing objects.  A location the store does not hold is
    reported as [NoObject], which is no Python exception: the stores a
    program builds never have one. *)
Definition get_atom (l : loc) : M Atom := λ st,
  match atom_objs st !! l with
  | Some a => (Ok a, st)
  | None => (Raise NoObject, st)
  end.

Definition set_atom (l : loc) (a : Atom) : M unit := λ st,
  (Ok tt, {| atom_objs := <[l:=a]> (atom_objs st);
             list_objs := list_objs st;
             molecule_objs := molecule_objs st |}).

Definition get_list (l : loc) : M (list loc) := λ st,
  match list_objs st !! l with
  | Some x => (Ok x, st)
  | None => (Raise NoObject, st)
  end.

Definition set_list (l : loc) (x : list loc) : M unit := λ st,
  (Ok tt, {| atom_objs := atom_objs st;
             list_objs := <[l:=x]> (list_objs st);
             molecule_objs := molecule_objs st |}).

Definition get_molecule (l : loc) : M Molecule := λ st,
  match molecule_objs st !! l with
  | Some m => (Ok m, st)
  | None => (Raise NoObject, st)
  end.

Definition set_molecule (l : loc) (m : Molecule) : M unit := λ st,
  (Ok tt, {| atom_objs := atom_objs st;
             list_objs := list_objs st;
             molecule_objs := <[l:=m]> (molecule_objs st) |}).

(** ** Atom *)

(** The module-level dictionary [element_weight]. *)
Definition element_weight : gmap string R := list_to_map [
    ("H", 1.0075%R); ("He", 4.002%R); ("Li", 6.9675%R); ("Be", 9.012%R);
    ("B", 10.8135%R); ("C", 12.0106%R); ("N", 14.0065%R); ("O", 15.999%R);
    ("F", 18.998%R); ("Ne", 20.1797%R); ("Na", 22.989%R); ("Mg", 24.3050%R);
    ("Al", 26.981%R); ("Si", 28.085%R); ("P", 30.973%R); ("S", 32.0675%R);
    ("Cl", 35.4515%R); ("Ar", 39.948%R); ("K", 39.0983%R); ("Ca", 40.078%R);
    ("Sc", 44.955%R); ("Ti", 47.867%R); ("V", 50.9415%R); ("Cr", 51.9961%R);
    ("Mn", 54.938%R); ("Fe", 55.845%R); ("Co", 58.933%R); ("Ni", 58.6934%R);
    ("Cu", 63.546%R); ("Zn", 65.38%R); ("Ga", 69.723%R); ("Ge", 72.63%R);
    ("As", 74.921%R); ("Se", 78.96%R); ("Br", 79.904%R); ("Kr", 83.798%R);
    ("Rb", 85.4678%R); ("Sr", 87.62%R); ("Y", 88.905%R); ("Zr", 91.224%R);
    ("Nb", 92.906%R); ("Mo", 95.96%R); ("Tc", 98%R); ("Ru", 101.07%R);
    ("Rh", 102.905%R); ("Pd", 106.42%R); ("Ag", 107.8682%R); ("Cd", 112.411%R);
    ("In", 114.818%R); ("Sn", 118.710%R); ("Sb", 121.760%R); ("Te", 127.60%R);
    ("I", 126.904%R); ("Xe", 131.293%R); ("Cs", 132.905%R); ("Ba", 137.327%R);
    ("La", 138.905%R); ("Ce", 140.116%R); ("Pr", 140.907%R); ("Nd", 144.242%R);
    ("Pm", 145%R); ("Sm", 150.36%R); ("Eu", 151.964%R); ("Gd", 157.25%R);
    ("Tb", 158.925%R); ("Dy", 162.500%R); ("Ho", 164.930%R); ("Er", 167.259%R);
    ("Tm", 168.934%R); ("Yb", 173.054%R); ("Lu", 174.9668%R); ("Hf", 178.49%R);
    ("Ta", 180.947%R); ("W", 183.84%R); ("Re", 186.207%R); ("Os", 190.23%R);
    ("Ir", 192.217%R); ("Pt", 195.084%R); ("Au", 196.966%R); ("Hg", 200.59%R);
    ("Tl", 204.3835%R); ("Pb", 207.2%R); ("Bi", 208.980%R); ("Po", 209%R);
    ("At", 210%R); ("Rn", 222%R); ("Fr", 223%R); ("Ra", 226%R);
    ("Ac", 227%R); ("Th", 232.038%R); ("Pa", 231.035%R); ("U", 238.028%R);
    ("Np", 237%R); ("Pu", 244%R); ("Am", 243%R); ("Cm", 247%R);
    ("Bk", 247%R); ("Cf", 251%R); ("Es", 252%R); ("Fm", 257%R);
    ("Md", 258%R); ("No", 259%R); ("Lr", 262%R); ("Rf", 267%R);
    ("Db", 268%R); ("Sg", 271%R); ("Bh", 272%R); ("Hs", 270%R);
    ("Mt", 276%R); ("Ds", 281%R); ("Rg", 280%R); ("Cn", 285%R)
  ].

(** Modelled from the spec: [kasuga_io.quit_with_error] is not among the
    sources; the specification describes it as a fail-fast reporting
    function that terminates the operation.  It is an exception carrying
    the message, raised in the store as it stands. *)
Definition quit_with_error {A : Type} (msg : string) : M A :=
  raise (FatalError msg).

(** The right operand of [==] when the left one is an [Atom], or the left
    operand when Python falls back on the reflected [Atom.__eq__]. *)
Inductive operand : Type :=
  | AtomRef (l : loc)
  | Str (s : string).

(** [atom.coord]. *)
Definition atom_coord (l : loc) : M (list R) := a ← get_atom l; mret (coord a).

(** [other.coord] and [other.symbol]: a [str] has neither attribute. *)
Definition operand_coord (other : operand) : M (list R) :=
  match other with
  | AtomRef l => atom_coord l
  | Str _ => raise AttributeError
  end.

Definition operand_symbol (other : operand) : M string :=
  match other with
  | AtomRef l => a ← get_atom l; mret (symbol a)
  | Str _ => raise AttributeError
  end.

Module Atom.

(** [assign_weight]. *)
Definition assign_weight (self : loc) : M unit :=
  a ← get_atom self;
  match element_weight !! symbol a with
  | Some w => set_atom self {| symbol := symbol a; weight := w; coord := coord a |}
  | None => quit_with_error ("Unrecognized " +:+ symbol a +:+ " atom encountered!")
  end.

(** [__eq__]. *)
Definition __eq__ (self : loc) (other : operand) : M bool :=
  a ← get_atom self;
  oc ← operand_coord other;
  diff ← lift (broadcast Rminus (coord a) oc);
  let distance := np_norm diff in
  if Rlt_dec distance 0.001%R then
    os ← operand_symbol other;
    mret (bool_decide (symbol a = os))
  else mret false.

(** [__init__], run on the fresh object [self]: the three fields are set,
    the argument is only compared with the empty string. *)
Definition __init__ (self : loc) (symbol : string) : M unit :=
  _ ← set_atom self (mkAtom EmptyString 0%R [0; 0; 0]%R);
  if bool_decide (symbol ≠ EmptyString) then assign_weight self else mret tt.

(** [__ne__]. *)
Definition __ne__ (self : loc) (other : operand) : M bool :=
  a ← get_atom self;
  oc ← operand_coord other;
  diff ← lift (broadcast Rminus (coord a) oc);
  let distance := np_norm diff in
  if Rlt_dec distance 0.001%R then
    os ← operand_symbol other;
    if bool_decide (symbol a = os) then mret false else mret true
  else mret true.

(** [connected]: [Vector.distance_rough(self, b)] or
    [Vector.distance(self, b)], compared with the cutoff. *)
Definition connected (self b : loc) (simplified : bool) (cutoff : R) : M bool :=
  cs ← atom_coord self;
  cb ← atom_coord b;
  d ← lift (if simplified then Vector.distance_rough cs cb else Vector.distance cs cb);
  if Rle_dec d cutoff then mret true else mret false.

End Atom.

(** [s == atom] for a [str] [s]: [str.__eq__] returns [NotImplemented]
    for an operand that is not a [str], and Python then calls the
    reflected [Atom.__eq__(atom, s)]. *)
Definition str_eq_atom (s : string) (atom : loc) : M bool := Atom.__eq__ atom (Str s).

(** [atom.rotate(...)]: [Vector.rotate] on the coordinates of the object. *)
Definition rotate_atom (self : loc) (angle : R) (axis_vector : list R)
    (axis_point : point_arg) : M unit :=
  a ← get_atom self;
  c ← lift (Vector.rotate (coord a) angle axis_vector axis_point);
  set_atom self {| symbol := symbol a; weight := weight a; coord := c |}.

(** [atom.coord += x] and [atom.coord -= x] for a float [x]. *)
Definition coord_iadd (self : loc) (x : R) : M unit :=
  a ← get_atom self;
  set_atom self {| symbol := symbol a; weight := weight a;
                   coord := (λ c, c + x)%R <$> coord a |}.

Definition coord_isub (self : loc) (x : R) : M unit :=
  a ← get_atom self;
  set_atom self {| symbol := symbol a; weight := weight a;
                   coord := (λ c, c - x)%R <$> coord a |}.

(** ** Molecule *)

(** [self.atoms[i]] for an [int] index. *)
Definition atom_at (self : loc) (i : Z) : M loc :=
  m ← get_molecule self;
  l ← get_list (atoms m);
  lift (getitem l i).

(** [self.atoms[x]] for an element [x] of a NumPy float array: a list
    index must be an integer, whatever the value of the float. *)
Definition atom_at_float (self : loc) (x : Z) : M loc :=
  m ← get_molecule self;
  _ ← get_list (atoms m);
  raise TypeError.

(** The [for i in other.atoms] of [Molecule.__add__]: the iterator holds
    the list object [it] that [other.atoms] evaluated to and a position [k],
    and reads the list anew at every step; the body is
    [self.atoms.append(i)].  [fuel] bounds the number of steps. *)
Fixpoint add_loop (fuel : nat) (self : loc) (it : loc) (k : nat) : M unit :=
  match fuel with
  | O => lift OutOfFuel
  | S fuel' =>
      l ← get_list it;
      match l !! k with
      | None => mret tt
      | Some i =>
          s ← get_molecule self;
          x ← get_list (atoms s);
          _ ← set_list (atoms s) (x ++ [i]);
          add_loop fuel' self it (S k)
      end
  end.

(** [list.sort] on strings: ascending, by character code. *)
Fixpoint insert_sorted (s : string) (l : list string) : list string :=
  match l with
  | [] => [s]
  | x :: l' => if String.leb s x then s :: l else x :: insert_sorted s l'
  end.

Definition sort_strings (l : list string) : list string :=
  foldr insert_sorted [] l.

(** [self.connectivity_graph.m(...)]: [None] has no methods. *)
Definition graph_of (self : loc) : M ConnectivityGraph :=
  m ← get_molecule self;
  match connectivity_graph m with
  | Some g => mret g
  | None => raise AttributeError
  end.

(** A loop over [l] whose body may [return True], in the store monad. *)
Fixpoint any_of {A : Type} (l : list A) (test : A → M bool) : M bool :=
  match l with
  | [] => mret false
  | x :: l' => b ← test x; if b : bool then mret true else any_of l' test
  end.

(** [item == value] as [list.__contains__] and [list.remove] test it:
    the same object, or else [Atom.__eq__]. *)
Definition same_or_eq (item value : loc) : M bool :=
  if bool_decide (item = value) then mret true else Atom.__eq__ item (AtomRef value).

(** [value in l] for a list of atoms. *)
Definition list_contains (l : list loc) (value : loc) : M bool :=
  any_of l (λ item, same_or_eq item value).

(** [l.remove(value)]: the list without its first item equal to [value],
    a [ValueError] when there is none. *)
Fixpoint list_remove (l : list loc) (value : loc) : M (list loc) :=
  match l with
  | [] => raise ValueError
  | item :: l' =>
      b ← same_or_eq item value;
      if b : bool then mret l'
      else r ← list_remove l' value; mret (item :: r)
  end.

(** [self.connectivity_graph.nodes[i, j] = 1]. *)
Definition set_node (self : loc) (i j : Z) : M unit :=
  m ← get_molecule self;
  match connectivity_graph m with
  | None => raise AttributeError
  | Some g =>
      nodes' ← lift (setitem2 (nodes g) i j 1%Z);
      set_molecule self
        {| atoms := atoms m; molecular_formula := molecular_formula m;
           connectivity_graph := Some {| size := size g; nodes := nodes' |} |}
  end.

(** The two nested loops that [Molecule.__eq__] and [Molecule.__ne__]
    share: for every atom of [self], the distance to the closest atom of
    [other] with the same symbol (1000 when there is none), summed up. *)
Definition closest_sum (self other : loc) : M R :=
  m ← get_molecule self;
  l ← get_list (atoms m);
  for_each (range (length l)) (λ i1 diff,
    o ← get_molecule other;
    lo ← get_list (atoms o);
    current_min ← for_each (range (length lo)) (λ i2 current_min,
      a1 ← atom_at self i1;
      x1 ← get_atom a1;
      a2 ← atom_at other i2;
      x2 ← get_atom a2;
      if bool_decide (symbol x1 = symbol x2) then
        a1 ← atom_at self i1;
        c1 ← atom_coord a1;
        a2 ← atom_at other i2;
        c2 ← atom_coord a2;
        current_diff ← lift (Vector.distance c1 c2);
        if Rlt_dec current_diff current_min then mret current_diff
        else mret current_min
      else mret current_min) 1000%R;
    mret (diff + current_min)%R) 0%R.

(** A computation that, in every store, leaves the store as it is; and
    one that moreover never ends normally. *)
Definition reads {A : Type} (m : M A) : Prop :=
  ∀ st, ∃ r, m st = (r, st).

Definition reads_and_fails {A : Type} (m : M A) : Prop :=
  ∀ st, ∃ r, m st = (r, st) ∧ ∀ u, r ≠ Ok u.

Module Molecule.

(** [__add__]: the value of [self + other] is the function's result,
    [None] when it is Python's [None] and [Some m] for a molecule object. *)
Definition __add__ (fuel : nat) (self other : loc) : M (option loc) :=
  o ← get_molecule other;
  _ ← add_loop fuel self (atoms o) 0;
  mret None.

(** [get_molecular_formula]. *)
Definition get_molecular_formula (self : loc) : M string :=
  m ← get_molecule self;
  _ ← match molecular_formula m with
      | None => set_molecule self {| atoms := atoms m; molecular_formula := Some EmptyString;
                                     connectivity_graph := connectivity_graph m |}
      | Some _ => mret tt
      end;
  l ← get_list (atoms m);
  atom_list ← for_each l (λ atom atom_list,
    a ← get_atom atom;
    if bool_decide (symbol a ∈ atom_list) then mret atom_list
    else mret (atom_list ++ [symbol a])) [];
  let atom_list := sort_strings atom_list in
  count_list ← for_each atom_list (λ atom_in_formula count_list,
    n ← for_each l (λ atom_in_list n,
      b ← str_eq_atom atom_in_formula atom_in_list;
      if b : bool then mret (n + 1)%Z else mret n) 0%Z;
    mret (count_list ++ [n])) [];
  let result :=
    foldr String.app EmptyString
      (zip_with (λ atom n, atom +:+ pretty n) atom_list count_list) in
  m' ← get_molecule self;
  _ ← set_molecule self {| atoms := atoms m'; molecular_formula := Some result;
                           connectivity_graph := connectivity_graph m' |};
  mret result.

(** [change_bond]; the bond is the pair [(bond[0], bond[1])]. *)
Definition change_bond (fuel : nat) (self : loc) (bond : Z * Z) (delta : R) : M unit :=
  g ← graph_of self;
  first_fragment ←
    lift (ConnectivityGraph.flood_fill_search fuel g bond.1 (PyInt bond.2));
  g ← graph_of self;
  second_fragment ←
    lift (ConnectivityGraph.flood_fill_search fuel g bond.2 (PyInt bond.1));
  a0 ← atom_at self bond.1;
  c0 ← atom_coord a0;
  a1 ← atom_at self bond.2;
  c1 ← atom_coord a1;
  translation_vector ← lift (broadcast Rminus c0 c1);
  let translation_vector := np_norm translation_vector in
  g ← graph_of self;
  crossed ←
    lift (ConnectivityGraph.subsets_connected g first_fragment second_fragment);
  if crossed : bool then
    a0 ← atom_at self bond.1;
    _ ← coord_iadd a0 (delta * translation_vector / 2)%R;
    a1 ← atom_at self bond.2;
    coord_isub a1 (delta * translation_vector / 2)%R
  else
    _ ← for_each first_fragment (λ i (_ : unit),
          a ← atom_at_float self i;
          coord_iadd a (delta * translation_vector / 2)%R) tt;
    for_each second_fragment (λ i (_ : unit),
          a ← atom_at_float self i;
          coord_isub a (delta * translation_vector / 2)%R) tt.

(** [change_angle]; the angle is the triple
    [(angle[0], angle[1], angle[2])]. *)
Definition change_angle (fuel : nat) (self : loc) (angle : Z * Z * Z) (delta : R) : M unit :=
  let '(i, pivot, k) := angle in
  g ← graph_of self;
  first_fragment ←
    lift (ConnectivityGraph.flood_fill_search fuel g i (PyInt pivot));
  g ← graph_of self;
  second_fragment ←
    lift (ConnectivityGraph.flood_fill_search fuel g k (PyInt pivot));
  ai ← atom_at self i;
  ci ← atom_coord ai;
  ap ← atom_at self pivot;
  cp ← atom_coord ap;
  v1 ← lift (broadcast Rminus ci cp);
  ak ← atom_at self k;
  ck ← atom_coord ak;
  ap ← atom_at self pivot;
  cp ← atom_coord ap;
  v2 ← lift (broadcast Rminus ck cp);
  rotation_vector ← lift (np_cross v1 v2);
  g ← graph_of self;
  crossed ←
    lift (ConnectivityGraph.subsets_connected g first_fragment second_fragment);
  if crossed : bool then
    ai ← atom_at self i;
    ap ← atom_at self pivot;
    _ ← rotate_atom ai (delta / 2)%R rotation_vector (ArgObject ap);
    ai ← atom_at self i;
    ap ← atom_at self pivot;
    rotate_atom ai (-1 * delta / 2)%R rotation_vector (ArgObject ap)
  else
    _ ← for_each first_fragment (λ x (_ : unit),
          a ← atom_at_float self x;
          ap ← atom_at self pivot;
          rotate_atom a (delta / 2)%R rotation_vector (ArgObject ap)) tt;
    for_each second_fragment (λ x (_ : unit),
          a ← atom_at_float self x;
          ap ← atom_at self pivot;
          rotate_atom a (-1 * delta / 2)%R rotation_vector (ArgObject ap)) tt.

(** [change_dihedral]; the dihedral is the quadruple
    [(dihedral[0], dihedral[1], dihedral[2], dihedral[3])]. *)
Definition change_dihedral (fuel : nat) (self : loc) (dihedral : Z * Z * Z * Z)
    (delta : R) : M unit :=
  let '(a, b, c, d) := dihedral in
  g ← graph_of self;
  first_fragment ←
    lift (ConnectivityGraph.flood_fill_search fuel g a (PyTuple [b; c; d]));
  g ← graph_of self;
  second_fragment ←
    lift (ConnectivityGraph.flood_fill_search fuel g d (PyTuple [a; b; c]));
  ab ← atom_at self b;
  cb ← atom_coord ab;
  ac ← atom_at self c;
  cc ← atom_coord ac;
  rotation_vector ← lift (broadcast Rminus cb cc);
  g ← graph_of self;
  crossed ←
    lift (ConnectivityGraph.subsets_connected g first_fragment second_fragment);
  if crossed : bool then
    aa ← atom_at self a;
    ab ← atom_at self b;
    _ ← rotate_atom aa (delta / 2)%R rotation_vector (ArgObject ab);
    ad ← atom_at self d;
    ab ← atom_at self b;
    rotate_atom ad (-1 * delta / 2)%R rotation_vector (ArgObject ab)
  else
    _ ← for_each first_fragment (λ x (_ : unit),
          a ← atom_at_float self x;
          ab ← atom_at self b;
          rotate_atom a (delta / 2)%R rotation_vector (ArgObject ab)) tt;
    for_each second_fragment (λ x (_ : unit),
          a ← atom_at_float self x;
          ab ← atom_at self b;
          rotate_atom a (-1 * delta / 2)%R rotation_vector (ArgObject ab)) tt.

(** [__eq__]. *)
Definition __eq__ (self other : loc) : M bool :=
  f1 ← get_molecular_formula self;
  f2 ← get_molecular_formula self;
  if bool_decide (f1 ≠ f2) then mret false
  else
    diff ← closest_sum self other;
    if Rlt_dec diff 0.05%R then mret true else mret false.

(** [__ne__]: the value is [Some b] for a boolean and [None] when the
    function falls off its end. *)
Definition __ne__ (self other : loc) : M (option bool) :=
  f1 ← get_molecular_formula self;
  f2 ← get_molecular_formula self;
  if bool_decide (f1 ≠ f2) then mret (Some false)
  else
    diff ← closest_sum self other;
    if Rlt_dec diff 0.05%R then
      if Rlt_dec diff 0.05%R then mret (Some false) else mret (Some true)
    else mret None.

(** [__sub__]: the value of [self - other] is the function's result, as
    for [__add__]. *)
Definition __sub__ (self other : loc) : M (option loc) :=
  o ← get_molecule other;
  lo ← get_list (atoms o);
  for_deletion ← for_each lo (λ i1 for_deletion,
    s ← get_molecule self;
    ls ← get_list (atoms s);
    for_each (zip (range (length ls)) ls) (λ '(num, i2) for_deletion,
      b ← Atom.__eq__ i1 (AtomRef i2);
      if b : bool then
        x ← atom_at self num;
        mret (for_deletion ++ [x])
      else mret for_deletion) for_deletion) [];
  _ ← for_each for_deletion (λ i1 (_ : unit),
        s ← get_molecule self;
        ls ← get_list (atoms s);
        b ← list_contains ls i1;
        if b : bool then
          s ← get_molecule self;
          ls ← get_list (atoms s);
          ls' ← list_remove ls i1;
          set_list (atoms s) ls'
        else mret tt) tt;
  mret None.

(** [is_connected]. *)
Definition is_connected (self other : loc) : M bool :=
  m ← get_molecule self;
  l1 ← get_list (atoms m);
  any_of l1 (λ i1,
    o ← get_molecule other;
    l2 ← get_list (atoms o);
    any_of l2 (λ i2, Atom.connected i1 i2 false 0.025%R)).

(** [get_connectivity_matrix]. *)
Definition get_connectivity_matrix (self : loc) : M (list (list Z)) :=
  m ← get_molecule self;
  _ ← match connectivity_graph m with
      | None =>
          l ← get_list (atoms m);
          set_molecule self
            {| atoms := atoms m; molecular_formula := molecular_formula m;
               connectivity_graph := Some (ConnectivityGraph.__init__ (length l)) |}
      | Some _ => mret tt
      end;
  m ← get_molecule self;
  l ← get_list (atoms m);
  _ ← for_each (range (length l)) (λ i1 (_ : unit),
        m ← get_molecule self;
        l ← get_list (atoms m);
        for_each (range_from i1 (length l)) (λ i2 (_ : unit),
          a1 ← atom_at self i1;
          a2 ← atom_at self i2;
          bonded ← Atom.connected a1 a2 false 0.025%R;
          if bonded : bool then
            _ ← set_node self i1 i2;
            set_node self i2 i1
          else mret tt) tt) tt;
  g ← graph_of self;
  mret (nodes g).

End Molecule.

(** *** What is said of [m1 + m2] *)

(** Evaluated in [st], [m1 + m2] ends normally with the value [None], the
    atom list of [m1] is then its former content followed by that of [m2],
    the atom list of [m2] is as before, and no molecule object is created
    or changed. *)
Definition add_appends (st : store) (m1 m2 : loc) : Prop :=
  ∃ (o1 o2 : Molecule) (l1 l2 : list loc) (fuel : nat) (st' : store),
    molecule_objs st !! m1 = Some o1 ∧ molecule_objs st !! m2 = Some o2
    ∧ list_objs st !! atoms o1 = Some l1 ∧ list_objs st !! atoms o2 = Some l2
    ∧ Molecule.__add__ fuel m1 m2 st = (Ok None, st')
    ∧ list_objs st' !! atoms o1 = Some (l1 ++ l2)
    ∧ list_objs st' !! atoms o2 = Some l2
    ∧ molecule_objs st' = molecule_objs st.

(** *** Notions for describing [m1 - m2] *)

(** Two atoms of the store are equal for [Atom.__eq__]: less than 0.001
    apart, with the same symbol. *)
Definition same_atom (st : store) (a b : loc) : bool :=
  match atom_objs st !! a, atom_objs st !! b with
  | Some x, Some y =>
      match broadcast Rminus (coord x) (coord y) with
      | Ok d =>
          if Rlt_dec (np_norm d) 0.001%R then bool_decide (symbol x = symbol y)
          else false
      | _ => false
      end
  | _, _ => false
  end.

(** [item] is what [value in l] and [l.remove(value)] look for. *)
Definition matches (st : store) (value item : loc) : bool :=
  bool_decide (item = value) || same_atom st item value.

(** The list without its first item that passes the test. *)
Fixpoint remove_first (f : loc → bool) (l : list loc) : list loc :=
  match l with
  | [] => []
  | x :: l' => if f x then l' else x :: remove_first f l'
  end.

(** The atoms [__sub__] collects in [for_deletion]: for every atom of
    [other] in turn, the atoms of [self] equal to it. *)
Definition marked (st : store) (ls lo : list loc) : list loc :=
  lo ≫= λ i1, List.filter (same_atom st i1) ls.

(** How many items of a list pass a test. *)
Definition count_of (f : loc → bool) (l : list loc) : nat :=
  length (List.filter f l).

(** The store with the list [l] for the list object [a]. *)
Definition with_atoms (st : store) (a : loc) (l : list loc) : store :=
  {| atom_objs := atom_objs st;
     list_objs := <[a := l]> (list_objs st);
     molecule_objs := molecule_objs st |}.

(** *** Notions for describing [is_connected] and the connectivity matrix *)

(** Two atoms of the store are within the default cutoff of
    [Atom.connected], by the Euclidean distance. *)
Definition near (st : store) (a b : loc) : bool :=
  match atom_objs st !! a, atom_objs st !! b with
  | Some x, Some y =>
      match Vector.distance (coord x) (coord y) with
      | Ok d => if Rle_dec d 0.025%R then true else false
      | _ => false
      end
  | _, _ => false
  end.

(** The same for the atoms at two positions of an atom list. *)
Definition near_at (st : store) (l : list loc) (i j : nat) : bool :=
  match l !! i, l !! j with
  | Some a, Some b => near st a b
  | _, _ => false
  end.

(** Every atom of the list is in the store, with [k] coordinates. *)
Definition atoms_in (st : store) (k : nat) (l : list loc) : Prop :=
  Forall (λ a, ∃ x, atom_objs st !! a = Some x ∧ length (coord x) = k) l.

(** The entry of a matrix at row [i] and column [j]; a matrix of [n] rows
    and [n] columns. *)
Definition cell (N : list (list Z)) (i j : nat) : option Z :=
  N !! i ≫= (.!! j).

Definition square (n : nat) (N : list (list Z)) : Prop :=
  length N = n ∧ Forall (λ row, length row = n) N.

(** The store in which the molecule [self] has a connectivity graph of
    size [sz] with the matrix [N]. *)
Definition with_nodes (st : store) (self : loc) (m : Molecule) (sz : nat)
    (N : list (list Z)) : store :=
  {| atom_objs := atom_objs st;
     list_objs := list_objs st;
     molecule_objs :=
       <[self := {| atoms := atoms m; molecular_formula := molecular_formula m;
                    connectivity_graph := Some {| size := sz; nodes := N |} |}]>
         (molecule_objs st) |}.

(** The graph [get_connectivity_matrix] starts from. *)
Definition start_graph (m : Molecule) (n : nat) : ConnectivityGraph :=
  match connectivity_graph m with
  | Some g => g
  | None => ConnectivityGraph.__init__ n
  end.

(** What the loops of [get_connectivity_matrix] do to the matrix: one
    entry set, one pair of positions visited, one row of pairs, all rows. *)
Definition set_cell (N : list (list Z)) (i j : nat) : list (list Z) :=
  match N !! i with
  | Some row => <[i := <[j := 1%Z]> row]> N
  | None => N
  end.

Definition visit_pair (st : store) (l : list loc) (i : nat) (N : list (list Z)) (j : nat)
    : list (list Z) :=
  if near_at st l i j then set_cell (set_cell N i j) j i else N.

Definition visit_row (st : store) (l : list loc) (N : list (list Z)) (i : nat)
    : list (list Z) :=
  foldl (visit_pair st l i) N (seq i (length l - i)).

Definition visit_all (st : store) (l : list loc) (N : list (list Z)) : list (list Z) :=
  foldl (visit_row st l) N (seq 0 (length l)).

(** The matrix [N'] has the shape of the atom list and differs from [N]
    only by entries set to 1 between atoms that are near. *)
Definition extends (st : store) (l : list loc) (N N' : list (list Z)) : Prop :=
  square (length l) N'
  ∧ ∀ i j, (cell N i j = Some 1%Z → cell N' i j = Some 1%Z)
           ∧ (cell N' i j = cell N i j
              ∨ (cell N' i j = Some 1%Z ∧ near_at st l i j = true)).

(** The outcome of a piece of [get_connectivity_matrix] on a matrix of
    [n] rows and columns: it ends normally or in an [IndexError], and the
    store differs at most by the matrix, of the same shape. *)
Definition index_error_or_ok (st : store) (self : loc) (m : Molecule) (sz n : nat)
    (p : res unit * store) : Prop :=
  ∃ N, square n N
       ∧ (p = (Ok tt, with_nodes st self m sz N)
          ∨ p = (Raise IndexError, with_nodes st self m sz N)).

(** ** Vertices of the examples *)

(** The chain 0 - 1 - 2, no self loops. *)
Definition chain3 : ConnectivityGraph :=
  {| size := 3; nodes := [[0; 1; 0]; [1; 0; 1]; [0; 1; 0]]%Z |}.

(** A centre 0 bound to 1 and 2, with the diagonal set as
    [get_connectivity_matrix] sets it. *)
Definition star3 : ConnectivityGraph :=
  {| size := 3; nodes := [[1; 1; 1]; [1; 1; 0]; [1; 0; 1]]%Z |}.

(** Two separate diatomic molecules: 0 - 1 and 2 - 3. *)
Definition pairs4 : ConnectivityGraph :=
  {| size := 4; nodes := [[1; 1; 0; 0]; [1; 1; 0; 0]; [0; 0; 1; 1]; [0; 0; 1; 1]]%Z |}.

(** The matrix built for a half turn about the x axis. *)
Definition half_turn_x : list (list R) := [[1; 0; 2]; [0; -1; 0]; [2; 0; -1]]%R.

(** ** Molecules of the examples *)

Definition atom (s : string) (x y z : R) : Atom :=
  {| symbol := s; weight := 0; coord := [x; y; z] |}.

(** Ethylene, atoms C, C, H, H, H, H at locations 1 to 6; the atom list is
    object 10 and the molecule object 20. *)
Definition ethylene : store :=
  {| atom_objs := list_to_map
       [(1%positive, atom "C" 0 0 0); (2%positive, atom "C" 1 0 0);
        (3%positive, atom "H" 0 1 0); (4%positive, atom "H" 0 (-1) 0);
        (5%positive, atom "H" 1 1 0); (6%positive, atom "H" 1 (-1) 0)];
     list_objs := {[ 10%positive := [1; 2; 3; 4; 5; 6]%positive ]};
     molecule_objs := {[ 20%positive :=
       {| atoms := 10%positive; molecular_formula := None;
          connectivity_graph := None |} ]} |}.

(** One atom with the symbol ["C"], and one with a symbol the table does
    not have. *)
Definition carbon_store : store :=
  {| atom_objs := {[ 1%positive := atom "C" 0 0 0 ]};
     list_objs := ∅; molecule_objs := ∅ |}.

Definition unknown_store : store :=
  {| atom_objs := {[ 1%positive := atom "Xx" 0 0 0 ]};
     list_objs := ∅; molecule_objs := ∅ |}.

(** A chain of three atoms 0 - 1 - 2 (acyclic) with the connectivity graph
    [get_connectivity_matrix] builds for it, diagonal included. *)
Definition chain3_graph : ConnectivityGraph :=
  {| size := 3; nodes := [[1; 1; 0]; [1; 1; 1]; [0; 1; 1]]%Z |}.

Definition chain_molecule : store :=
  {| atom_objs := list_to_map
       [(1%positive, atom "H" 0 0 0); (2%positive, atom "O" 1 0 0);
        (3%positive, atom "H" 2 0 0)];
     list_objs := {[ 10%positive := [1; 2; 3]%positive ]};
     molecule_objs := {[ 20%positive :=
       {| atoms := 10%positive; molecular_formula := None;
          connectivity_graph := Some chain3_graph |} ]} |}.

(** A ring of four atoms 0 - 1 - 2 - 3 - 0: the fragments on the two sides
    of every bond are cross-linked. *)
Definition ring4_graph : ConnectivityGraph :=
  {| size := 4;
     nodes := [[1; 1; 0; 1]; [1; 1; 1; 0]; [0; 1; 1; 1]; [1; 0; 1; 1]]%Z |}.

Definition ring_molecule : store :=
  {| atom_objs := list_to_map
       [(1%positive, atom "C" 0 0 0); (2%positive, atom "C" 1 0 0);
        (3%positive, atom "C" 1 1 0); (4%positive, atom "C" 0 1 0)];
     list_objs := {[ 10%positive := [1; 2; 3; 4]%positive ]};
     molecule_objs := {[ 20%positive :=
       {| atoms := 10%positive; molecular_formula := None;
          connectivity_graph := Some ring4_graph |} ]} |}.

(** Three atoms, with a graph that was built when the molecule had two. *)
Definition grown_molecule : store :=
  {| atom_objs := list_to_map
       [(1%positive, atom "H" 0 0 0); (2%positive, atom "O" 1 0 0);
        (3%positive, atom "H" 2 0 0)];
     list_objs := {[ 10%positive := [1; 2; 3]%positive ]};
     molecule_objs := {[ 20%positive :=
       {| atoms := 10%positive; molecular_formula := None;
          connectivity_graph := Some {| size := 2; nodes := [[1; 0]; [0; 1]]%Z |} |} ]} |}.

(** Three atoms, the first two 0.01 apart and the third 1 away from the
    first.  Molecule 20 holds all three and has no graph yet, molecule 21
    holds the first and the third, molecule 22 the second. *)
Definition contacts : store :=
  {| atom_objs := list_to_map
       [(1%positive, atom "H" 0 0 0); (2%positive, atom "H" 0.01 0 0);
        (3%positive, atom "O" 1 0 0)];
     list_objs := list_to_map
       [(10%positive, [1; 2; 3]%positive); (11%positive, [1; 3]%positive);
        (12%positive, [2%positive])];
     molecule_objs := list_to_map
       [(20%positive, {| atoms := 10%positive; molecular_formula := None;
                         connectivity_graph := None |});
        (21%positive, {| atoms := 11%positive; molecular_formula := None;
                         connectivity_graph := None |});
        (22%positive, {| atoms := 12%positive; molecular_formula := None;
                         connectivity_graph := None |})] |}.

(** A molecule of one atom (object 20, atom list 10) and an empty molecule
    (object 21, atom list 11). *)
Definition two_molecules : store :=
  {| atom_objs := {[ 1%positive := atom "H" 0 0 0 ]};
     list_objs := {[ 10%positive := [1%positive]; 11%positive := [] ]};
     molecule_objs := {[
       20%positive := {| atoms := 10%positive; molecular_formula := None;
                         connectivity_graph := None |};
       21%positive := {| atoms := 11%positive; molecular_formula := None;
                         connectivity_graph := None |} ]} |}.

(** ** The embedding on small inputs *)

Example getitem_last : getitem [10; 20; 30]%Z (-1) = Ok 30%Z.
Proof. reflexivity. Qed.

Example getitem_below : getitem [10; 20; 30]%Z (-4) = Raise IndexError.
Proof. reflexivity. Qed.

Example in_tuple : py_in 1 (PyTuple [0; 1]%Z) = Ok true.
Proof. reflexivity. Qed.

Example in_int : py_in 1 (PyInt 1) = Raise TypeError.
Proof. reflexivity. Qed.

Example broadcast_shapes :
  broadcast Rplus [1; 2; 3]%R [1; 2]%R = Raise ValueError.
Proof. reflexivity. Qed.

Example sort_strings_symbols : sort_strings ["H"; "C"; "O"; "Cl"] = ["C"; "Cl"; "H"; "O"].
Proof. reflexivity. Qed.

(** A bond 0 - 1 with the diagonal set: with vertex 1 excluded, the search
    from 0 returns vertex 0 alone. *)
Example flood_fill_search_pair :
  ConnectivityGraph.flood_fill_search 1 {| size := 2; nodes := [[1; 1]; [1; 1]]%Z |}
    0 (PyTuple [1%Z]) = Ok [1; 0]%Z.
Proof. reflexivity. Qed.

Example subsets_connected_no_edge :
  ConnectivityGraph.subsets_connected (ConnectivityGraph.__init__ 3)
    [1; 0; 0]%Z [0; 1; 1]%Z = Ok false.
Proof. reflexivity. Qed.

(** ** Properties of indexing *)

Lemma getitem_cases {A : Type} (l : list A) (i : Z) :
  getitem l i = Raise IndexError ∨ ∃ x, getitem l i = Ok x.
Proof.
  unfold getitem, norm_index.
  repeat case_bool_decide; cbn; try (left; reflexivity);
    match goal with |- context [l !! ?k] => destruct (l !! k) end; eauto.
Qed.

Lemma getitem_3_0 {A : Type} (x0 x1 x2 : A) : getitem [x0; x1; x2] 0 = Ok x0.
Proof. reflexivity. Qed.

Lemma getitem_3_1 {A : Type} (x0 x1 x2 : A) : getitem [x0; x1; x2] 1 = Ok x1.
Proof. reflexivity. Qed.

Lemma getitem_3_2 {A : Type} (x0 x1 x2 : A) : getitem [x0; x1; x2] 2 = Ok x2.
Proof. reflexivity. Qed.

Lemma getitem_3_out_of_range {A : Type} (x0 x1 x2 : A) :
  getitem [x0; x1; x2] 3 = Raise IndexError.
Proof. reflexivity. Qed.

Lemma norm_index_lt (n : nat) (i : Z) (k : nat) : norm_index n i = Ok k → k < n.
Proof.
  unfold norm_index. repeat case_bool_decide; intros [= <-]; lia.
Qed.

Lemma getitem_insert {A : Type} (l : list A) (k : nat) (x : A) :
  k < length l → getitem (<[k:=x]> l) (Z.of_nat k) = Ok x.
Proof.
  intros Hk. unfold getitem, norm_index. rewrite length_insert.
  rewrite bool_decide_true by lia. cbn. rewrite Nat2Z.id.
  rewrite list_lookup_insert_eq by exact Hk. reflexivity.
Qed.

Lemma elem_of_range (n k : nat) : k < n → Z.of_nat k ∈ range n.
Proof.
  intros Hk. unfold range. apply list_elem_of_fmap. exists k.
  split; [reflexivity|]. apply elem_of_seq. lia.
Qed.

Lemma getitem_nat {A : Type} (l : list A) (k : nat) (x : A) :
  l !! k = Some x → getitem l (Z.of_nat k) = Ok x.
Proof.
  intros H. pose proof (lookup_lt_Some _ _ _ H) as Hk.
  unfold getitem, norm_index. rewrite bool_decide_true by lia. cbn.
  rewrite Nat2Z.id, H. reflexivity.
Qed.

Lemma setitem_nat {A : Type} (l : list A) (k : nat) (x : A) :
  k < length l → setitem l (Z.of_nat k) x = Ok (<[k:=x]> l).
Proof.
  intros Hk. unfold setitem, norm_index. rewrite bool_decide_true by lia. cbn.
  rewrite Nat2Z.id. reflexivity.
Qed.

(** ** Properties of the graph queries *)

(** C2: on the chain 0 - 1 - 2 the search from 0 with nothing excluded
    returns after one pass with only vertex 1 flagged, although vertex 2 is
    reachable from 0. *)
Theorem flood_fill_search_misses_reachable :
  ConnectivityGraph.flood_fill_search 1 chain3 0 (PyTuple []) = Ok [0; 1; 0]%Z
  ∧ reachable chain3 [] 0 2
  ∧ ¬ member 2 [0; 1; 0]%Z.
Proof.
  split; [reflexivity|]. split.
  - apply reach_step with (u := 1%nat).
    + apply reach_edge; [reflexivity | apply not_elem_of_nil].
    + reflexivity.
    + apply not_elem_of_nil.
  - unfold member. simpl. congruence.
Qed.

(** On the star, one pass from the centre leaves the loop where it was:
    same start point, same arrays, and no return. *)
Lemma star3_step_fixed :
  flood_fill_step star3 (PyTuple []) 0 [1; 1; 1]%Z [1; 0; 0]%Z
  = Ok (inr (0%Z, [1; 1; 1]%Z, [1; 0; 0]%Z)).
Proof. reflexivity. Qed.

Lemma star3_loop_diverges (fuel : nat) :
  flood_fill_loop fuel star3 (PyTuple []) 0 [1; 1; 1]%Z [1; 0; 0]%Z = OutOfFuel.
Proof.
  induction fuel as [|fuel IH]; [reflexivity|].
  cbn [flood_fill_loop]. rewrite star3_step_fixed. exact IH.
Qed.

(** C6: for the three-vertex star (centre 0 bound to 1 and 2), the search
    started at the centre with nothing excluded does not reach its [return]
    within any number of passes of the outer loop. *)
Theorem flood_fill_search_star_never_returns (fuel : nat) :
  ConnectivityGraph.flood_fill_search fuel star3 0 (PyTuple []) = OutOfFuel.
Proof.
  destruct fuel as [|fuel]; [reflexivity|].
  unfold ConnectivityGraph.flood_fill_search. cbn [flood_fill_loop].
  change (flood_fill_step star3 (PyTuple []) 0
            (replicate (size star3) 0%Z) (replicate (size star3) 0%Z))
    with (Ok (inr (0%Z, [1; 1; 1]%Z, [1; 0; 0]%Z))
            : res (list Z + Z * list Z * list Z)).
  apply star3_loop_diverges.
Qed.

(** The answer of [subsets_connected] depends on the sizes of the two
    arrays only. *)
Lemma subsets_connected_sizes (g : ConnectivityGraph) (A A' B B' : list Z) :
  length A = length A' → length B = length B' →
  ConnectivityGraph.subsets_connected g A B = ConnectivityGraph.subsets_connected g A' B'.
Proof. intros HA HB. unfold ConnectivityGraph.subsets_connected. by rewrite HA, HB. Qed.

(** C5: for the two separate pairs 0 - 1 and 2 - 3, the query on the
    subsets {0, 1} and {2, 3} answers [True], although no edge joins a
    member of the first to a member of the second; this whether the
    subsets are passed as flag arrays, as [flood_fill_search] returns
    them, or as arrays of vertex indices. *)
Theorem subsets_connected_ignores_membership :
  ConnectivityGraph.subsets_connected pairs4 [1; 1; 0; 0]%Z [0; 0; 1; 1]%Z = Ok true
  ∧ ¬ joined pairs4 [1; 1; 0; 0]%Z [0; 0; 1; 1]%Z
  ∧ ConnectivityGraph.subsets_connected pairs4 [0; 1]%Z [2; 3]%Z = Ok true
  ∧ ¬ joined_indices pairs4 [0; 1]%Z [2; 3]%Z.
Proof.
  split; [reflexivity|]. split; [|split; [reflexivity|]].
  - intros (u & v & Hu & Hv & He). unfold member in Hu, Hv.
    destruct u as [|[|[|[|u]]]]; simpl in Hu; try discriminate;
      destruct v as [|[|[|[|v]]]]; simpl in Hv; try discriminate;
      vm_compute in He; discriminate.
  - intros (u & v & Hu & Hv & He).
    assert (u = 0 ∨ u = 1) as Hu' by (set_unfold in Hu; lia).
    assert (v = 2 ∨ v = 3) as Hv' by (set_unfold in Hv; lia).
    destruct Hu' as [-> | ->], Hv' as [-> | ->]; vm_compute in He; discriminate.
Qed.

(** *** What [flood_fill_search] computes *)

(** Equality of two results that are triples of integers. *)
Ltac triple_eq :=
  apply (f_equal Ok);
  apply injective_projections; [apply injective_projections|]; cbn; lia.

(** Throughout: a matrix of the right shape, a start vertex of the graph
    and a tuple of excluded vertices. *)
Section FloodFill.
Context (g : ConnectivityGraph) (excluded : list Z) (s : nat).
Hypothesis Hwf : wf_graph g.
Hypothesis Hs : s < size g.

Lemma cell_total (i j : nat) :
  i < size g → j < size g → ∃ v, getitem2 (nodes g) (Z.of_nat i) (Z.of_nat j) = Ok v.
Proof.
  intros Hi Hj. destruct Hwf as [Hlen Hrows].
  destruct (lookup_lt_is_Some_2 (nodes g) i) as [row Hrow]; [lia|].
  pose proof (Forall_lookup_1 _ _ _ _ Hrows Hrow) as Hr. cbn in Hr.
  destruct (lookup_lt_is_Some_2 row j) as [v Hv]; [lia|].
  exists v. unfold getitem2. rewrite (getitem_nat _ _ _ Hrow). cbn.
  apply getitem_nat, Hv.
Qed.

Lemma linked_total (i j : nat) :
  i < size g → j < size g → ∃ b, linked g (Z.of_nat i) (Z.of_nat j) = Ok b.
Proof.
  intros Hi Hj. unfold linked.
  destruct (cell_total i j Hi Hj) as [a ->]. cbn.
  destruct (bool_decide (a = 1%Z)); [eauto|].
  destruct (cell_total j i Hj Hi) as [b ->]. cbn. eauto.
Qed.

Lemma mark_length (inside : list Z) (i : nat) :
  length (mark g (Z.of_nat s) excluded inside i) = length inside.
Proof. unfold mark. destruct (admissible _ _ _ _); [apply length_insert | reflexivity]. Qed.

Lemma mark_step_tuple (inside : list Z) (i : nat) :
  i < size g → length inside = size g →
  mark_step g (Z.of_nat s) (PyTuple excluded) (Z.of_nat i) inside
  = Ok (mark g (Z.of_nat s) excluded inside i).
Proof.
  intros Hi Hlen. unfold mark_step, mark, admissible.
  destruct (linked_total s i Hs Hi) as [b ->]. cbn.
  destruct b; [|reflexivity]. cbn.
  case_bool_decide as Hin.
  - rewrite bool_decide_false by tauto. reflexivity.
  - rewrite bool_decide_true by exact Hin. apply setitem_nat. lia.
Qed.

Lemma mark_loop (l : list nat) :
  Forall (λ i, i < size g) l →
  ∀ inside, length inside = size g →
    for_each (Z.of_nat <$> l) (mark_step g (Z.of_nat s) (PyTuple excluded)) inside
    = Ok (foldl (mark g (Z.of_nat s) excluded) inside l).
Proof.
  induction 1 as [|i l Hi _ IH]; intros inside Hlen; [reflexivity|].
  cbn [fmap list_fmap for_each foldl].
  rewrite (mark_step_tuple inside i Hi Hlen). cbn.
  apply IH. by rewrite mark_length.
Qed.

Lemma foldl_mark_length (l : list nat) (inside : list Z) :
  length (foldl (mark g (Z.of_nat s) excluded) inside l) = length inside.
Proof.
  revert inside. induction l as [|i l IH]; intros inside; [reflexivity|].
  cbn. by rewrite IH, mark_length.
Qed.

Lemma foldl_mark_lookup (l : list nat) (inside : list Z) (j : nat) :
  j < length inside →
  foldl (mark g (Z.of_nat s) excluded) inside l !! j
  = if bool_decide (j ∈ l) && admissible g (Z.of_nat s) excluded (Z.of_nat j)
    then Some 1%Z else inside !! j.
Proof.
  revert inside. induction l as [|i l IH]; intros inside Hj.
  - rewrite bool_decide_false by apply not_elem_of_nil. reflexivity.
  - cbn [foldl]. rewrite IH by (by rewrite mark_length).
    unfold mark. destruct (decide (j = i)) as [->|Hne].
    + rewrite (bool_decide_true (i ∈ i :: l)) by apply list_elem_of_here.
      destruct (admissible g (Z.of_nat s) excluded (Z.of_nat i)).
      * rewrite list_lookup_insert_eq by exact Hj.
        by destruct (bool_decide (i ∈ l)).
      * by rewrite !andb_false_r.
    + assert (bool_decide (j ∈ i :: l) = bool_decide (j ∈ l)) as ->.
      { apply bool_decide_ext. rewrite elem_of_cons. tauto. }
      destruct (bool_decide (j ∈ l) && admissible g (Z.of_nat s) excluded (Z.of_nat j));
        [reflexivity|].
      destruct (admissible g (Z.of_nat s) excluded (Z.of_nat i)); [|reflexivity].
      by rewrite list_lookup_insert_ne.
Qed.

Lemma neighbour_flags_lookup (j : nat) :
  j < size g →
  neighbour_flags g (Z.of_nat s) excluded !! j
  = Some (if admissible g (Z.of_nat s) excluded (Z.of_nat j) then 1%Z else 0%Z).
Proof.
  intros Hj. unfold neighbour_flags, range.
  rewrite !list_lookup_fmap, lookup_seq_lt by exact Hj. reflexivity.
Qed.

Lemma neighbour_flags_length : length (neighbour_flags g (Z.of_nat s) excluded) = size g.
Proof. unfold neighbour_flags, range. by rewrite !length_fmap, length_seq. Qed.

(** The first loop turns the zero array into the neighbour flags, and
    leaves the neighbour flags as they are. *)
Lemma mark_from_zero :
  foldl (mark g (Z.of_nat s) excluded) (replicate (size g) 0%Z) (seq 0 (size g))
  = neighbour_flags g (Z.of_nat s) excluded.
Proof.
  apply list_eq. intros j. destruct (decide (j < size g)) as [Hj|Hj].
  - rewrite foldl_mark_lookup by (by rewrite length_replicate).
    rewrite neighbour_flags_lookup by exact Hj.
    rewrite bool_decide_true by (apply elem_of_seq; lia). cbn.
    destruct (admissible _ _ _ _); [reflexivity|].
    by apply lookup_replicate_2.
  - rewrite !lookup_ge_None_2; [reflexivity | |].
    + rewrite neighbour_flags_length. lia.
    + rewrite foldl_mark_length, length_replicate. lia.
Qed.

Lemma mark_from_flags :
  foldl (mark g (Z.of_nat s) excluded) (neighbour_flags g (Z.of_nat s) excluded)
    (seq 0 (size g))
  = neighbour_flags g (Z.of_nat s) excluded.
Proof.
  apply list_eq. intros j. destruct (decide (j < size g)) as [Hj|Hj].
  - rewrite foldl_mark_lookup by (by rewrite neighbour_flags_length).
    rewrite neighbour_flags_lookup by exact Hj.
    rewrite bool_decide_true by (apply elem_of_seq; lia). cbn.
    by destruct (admissible _ _ _ _).
  - rewrite !lookup_ge_None_2; [reflexivity | |].
    + rewrite neighbour_flags_length. lia.
    + rewrite foldl_mark_length, neighbour_flags_length. lia.
Qed.

Lemma seq_bounded (n : nat) : Forall (λ i, i < n) (seq 0 n).
Proof. apply Forall_forall. intros i Hi. apply elem_of_seq in Hi. lia. Qed.

Lemma mark_neighbours_zero :
  mark_neighbours g (Z.of_nat s) (PyTuple excluded) (replicate (size g) 0%Z)
  = Ok (neighbour_flags g (Z.of_nat s) excluded).
Proof.
  unfold mark_neighbours, range.
  rewrite mark_loop;
    [by rewrite mark_from_zero | apply seq_bounded | apply length_replicate].
Qed.

Lemma mark_neighbours_flags :
  mark_neighbours g (Z.of_nat s) (PyTuple excluded)
    (neighbour_flags g (Z.of_nat s) excluded)
  = Ok (neighbour_flags g (Z.of_nat s) excluded).
Proof.
  unfold mark_neighbours, range.
  rewrite mark_loop;
    [by rewrite mark_from_flags | apply seq_bounded | apply neighbour_flags_length].
Qed.

Lemma start_checked_lookup (i : nat) :
  i < size g → start_checked g s !! i = Some (if bool_decide (i = s) then 1%Z else 0%Z).
Proof.
  intros Hi. unfold start_checked. case_bool_decide as H.
  - subst i. apply list_lookup_insert_eq. by rewrite length_replicate.
  - rewrite list_lookup_insert_ne by congruence. by apply lookup_replicate_2.
Qed.

Lemma survey_step_start (i : nat) (cc ci : Z) :
  i < size g →
  survey_step (neighbour_flags g (Z.of_nat s) excluded) (start_checked g s)
    (Z.of_nat i) (cc, ci, Z.of_nat s)
  = Ok ((if bool_decide (i = s) then 1 else 0) + cc,
        (if admissible g (Z.of_nat s) excluded (Z.of_nat i) then 1 else 0) + ci,
        Z.of_nat s)%Z.
Proof.
  intros Hi. unfold survey_step.
  rewrite (getitem_nat _ _ _ (start_checked_lookup i Hi)). cbn.
  rewrite (getitem_nat _ _ _ (neighbour_flags_lookup i Hi)). cbn.
  destruct (bool_decide (i = s)) eqn:His;
    destruct (admissible g (Z.of_nat s) excluded (Z.of_nat i));
    repeat (first [rewrite bool_decide_true by lia | rewrite bool_decide_false by lia]);
    try (apply bool_decide_eq_true in His; subst i);
    triple_eq.
Qed.

Lemma survey_loop (l : list nat) :
  Forall (λ i, i < size g) l →
  ∀ cc ci,
    for_each (Z.of_nat <$> l)
      (survey_step (neighbour_flags g (Z.of_nat s) excluded) (start_checked g s))
      (cc, ci, Z.of_nat s)
    = Ok (foldr (λ i acc, (if bool_decide (i = s) then 1 else 0) + acc) 0 l + cc,
          foldr (λ i acc, (if admissible g (Z.of_nat s) excluded i then 1 else 0) + acc)
            0 (Z.of_nat <$> l) + ci,
          Z.of_nat s)%Z.
Proof.
  induction 1 as [|i l Hi _ IH]; intros cc ci; [reflexivity|].
  cbn [fmap list_fmap for_each foldr].
  rewrite (survey_step_start i cc ci Hi). cbn. rewrite IH. triple_eq.
Qed.

Lemma start_once (a n : nat) :
  foldr (λ i acc, (if bool_decide (i = s) then 1 else 0) + acc)%Z 0%Z (seq a n)
  = if bool_decide (a ≤ s < a + n) then 1%Z else 0%Z.
Proof.
  revert a. induction n as [|n IH]; intros a.
  - cbn. by rewrite bool_decide_false by lia.
  - cbn [seq foldr]. rewrite IH. repeat case_bool_decide; lia.
Qed.

Lemma survey_start :
  survey g (neighbour_flags g (Z.of_nat s) excluded) (start_checked g s) (Z.of_nat s)
  = Ok (1%Z, neighbour_count g (Z.of_nat s) excluded, Z.of_nat s).
Proof.
  unfold survey, range. rewrite survey_loop by apply seq_bounded.
  rewrite start_once, bool_decide_true by lia.
  unfold neighbour_count, range. triple_eq.
Qed.

(** A pass of the [while] body, from the initial arrays and from the
    arrays the first pass leaves. *)
Lemma flood_fill_step_first :
  flood_fill_step g (PyTuple excluded) (Z.of_nat s)
    (replicate (size g) 0%Z) (replicate (size g) 0%Z)
  = if bool_decide (neighbour_count g (Z.of_nat s) excluded = 1%Z)
    then Ok (inl (neighbour_flags g (Z.of_nat s) excluded))
    else Ok (inr (Z.of_nat s, neighbour_flags g (Z.of_nat s) excluded, start_checked g s)).
Proof.
  unfold flood_fill_step. rewrite mark_neighbours_zero. cbn.
  rewrite setitem_nat by (by rewrite length_replicate). cbn.
  fold (start_checked g s). rewrite survey_start. reflexivity.
Qed.

Lemma flood_fill_step_again :
  flood_fill_step g (PyTuple excluded) (Z.of_nat s)
    (neighbour_flags g (Z.of_nat s) excluded) (start_checked g s)
  = if bool_decide (neighbour_count g (Z.of_nat s) excluded = 1%Z)
    then Ok (inl (neighbour_flags g (Z.of_nat s) excluded))
    else Ok (inr (Z.of_nat s, neighbour_flags g (Z.of_nat s) excluded, start_checked g s)).
Proof.
  unfold flood_fill_step. rewrite mark_neighbours_flags. cbn.
  rewrite setitem_nat by (unfold start_checked; by rewrite length_insert, length_replicate).
  cbn. replace (<[s:=1%Z]> (start_checked g s)) with (start_checked g s)
    by (unfold start_checked; by rewrite list_insert_insert_eq).
  rewrite survey_start. reflexivity.
Qed.

(** When the start point has exactly one admissible neighbour, the
    search returns after its first pass, with that neighbour alone. *)
Lemma flood_fill_search_returns (fuel : nat) :
  neighbour_count g (Z.of_nat s) excluded = 1%Z →
  ConnectivityGraph.flood_fill_search (S fuel) g (Z.of_nat s) (PyTuple excluded)
  = Ok (neighbour_flags g (Z.of_nat s) excluded).
Proof.
  intros Hc. unfold ConnectivityGraph.flood_fill_search. cbn [flood_fill_loop].
  rewrite flood_fill_step_first, bool_decide_true by exact Hc. reflexivity.
Qed.

(** In every other case no number of passes reaches the [return]. *)
Lemma flood_fill_search_diverges (fuel : nat) :
  neighbour_count g (Z.of_nat s) excluded ≠ 1%Z →
  ConnectivityGraph.flood_fill_search fuel g (Z.of_nat s) (PyTuple excluded) = OutOfFuel.
Proof.
  intros Hc.
  assert (Hloop : ∀ n, flood_fill_loop n g (PyTuple excluded) (Z.of_nat s)
                        (neighbour_flags g (Z.of_nat s) excluded) (start_checked g s)
                      = OutOfFuel).
  { induction n as [|n IH]; [reflexivity|]. cbn [flood_fill_loop].
    rewrite flood_fill_step_again, bool_decide_false by exact Hc. exact IH. }
  destruct fuel as [|fuel]; [reflexivity|].
  unfold ConnectivityGraph.flood_fill_search. cbn [flood_fill_loop].
  rewrite flood_fill_step_first, bool_decide_false by exact Hc. apply Hloop.
Qed.
End FloodFill.

(** *** The search on a graph without edges *)

Lemma init_wf (n : nat) : wf_graph (ConnectivityGraph.__init__ n).
Proof.
  split; cbn.
  - apply length_replicate.
  - apply Forall_replicate, length_replicate.
Qed.

Lemma init_not_linked (n i j : nat) :
  i < n → j < n →
  linked (ConnectivityGraph.__init__ n) (Z.of_nat i) (Z.of_nat j) = Ok false.
Proof.
  intros Hi Hj.
  assert (Hcell : ∀ a b, a < n → b < n →
            getitem2 (nodes (ConnectivityGraph.__init__ n)) (Z.of_nat a) (Z.of_nat b)
            = Ok 0%Z).
  { intros a b Ha Hb. unfold getitem2. cbn [ConnectivityGraph.__init__ nodes].
    rewrite (getitem_nat _ a (replicate n 0%Z)) by (by apply lookup_replicate_2).
    cbn [mbind res_bind]. apply getitem_nat. by apply lookup_replicate_2. }
  unfold linked. rewrite (Hcell i j Hi Hj). cbn [mbind res_bind].
  rewrite bool_decide_false by discriminate.
  rewrite (Hcell j i Hj Hi). cbn [mbind res_bind].
  by rewrite bool_decide_false by discriminate.
Qed.

Lemma init_no_neighbour (n s : nat) (excluded : list Z) :
  s < n → neighbour_count (ConnectivityGraph.__init__ n) (Z.of_nat s) excluded = 0%Z.
Proof.
  intros Hs. unfold neighbour_count. cbn [size ConnectivityGraph.__init__].
  assert (H : Forall (λ i, admissible (ConnectivityGraph.__init__ n) (Z.of_nat s)
                             excluded i = false) (range n)).
  { unfold range. apply Forall_fmap, Forall_forall. intros i Hi.
    apply elem_of_seq in Hi. cbn. unfold admissible.
    by rewrite init_not_linked by lia. }
  induction H as [|i l Hi _ IH]; [reflexivity|].
  cbn [foldr]. rewrite Hi, IH. reflexivity.
Qed.

(** On the graph [__init__] makes, before any bond is entered, the search
    from a vertex never returns. *)
Lemma flood_fill_search_init_diverges (n s fuel : nat) (excluded : list Z) :
  s < n →
  ConnectivityGraph.flood_fill_search fuel (ConnectivityGraph.__init__ n)
    (Z.of_nat s) (PyTuple excluded) = OutOfFuel.
Proof.
  intros Hs. apply flood_fill_search_diverges.
  - apply init_wf.
  - exact Hs.
  - by rewrite init_no_neighbour.
Qed.

(** *** The search with a bare integer for [excluded] *)

(** With a bare integer for [excluded], a pass of the first loop that
    ends normally has met no neighbour and has flagged nothing. *)
Lemma mark_step_int (g : ConnectivityGraph) (sp k i : Z) (inside inside' : list Z) :
  mark_step g sp (PyInt k) i inside = Ok inside' → inside' = inside.
Proof.
  unfold mark_step. destruct (linked g sp i) as [[|]| |]; try discriminate.
  intros H. by injection H.
Qed.

Lemma mark_neighbours_int (g : ConnectivityGraph) (sp k : Z) (inside inside' : list Z) :
  mark_neighbours g sp (PyInt k) inside = Ok inside' → inside' = inside.
Proof.
  unfold mark_neighbours. generalize (range (size g)). intros l.
  revert inside. induction l as [|i l IH]; intros inside H.
  - by injection H.
  - cbn [for_each] in H.
    destruct (mark_step g sp (PyInt k) i inside) as [x| |] eqn:Hs; try discriminate.
    apply mark_step_int in Hs as ->. apply IH, H.
Qed.

Lemma all_zero_replicate (n : nat) : all_zero (replicate n 0%Z).
Proof.
  intros i v. unfold getitem. destruct (norm_index _ i) as [k| |]; try discriminate.
  cbn. destruct (replicate n 0%Z !! k) as [x|] eqn:E; [|discriminate].
  apply lookup_replicate in E as [-> _]. intros H. by injection H.
Qed.

Lemma survey_step_all_zero (inside checked : list Z) (i cc ci sp cc' ci' sp' : Z) :
  all_zero inside →
  survey_step inside checked i (cc, ci, sp) = Ok (cc', ci', sp') →
  ci' = ci ∧ sp' = sp ∧ (cc ≤ cc')%Z
  ∧ (getitem checked i = Ok 1%Z → (cc < cc')%Z).
Proof.
  intros Hz H. unfold survey_step in H.
  destruct (getitem checked i) as [c| |] eqn:Hc; try discriminate.
  destruct (getitem inside i) as [n| |] eqn:Hn; try discriminate.
  pose proof (Hz i n Hn) as ->. cbn in H.
  assert (Hcc : (cc ≤ if bool_decide (c = 1%Z) then cc + 1 else cc)%Z)
    by (destruct (bool_decide (c = 1%Z)); lia).
  destruct (bool_decide (c ≠ 0%Z)); cbn in H; injection H as <- <- <-;
    (repeat split; [exact Hcc|]); intros [= ->];
    rewrite bool_decide_true by reflexivity; lia.
Qed.

Lemma survey_all_zero (inside checked : list Z) (l : list Z) :
  all_zero inside →
  ∀ cc ci sp cc' ci' sp',
    for_each l (survey_step inside checked) (cc, ci, sp) = Ok (cc', ci', sp') →
    ci' = ci ∧ sp' = sp ∧ (cc ≤ cc')%Z
    ∧ (∀ i, i ∈ l → getitem checked i = Ok 1%Z → (cc < cc')%Z).
Proof.
  intros Hz. induction l as [|i l IH]; intros cc ci sp cc' ci' sp' H.
  - injection H as <- <- <-. repeat split; try lia.
    intros i Hi. by apply elem_of_nil in Hi.
  - cbn [for_each] in H.
    destruct (survey_step inside checked i (cc, ci, sp)) as [[[cc1 ci1] sp1]| |] eqn:Hs;
      try discriminate.
    apply (survey_step_all_zero _ _ _ _ _ _ _ _ _ Hz) in Hs as (-> & -> & Hle & Hlt).
    apply IH in H as (-> & -> & Hle' & Hlt').
    repeat split; [lia|]. intros j Hj Hone.
    apply elem_of_cons in Hj as [->|Hj]; [specialize (Hlt Hone) | specialize (Hlt' j Hj Hone)]; lia.
Qed.

(** With a bare integer for [excluded], the loop of [flood_fill_search]
    never reaches its [return]: a pass either raises or leaves [inside]
    without a flag while one vertex is checked. *)
Lemma flood_fill_loop_int (g : ConnectivityGraph) (k : Z) (fuel : nat) :
  ∀ (sp : Z) (inside checked : list Z) (r : list Z),
    all_zero inside → length checked = size g →
    flood_fill_loop fuel g (PyInt k) sp inside checked ≠ Ok r.
Proof.
  induction fuel as [|fuel IH]; intros sp inside checked r Hz Hlen; [discriminate|].
  cbn [flood_fill_loop]. unfold flood_fill_step.
  destruct (mark_neighbours g sp (PyInt k) inside) as [inside'| |] eqn:Hm;
    try discriminate.
  apply mark_neighbours_int in Hm as ->. cbn.
  destruct (setitem checked sp 1%Z) as [checked'| |] eqn:Hset; try discriminate.
  unfold setitem in Hset.
  destruct (norm_index (length checked) sp) as [j| |] eqn:Hj; try discriminate.
  injection Hset as <-. apply norm_index_lt in Hj. cbn.
  destruct (survey g inside (<[j:=1%Z]> checked) sp) as [[[cc ci] sp']| |] eqn:Hs;
    try discriminate.
  unfold survey in Hs.
  apply (survey_all_zero _ _ _ Hz) in Hs as (-> & -> & _ & Hlt).
  specialize (Hlt (Z.of_nat j)). rewrite Hlen in Hj.
  specialize (Hlt (elem_of_range _ _ Hj)).
  rewrite getitem_insert in Hlt by lia. specialize (Hlt eq_refl).
  cbn. rewrite bool_decide_false by lia.
  apply IH; [exact Hz | by rewrite length_insert].
Qed.

Lemma flood_fill_search_int (fuel : nat) (g : ConnectivityGraph) (sp k : Z) (r : list Z) :
  ConnectivityGraph.flood_fill_search fuel g sp (PyInt k) ≠ Ok r.
Proof.
  apply flood_fill_loop_int; [apply all_zero_replicate | apply length_replicate].
Qed.

(** ** Properties of the Vector transforms *)

(** C8: on every three-component coordinate, whatever the normal and the
    point, [mirror] ends in an [IndexError] (it reads [coord[3]]), so the
    coordinate is not replaced by its reflection. *)
Theorem mirror_raises_IndexError (x0 x1 x2 : R) (normal point : list R) :
  Vector.mirror [x0; x1; x2] normal point = Raise IndexError
  ∧ Vector.mirror [x0; x1; x2] normal point
    ≠ Ok (reflection [x0; x1; x2] normal point).
Proof.
  assert (H : Vector.mirror [x0; x1; x2] normal point = Raise IndexError).
  { unfold Vector.mirror.
    destruct (getitem_cases normal 0) as [-> | [a ->]]; [reflexivity|].
    destruct (getitem_cases normal 1) as [-> | [b ->]]; [reflexivity|].
    destruct (getitem_cases normal 2) as [-> | [c ->]]; [reflexivity|].
    destruct (getitem_cases point 0) as [-> | [p0 ->]]; [reflexivity|].
    destruct (getitem_cases point 1) as [-> | [p1 ->]]; [reflexivity|].
    destruct (getitem_cases point 2) as [-> | [p2 ->]]; [reflexivity|].
    reflexivity. }
  split; [exact H | rewrite H; discriminate].
Qed.

Lemma np_norm_unit_x : np_norm [1; 0; 0]%R = 1%R.
Proof.
  unfold np_norm. cbn.
  replace (1 * 1 + (0 * 0 + (0 * 0 + 0)))%R with 1%R by lra.
  apply sqrt_1.
Qed.

Lemma deg2rad_180 : deg2rad 180 = PI.
Proof. unfold deg2rad. field. Qed.

Lemma rotation_matrix_half_turn_x :
  rotation_matrix 180 [1; 0; 0]%R = Ok half_turn_x.
Proof.
  unfold rotation_matrix. cbn [fmap list_fmap].
  rewrite getitem_3_0, getitem_3_1, getitem_3_2. cbn [mbind res_bind].
  rewrite np_norm_unit_x, deg2rad_180, cos_PI, sin_PI.
  unfold half_turn_x. repeat f_equal; field.
Qed.

(** C4: for the angle 180 and the axis (1, 0, 0), the matrix of [rotate]
    is [[1, 0, 2], [0, -1, 0], [2, 0, -1]]: its product with its transpose
    is not the identity and its determinant is 5. *)
Theorem rotation_matrix_not_orthonormal :
  rotation_matrix 180 [1; 0; 0]%R = Ok half_turn_x
  ∧ matmul3 (transpose3 half_turn_x) half_turn_x ≠ Ok identity3
  ∧ det3 half_turn_x = 5%R
  ∧ ¬ is_rotation half_turn_x.
Proof.
  assert (Hd : det3 half_turn_x = 5%R) by (cbn; lra).
  split; [apply rotation_matrix_half_turn_x|].
  split; [|split; [exact Hd|]].
  - cbn. intros H. injection H as H. lra.
  - intros [_ H]. rewrite Hd in H. lra.
Qed.

(** ** Reasoning in the store monad *)

(** Sequencing in [M], step by step. *)
Lemma bind_ok {A B : Type} (m : M A) (k : A → M B) (st st' : store) (a : A) :
  m st = (Ok a, st') → (m ≫= k) st = k a st'.
Proof. intros H. unfold mbind, M_bind. rewrite H. reflexivity. Qed.

Lemma bind_raise {A B : Type} (m : M A) (k : A → M B) (st st' : store) (e : exn) :
  m st = (Raise e, st') → (m ≫= k) st = (Raise e, st').
Proof. intros H. unfold mbind, M_bind. rewrite H. reflexivity. Qed.

Lemma bind_out_of_fuel {A B : Type} (m : M A) (k : A → M B) (st st' : store) :
  m st = (OutOfFuel, st') → (m ≫= k) st = (OutOfFuel, st').
Proof. intros H. unfold mbind, M_bind. rewrite H. reflexivity. Qed.

Lemma get_atom_ok (st : store) (l : loc) (a : Atom) :
  atom_objs st !! l = Some a → get_atom l st = (Ok a, st).
Proof. intros H. unfold get_atom. rewrite H. reflexivity. Qed.

Lemma get_list_ok (st : store) (l : loc) (x : list loc) :
  list_objs st !! l = Some x → get_list l st = (Ok x, st).
Proof. intros H. unfold get_list. rewrite H. reflexivity. Qed.

Lemma get_molecule_ok (st : store) (l : loc) (m : Molecule) :
  molecule_objs st !! l = Some m → get_molecule l st = (Ok m, st).
Proof. intros H. unfold get_molecule. rewrite H. reflexivity. Qed.

(** ** Properties of Atom *)

(** C9: when the atom's symbol has an entry in [element_weight],
    [assign_weight] stores exactly that entry as the weight and ends
    normally; when it has none, [assign_weight] is the call of the error
    reporter with the message naming the symbol, it ends in the reporter's
    exception, and the store, the atom's weight included, is as before the
    call. *)
Theorem assign_weight_spec (st : store) (self : loc) (a : Atom) :
  atom_objs st !! self = Some a →
  match element_weight !! symbol a with
  | Some w =>
      Atom.assign_weight self st
      = (Ok tt, {| atom_objs := <[self := {| symbol := symbol a; weight := w;
                                              coord := coord a |}]> (atom_objs st);
                   list_objs := list_objs st;
                   molecule_objs := molecule_objs st |})
  | None =>
      Atom.assign_weight self st
      = quit_with_error ("Unrecognized " +:+ symbol a +:+ " atom encountered!") st
      ∧ Atom.assign_weight self st
        = (Raise (FatalError ("Unrecognized " +:+ symbol a +:+ " atom encountered!")), st)
  end.
Proof.
  intros Ha. unfold Atom.assign_weight. erewrite bind_ok by (apply get_atom_ok, Ha).
  destruct (element_weight !! symbol a); [reflexivity | split; reflexivity].
Qed.

Lemma assign_weight_spec_witness :
  Atom.assign_weight 1%positive carbon_store
  = (Ok tt, {| atom_objs := <[1%positive := {| symbol := "C"; weight := 12.0106;
                                                coord := [0; 0; 0]%R |}]>
                              (atom_objs carbon_store);
               list_objs := ∅; molecule_objs := ∅ |})
  ∧ Atom.assign_weight 1%positive unknown_store
    = (Raise (FatalError "Unrecognized Xx atom encountered!"), unknown_store).
Proof.
  split.
  - exact (assign_weight_spec carbon_store 1%positive (atom "C" 0 0 0) eq_refl).
  - exact (proj2 (assign_weight_spec unknown_store 1%positive
                    (atom "Xx" 0 0 0) eq_refl)).
Defined.

(** ** Properties of Molecule *)

Lemma insert_sorted_not_nil (s : string) (l : list string) : insert_sorted s l ≠ [].
Proof. destruct l as [|x l]; cbn; [|destruct (String.leb s x)]; discriminate. Qed.

Lemma sort_strings_not_nil (l : list string) : l ≠ [] → sort_strings l ≠ [].
Proof.
  destruct l as [|x l]; [congruence|]. intros _. cbn. apply insert_sorted_not_nil.
Qed.

(** The first loop of [get_molecular_formula] reads every atom and
    leaves the store alone; its list is not empty as soon as there is an
    atom. *)
Lemma collect_symbols_ok (st : store) (l : list loc) (acc : list string) :
  Forall (λ y, is_Some (atom_objs st !! y)) l →
  ∃ acc',
    for_each l (λ atom atom_list,
      a ← get_atom atom;
      if bool_decide (symbol a ∈ atom_list) then mret atom_list
      else mret (atom_list ++ [symbol a])) acc st = (Ok acc', st)
    ∧ (acc ≠ [] ∨ l ≠ [] → acc' ≠ []).
Proof.
  intros Hl. revert acc. induction Hl as [|x l [a Ha] _ IH]; intros acc.
  - exists acc. split; [reflexivity|]. intros [H|H]; congruence.
  - cbn [for_each].
    destruct (IH (if bool_decide (symbol a ∈ acc) then acc else acc ++ [symbol a]))
      as (acc' & Hacc & Hne).
    exists acc'. split.
    + erewrite bind_ok; [exact Hacc|].
      erewrite bind_ok by (apply get_atom_ok, Ha).
      case_bool_decide; reflexivity.
    + intros _. apply Hne. left. case_bool_decide as Hin.
      * intros ->. by apply elem_of_nil in Hin.
      * by destruct acc.
Qed.

(** Comparing a string with an atom of the store ends in the
    [AttributeError] of [other.coord]. *)
Lemma str_eq_atom_raises (st : store) (s : string) (x : loc) :
  is_Some (atom_objs st !! x) →
  str_eq_atom s x st = (Raise AttributeError, st).
Proof.
  intros [a Ha]. unfold str_eq_atom, Atom.__eq__.
  erewrite bind_ok by (apply get_atom_ok, Ha). reflexivity.
Qed.

(** C7: for every molecule with at least one atom,
    [get_molecular_formula] ends in an [AttributeError] (raised when the
    first sorted symbol is compared with the first atom object), so no
    formula string is returned. *)
Theorem get_molecular_formula_raises (st : store) (self : loc) (m : Molecule)
    (x : loc) (l : list loc) :
  molecule_objs st !! self = Some m →
  list_objs st !! atoms m = Some (x :: l) →
  Forall (λ y, is_Some (atom_objs st !! y)) (x :: l) →
  (Molecule.get_molecular_formula self st).1 = Raise AttributeError.
Proof.
  intros Hm Hl Hat. unfold Molecule.get_molecular_formula.
  erewrite bind_ok by (apply get_molecule_ok, Hm).
  assert (∃ st1, match molecular_formula m with
                 | Some _ => mret tt
                 | None => set_molecule self
                     {| atoms := atoms m; molecular_formula := Some EmptyString;
                        connectivity_graph := connectivity_graph m |}
                 end st = (Ok tt, st1)
                 ∧ atom_objs st1 = atom_objs st ∧ list_objs st1 = list_objs st)
    as (st1 & Hst1 & Hsa & Hsl).
  { destruct (molecular_formula m); eexists; (split; [reflexivity|]); split; reflexivity. }
  erewrite bind_ok by exact Hst1.
  rewrite <- Hsa in Hat. rewrite <- Hsl in Hl.
  erewrite bind_ok by (apply get_list_ok, Hl).
  destruct (collect_symbols_ok st1 (x :: l) [] Hat) as (acc & Hacc & Hne).
  erewrite bind_ok by exact Hacc.
  assert (Hs : sort_strings acc ≠ []).
  { apply sort_strings_not_nil, Hne. right. discriminate. }
  destruct (sort_strings acc) as [|s rest]; [congruence|].
  erewrite bind_raise; [reflexivity|].
  cbn [for_each].
  erewrite bind_raise; [reflexivity|].
  erewrite bind_raise; [reflexivity|].
  erewrite bind_raise; [reflexivity|].
  erewrite bind_raise; [reflexivity|].
  apply str_eq_atom_raises. by apply Forall_inv in Hat.
Qed.

Lemma get_molecular_formula_raises_witness :
  (Molecule.get_molecular_formula 20%positive ethylene).1 = Raise AttributeError.
Proof.
  apply (get_molecular_formula_raises ethylene 20%positive
           {| atoms := 10%positive; molecular_formula := None;
              connectivity_graph := None |}
           1%positive [2; 3; 4; 5; 6]%positive).
  - reflexivity.
  - reflexivity.
  - repeat constructor; eexists; reflexivity.
Defined.

(** The loop of [__add__] when the list it iterates is not the list it
    appends to: from position [k] it appends the rest of the iterated list
    and stops. *)
Lemma add_loop_distinct (self it : loc) (s : Molecule) (l2 : list loc) (fuel : nat) :
  atoms s ≠ it →
  ∀ (k : nat) (st : store) (x : list loc),
    molecule_objs st !! self = Some s →
    list_objs st !! it = Some l2 →
    list_objs st !! atoms s = Some x →
    length l2 - k < fuel →
    add_loop fuel self it k st
    = (Ok tt, {| atom_objs := atom_objs st;
                 list_objs := <[atoms s := x ++ drop k l2]> (list_objs st);
                 molecule_objs := molecule_objs st |}).
Proof.
  intros Hne. induction fuel as [|fuel IH]; intros k st x Hs Hit Hx Hk; [lia|].
  cbn [add_loop]. erewrite bind_ok by (apply get_list_ok, Hit).
  destruct (l2 !! k) as [i|] eqn:Hi.
  - erewrite bind_ok by (apply get_molecule_ok, Hs).
    erewrite bind_ok by (apply get_list_ok, Hx).
    erewrite bind_ok by reflexivity.
    pose proof (lookup_lt_Some _ _ _ Hi) as Hlt.
    rewrite (IH (S k) _ (x ++ [i])); cbn.
    + rewrite insert_insert_eq, (drop_S _ _ _ Hi), <- app_assoc. reflexivity.
    + exact Hs.
    + rewrite lookup_insert_ne by exact Hne. exact Hit.
    + apply lookup_insert_eq.
    + lia.
  - apply lookup_ge_None in Hi. rewrite drop_ge, app_nil_r by exact Hi.
    rewrite insert_id by exact Hx. destruct st; reflexivity.
Qed.

(** The same loop when both are one list object: the list grows by one
    element at every step and the iterator never reaches its end. *)
Lemma add_loop_aliased (self it : loc) (s : Molecule) (fuel : nat) :
  atoms s = it →
  ∀ (k : nat) (st : store) (l : list loc),
    molecule_objs st !! self = Some s →
    list_objs st !! it = Some l →
    k < length l →
    (add_loop fuel self it k st).1 = OutOfFuel.
Proof.
  intros Heq. induction fuel as [|fuel IH]; intros k st l Hs Hit Hk; [reflexivity|].
  cbn [add_loop]. erewrite bind_ok by (apply get_list_ok, Hit).
  destruct (lookup_lt_is_Some_2 l k Hk) as [i Hi]. rewrite Hi.
  erewrite bind_ok by (apply get_molecule_ok, Hs).
  erewrite bind_ok by (apply get_list_ok; rewrite Heq; exact Hit).
  erewrite bind_ok by reflexivity.
  apply (IH (S k) _ (l ++ [i])); cbn.
  - exact Hs.
  - rewrite Heq. apply lookup_insert_eq.
  - rewrite length_app. cbn. lia.
Qed.

(** C10, as amended: when the atom lists of [m1] and [m2] are distinct
    list objects, [m1 + m2] ends normally with the value [None]; the
    atom list of [m1] is then its former content followed by the atom
    objects of [m2] in their order, and nothing else in the store (the
    atom list of [m2], the atoms, the molecule objects) has changed. *)
Theorem Molecule_add_distinct (st : store) (self other : loc) (s o : Molecule)
    (l1 l2 : list loc) (fuel : nat) :
  molecule_objs st !! self = Some s →
  molecule_objs st !! other = Some o →
  list_objs st !! atoms s = Some l1 →
  list_objs st !! atoms o = Some l2 →
  atoms s ≠ atoms o →
  length l2 < fuel →
  let st' := {| atom_objs := atom_objs st;
                list_objs := <[atoms s := l1 ++ l2]> (list_objs st);
                molecule_objs := molecule_objs st |} in
  Molecule.__add__ fuel self other st = (Ok None, st')
  ∧ list_objs st' !! atoms s = Some (l1 ++ l2)
  ∧ list_objs st' !! atoms o = Some l2.
Proof.
  intros Hs Ho Hl1 Hl2 Hne Hfuel st'. split; [|split].
  - unfold Molecule.__add__. erewrite bind_ok by (apply get_molecule_ok, Ho).
    erewrite bind_ok.
    2: { apply (add_loop_distinct self (atoms o) s l2 fuel Hne 0 st l1);
         [exact Hs | exact Hl2 | exact Hl1 | lia]. }
    reflexivity.
  - apply lookup_insert_eq.
  - cbn. rewrite lookup_insert_ne by exact Hne. exact Hl2.
Qed.

Lemma Molecule_add_distinct_witness :
  Molecule.__add__ 2 21%positive 20%positive two_molecules
  = (Ok None,
     {| atom_objs := atom_objs two_molecules;
        list_objs := <[11%positive := [] ++ [1%positive]]> (list_objs two_molecules);
        molecule_objs := molecule_objs two_molecules |}).
Proof.
  refine (proj1 (Molecule_add_distinct two_molecules 21%positive 20%positive
            {| atoms := 11%positive; molecular_formula := None;
               connectivity_graph := None |}
            {| atoms := 10%positive; molecular_formula := None;
               connectivity_graph := None |}
            [] [1%positive] 2 _ _ _ _ _ _)).
  - reflexivity.
  - reflexivity.
  - reflexivity.
  - reflexivity.
  - discriminate.
  - simpl. lia.
Defined.

(** C10, as stated: for a molecule with one atom, [m + m] iterates the
    list it appends to and never ends, so the claim fails for the pair
    (m, m). *)
Lemma Molecule_add_self_counterexample :
  ¬ add_appends two_molecules 20%positive 20%positive.
Proof.
  intros (o1 & o2 & l1 & l2 & fuel & st' & H1 & _ & _ & _ & Hadd & _).
  assert (Hdiv : (Molecule.__add__ fuel 20%positive 20%positive two_molecules).1
                 = OutOfFuel).
  { unfold Molecule.__add__.
    erewrite bind_ok by (apply get_molecule_ok; reflexivity).
    assert (Hloop : (add_loop fuel 20%positive 10%positive 0 two_molecules).1 = OutOfFuel).
    { apply (add_loop_aliased 20%positive 10%positive
               {| atoms := 10%positive; molecular_formula := None;
                  connectivity_graph := None |} fuel eq_refl 0
               two_molecules [1%positive]).
      - reflexivity.
      - reflexivity.
      - simpl. lia. }
    destruct (add_loop fuel 20%positive 10%positive 0 two_molecules) as [r st1] eqn:E.
    cbn in Hloop. subst r.
    erewrite bind_out_of_fuel by exact E. reflexivity. }
  rewrite Hadd in Hdiv. discriminate.
Qed.

(** *** Internal-coordinate edits *)

Lemma graph_of_cases (st : store) (self : loc) :
  (∃ g, graph_of self st = (Ok g, st)) ∨ (∃ e, graph_of self st = (Raise e, st)).
Proof.
  unfold graph_of, mbind, M_bind, get_molecule.
  destruct (molecule_objs st !! self) as [m|]; [|right; eauto].
  destruct (connectivity_graph m); [left|right]; eauto.
Qed.

(** On every store, molecule, bond, [delta] and bound, [change_bond]
    does not end normally and leaves the store as it was. *)
Lemma change_bond_never_completes (fuel : nat) (self : loc) (bond : Z * Z)
    (delta : R) (st : store) :
  ∃ r, Molecule.change_bond fuel self bond delta st = (r, st) ∧ ∀ u, r ≠ Ok u.
Proof.
  unfold Molecule.change_bond.
  destruct (graph_of_cases st self) as [[g Hg] | [e Hg]].
  - erewrite bind_ok by exact Hg.
    destruct (ConnectivityGraph.flood_fill_search fuel g bond.1 (PyInt bond.2))
      as [r| e|] eqn:Hf.
    + by apply flood_fill_search_int in Hf.
    + erewrite bind_raise by reflexivity.
      eexists. split; [reflexivity | discriminate].
    + erewrite bind_out_of_fuel by reflexivity.
      eexists. split; [reflexivity | discriminate].
  - erewrite bind_raise by exact Hg.
    eexists. split; [reflexivity | discriminate].
Qed.

(** The same for [change_angle]. *)
Lemma change_angle_never_completes (fuel : nat) (self : loc) (angle : Z * Z * Z)
    (delta : R) (st : store) :
  ∃ r, Molecule.change_angle fuel self angle delta st = (r, st) ∧ ∀ u, r ≠ Ok u.
Proof.
  destruct angle as [[i pivot] k]. unfold Molecule.change_angle.
  destruct (graph_of_cases st self) as [[g Hg] | [e Hg]].
  - erewrite bind_ok by exact Hg.
    destruct (ConnectivityGraph.flood_fill_search fuel g i (PyInt pivot))
      as [r| e|] eqn:Hf.
    + by apply flood_fill_search_int in Hf.
    + erewrite bind_raise by reflexivity.
      eexists. split; [reflexivity | discriminate].
    + erewrite bind_out_of_fuel by reflexivity.
      eexists. split; [reflexivity | discriminate].
  - erewrite bind_raise by exact Hg.
    eexists. split; [reflexivity | discriminate].
Qed.

(** C1: on the acyclic chain 0 - 1 - 2 with its connectivity graph,
    [change_bond((0, 1), delta)] ends in a [TypeError] (the test
    [i not in excluded] with the integer [bond[1]] for [excluded]) before
    any atom is touched: the store, hence the distance between atoms 0 and
    1, is as before the call, whatever [delta] is. *)
Theorem change_bond_chain_raises (fuel : nat) (delta : R) :
  Molecule.change_bond (S fuel) 20%positive (0, 1)%Z delta chain_molecule
  = (Raise TypeError, chain_molecule).
Proof. reflexivity. Qed.

(** On the ring 0 - 1 - 2 - 3 - 0, [change_bond((0, 1), delta)] and
    [change_angle((0, 1, 2), delta)] both end in a [TypeError] before any
    atom is touched. *)
Theorem ring_edits_raise (fuel : nat) (delta : R) :
  Molecule.change_bond (S fuel) 20%positive (0, 1)%Z delta ring_molecule
  = (Raise TypeError, ring_molecule)
  ∧ Molecule.change_angle (S fuel) 20%positive (0, 1, 2)%Z delta ring_molecule
    = (Raise TypeError, ring_molecule).
Proof. split; reflexivity. Qed.

(** C3: an internal-coordinate edit leaves every atom that does not define
    the coordinate where it was.  For every store (hence every molecule,
    those with cross-linked fragments among them), every bond or angle and
    every [delta], each atom object has after [change_bond] and after
    [change_angle] exactly the coordinates (and symbol and weight) it had
    before the call, however the call ends: no atom other than the defining
    ones is moved.  (Neither are the defining ones: the calls do not end
    normally.) *)
Theorem edits_move_no_other_atom (fuel : nat) (self : loc) (bond : Z * Z)
    (angle : Z * Z * Z) (delta : R) (st : store) (a : loc) :
  atom_objs (Molecule.change_bond fuel self bond delta st).2 !! a = atom_objs st !! a
  ∧ atom_objs (Molecule.change_angle fuel self angle delta st).2 !! a
    = atom_objs st !! a.
Proof.
  destruct (change_bond_never_completes fuel self bond delta st) as (r & -> & _).
  destruct (change_angle_never_completes fuel self angle delta st) as (r' & -> & _).
  split; reflexivity.
Qed.

(** ** Further properties of the Vector transforms *)

Lemma broadcast_same (op : R → R → R) (a b : list R) :
  length a = length b → broadcast op a b = Ok (zip_with op a b).
Proof. intros H. unfold broadcast. by rewrite bool_decide_true. Qed.

Lemma broadcast_inplace_same (op : R → R → R) (a b : list R) :
  length a = length b → broadcast_inplace op a b = Ok (zip_with op a b).
Proof. intros H. unfold broadcast_inplace. by rewrite bool_decide_true. Qed.

(** The coordinates [invert] leaves. *)
Lemma invert_same_shape (c x : list R) :
  length c = length x →
  Vector.invert c x = Ok (zip_with (λ ci xi, ci + 2 * (xi - ci))%R c x).
Proof.
  intros H. unfold Vector.invert.
  rewrite broadcast_same by done. cbn [mbind res_bind].
  rewrite broadcast_inplace_same by (by rewrite length_fmap, length_zip_with; lia).
  f_equal. revert x H. induction c as [|ci c IH]; intros [|xi x] H; try done.
  cbn. f_equal. apply IH. by injection H.
Qed.

(** X1: for a centre of the shape of the coordinates, [invert] replaces
    every component [c] by [c + 2 * (x - c)], the point reflection through
    the centre [x]; inverting again through the same centre gives the
    first coordinates back, and the centre itself is left where it is. *)
Theorem invert_is_involution (c x : list R) :
  length c = length x →
  ∃ c', Vector.invert c x = Ok c'
        ∧ c' = zip_with (λ ci xi, ci + 2 * (xi - ci))%R c x
        ∧ Vector.invert c' x = Ok c
        ∧ Vector.invert x x = Ok x.
Proof.
  intros H. eexists. split; [by apply invert_same_shape|]. split; [reflexivity|]. split.
  - rewrite invert_same_shape by (by rewrite length_zip_with; lia).
    f_equal. revert x H. induction c as [|ci c IH]; intros [|xi x] H; try done.
    cbn. f_equal; [lra|]. apply IH. by injection H.
  - rewrite invert_same_shape by done. f_equal.
    clear. induction x as [|xi x IH]; [done|]. cbn. f_equal; [lra | exact IH].
Qed.

Lemma invert_is_involution_witness :
  ∃ c', Vector.invert [1; 2; 3]%R [0; 0; 1]%R = Ok c'
        ∧ c' = zip_with (λ ci xi, ci + 2 * (xi - ci))%R [1; 2; 3]%R [0; 0; 1]%R
        ∧ Vector.invert c' [0; 0; 1]%R = Ok [1; 2; 3]%R
        ∧ Vector.invert [0; 0; 1]%R [0; 0; 1]%R = Ok [0; 0; 1]%R.
Proof. apply (invert_is_involution [1; 2; 3]%R [0; 0; 1]%R). reflexivity. Defined.

(** [mirror] on three components, whatever the plane. *)
Lemma mirror_three_components (x0 x1 x2 : R) (normal point : list R) :
  Vector.mirror [x0; x1; x2] normal point = Raise IndexError.
Proof.
  unfold Vector.mirror.
  destruct (getitem_cases normal 0) as [-> | [a ->]]; [reflexivity|].
  destruct (getitem_cases normal 1) as [-> | [b ->]]; [reflexivity|].
  destruct (getitem_cases normal 2) as [-> | [c ->]]; [reflexivity|].
  destruct (getitem_cases point 0) as [-> | [p0 ->]]; [reflexivity|].
  destruct (getitem_cases point 1) as [-> | [p1 ->]]; [reflexivity|].
  destruct (getitem_cases point 2) as [-> | [p2 ->]]; [reflexivity|].
  reflexivity.
Qed.

(** X2: on three-component coordinates, [xyz_mirror] ends in an
    [IndexError] for each of the six plane names it knows and returns with
    the coordinates untouched for every other name. *)
Theorem xyz_mirror_outcomes (x0 x1 x2 : R) (plane : string) (plane_point : list R) :
  Vector.xyz_mirror [x0; x1; x2] plane plane_point
  = if bool_decide (plane ∈ ["xy"; "ab"; "xz"; "ac"; "yz"; "bc"])
    then Raise IndexError else Ok [x0; x1; x2].
Proof.
  unfold Vector.xyz_mirror. rewrite !mirror_three_components.
  destruct (bool_decide (plane ∈ ["xy"; "ab"; "xz"; "ac"; "yz"; "bc"])) eqn:E.
  - apply bool_decide_eq_true in E. rewrite !elem_of_cons, elem_of_nil in E.
    repeat case_bool_decide; try reflexivity. tauto.
  - apply bool_decide_eq_false in E. rewrite !elem_of_cons, elem_of_nil in E.
    repeat case_bool_decide; try reflexivity; tauto.
Qed.

Lemma deg2rad_0 : deg2rad 0 = 0%R.
Proof. unfold deg2rad. lra. Qed.

(** For the angle 0 the matrix of [rotate] is the identity. *)
Lemma rotation_matrix_zero_angle (a0 a1 a2 : R) :
  rotation_matrix 0 [a0; a1; a2] = Ok identity3.
Proof.
  unfold rotation_matrix. cbn [fmap list_fmap].
  rewrite getitem_3_0, getitem_3_1, getitem_3_2. cbn [mbind res_bind].
  rewrite deg2rad_0, cos_0, sin_0. unfold identity3. repeat f_equal; ring.
Qed.

Lemma rotation_matrix_entries (angle a0 a1 a2 : R) :
  ∃ m00 m01 m02 m10 m11 m12 m20 m21 m22,
    rotation_matrix angle [a0; a1; a2]
    = Ok [[m00; m01; m02]; [m10; m11; m12]; [m20; m21; m22]].
Proof.
  unfold rotation_matrix. cbn [fmap list_fmap].
  rewrite getitem_3_0, getitem_3_1, getitem_3_2. cbn [mbind res_bind].
  repeat eexists.
Qed.

(** X3: in real arithmetic, a rotation by 0 degrees about an axis of
    non-zero norm leaves three-component coordinates as they are, wherever
    the axis passes.  (In binary64 the norm of an axis with components
    below about 1e-154 is computed as 0.0 and the coordinates become NaN.) *)
Theorem rotate_zero_angle (x0 x1 x2 a0 a1 a2 p0 p1 p2 : R) :
  np_norm [a0; a1; a2] ≠ 0%R →
  Vector.rotate [x0; x1; x2] 0 [a0; a1; a2] (ArgArray [p0; p1; p2])
  = Ok [x0; x1; x2].
Proof.
  intros _. unfold Vector.rotate, sub_point.
  rewrite broadcast_same by reflexivity. cbn [mbind res_bind].
  rewrite rotation_matrix_zero_angle. cbn [mbind res_bind zip_with].
  unfold identity3, matmul_vec. cbn [mbind res_bind].
  rewrite broadcast_same by reflexivity. cbn [mbind res_bind zip_with].
  rewrite broadcast_inplace_same by reflexivity. cbn [zip_with].
  repeat f_equal; ring.
Qed.

Lemma np_norm_unit_z : np_norm [0; 0; 1]%R = 1%R.
Proof.
  unfold np_norm. cbn.
  replace (0 * 0 + (0 * 0 + (1 * 1 + 0)))%R with 1%R by lra.
  apply sqrt_1.
Qed.

Lemma rotate_zero_angle_witness :
  Vector.rotate [1; 2; 3]%R 0 [0; 0; 1]%R (ArgArray [0; 0; 0]%R) = Ok [1; 2; 3]%R.
Proof.
  apply (rotate_zero_angle 1 2 3 0 0 1 0 0 0).
  rewrite np_norm_unit_z. lra.
Defined.

(** X4: in real arithmetic, whatever the angle and the axis of non-zero
    norm, [rotate] leaves the point the axis passes through where it is.
    (In binary64 this needs the matrix to have finite entries: a finite
    angle and an axis whose computed norm is not 0.0.) *)
Theorem rotate_fixes_axis_point (angle a0 a1 a2 p0 p1 p2 : R) :
  np_norm [a0; a1; a2] ≠ 0%R →
  Vector.rotate [p0; p1; p2] angle [a0; a1; a2] (ArgArray [p0; p1; p2])
  = Ok [p0; p1; p2].
Proof.
  intros _. unfold Vector.rotate, sub_point.
  rewrite broadcast_same by reflexivity. cbn [mbind res_bind].
  destruct (rotation_matrix_entries angle a0 a1 a2)
    as (m00 & m01 & m02 & m10 & m11 & m12 & m20 & m21 & m22 & ->).
  cbn [mbind res_bind zip_with]. unfold matmul_vec. cbn [mbind res_bind].
  rewrite broadcast_same by reflexivity. cbn [mbind res_bind zip_with].
  rewrite broadcast_inplace_same by reflexivity. cbn [zip_with].
  repeat f_equal; ring.
Qed.

Lemma rotate_fixes_axis_point_witness :
  Vector.rotate [1; 2; 3]%R 90 [0; 0; 1]%R (ArgArray [1; 2; 3]%R) = Ok [1; 2; 3]%R.
Proof.
  apply (rotate_fixes_axis_point 90 0 0 1 1 2 3).
  rewrite np_norm_unit_z. lra.
Defined.

(** When [rotate] returns, the coordinates it leaves have three
    components. *)
Lemma rotate_three_components (coord : list R) (angle : R) (axis_vector : list R)
    (axis_point : point_arg) (c : list R) :
  Vector.rotate coord angle axis_vector axis_point = Ok c →
  ∃ y0 y1 y2, c = [y0; y1; y2].
Proof.
  unfold Vector.rotate. intros H.
  destruct (sub_point coord axis_point) as [d| |]; try discriminate.
  cbn [mbind res_bind] in H.
  destruct (rotation_matrix angle axis_vector) as [m| |]; try discriminate.
  cbn [mbind res_bind] in H.
  destruct (matmul_vec d m) as [r| |] eqn:Hr; try discriminate.
  cbn [mbind res_bind] in H.
  unfold matmul_vec in Hr.
  destruct d as [|d0 [|d1 [|d2 [|]]]]; try discriminate.
  destruct m as [|[|m00 [|m01 [|m02 [|]]]] [|[|m10 [|m11 [|m12 [|]]]]
                 [|[|m20 [|m21 [|m22 [|]]]] [|]]]]; try discriminate.
  injection Hr as <-.
  rewrite broadcast_same in H by reflexivity. cbn [mbind res_bind zip_with] in H.
  unfold broadcast_inplace in H. case_bool_decide as Hlen; [|discriminate].
  destruct coord as [|c0 [|c1 [|c2 [|]]]]; try discriminate.
  injection H as <-. cbn. eauto.
Qed.

(** X5: [improper_rotate] never ends normally: whenever its rotation
    succeeds, the mirror step that follows ends in an [IndexError], and the
    object is left with the rotated coordinates; when the rotation raises,
    [improper_rotate] ends in the same exception and the coordinates are
    unchanged. *)
Theorem improper_rotate_never_completes (coord : list R) (angle : R)
    (axis_vector point : list R) :
  (∀ u, (Vector.improper_rotate coord angle axis_vector point).1 ≠ Ok u)
  ∧ (∀ c, Vector.rotate coord angle axis_vector (ArgArray point) = Ok c →
          Vector.improper_rotate coord angle axis_vector point = (Raise IndexError, c))
  ∧ (∀ e, Vector.rotate coord angle axis_vector (ArgArray point) = Raise e →
          Vector.improper_rotate coord angle axis_vector point = (Raise e, coord)).
Proof.
  unfold Vector.improper_rotate, Vector.two_steps, Vector.second_step.
  destruct (Vector.rotate coord angle axis_vector (ArgArray point)) as [c|e|] eqn:Hr.
  - destruct (rotate_three_components _ _ _ _ _ Hr) as (y0 & y1 & y2 & ->).
    rewrite mirror_three_components. split; [discriminate|]. split.
    + intros c [= <-]. reflexivity.
    + discriminate.
  - split; [discriminate|]. split; [discriminate|]. intros e' [= <-]. reflexivity.
  - split; [discriminate|]. split; discriminate.
Qed.

(** X6: in real arithmetic, with the angle 0 and an axis of non-zero
    norm, [screw_axis] on three-component coordinates is the translation by
    [translation_vector].  (In binary64 an axis whose norm is computed as
    0.0 gives NaN coordinates instead.) *)
Theorem screw_axis_zero_angle (x0 x1 x2 a0 a1 a2 p0 p1 p2 t0 t1 t2 : R) :
  np_norm [a0; a1; a2] ≠ 0%R →
  Vector.screw_axis [x0; x1; x2] 0 [a0; a1; a2] [p0; p1; p2] [t0; t1; t2]
  = (Ok tt, [x0 + t0; x1 + t1; x2 + t2]%R).
Proof.
  intros _. unfold Vector.screw_axis, Vector.two_steps, Vector.second_step.
  assert (H : Vector.rotate [x0; x1; x2] 0 [a0; a1; a2] (ArgArray [p0; p1; p2])
              = Ok [x0; x1; x2]).
  { unfold Vector.rotate, sub_point.
    rewrite broadcast_same by reflexivity. cbn [mbind res_bind].
    rewrite rotation_matrix_zero_angle. cbn [mbind res_bind zip_with].
    unfold identity3, matmul_vec. cbn [mbind res_bind].
    rewrite broadcast_same by reflexivity. cbn [mbind res_bind zip_with].
    rewrite broadcast_inplace_same by reflexivity. cbn [zip_with].
    repeat f_equal; ring. }
  rewrite H. rewrite broadcast_inplace_same by reflexivity. reflexivity.
Qed.

Lemma screw_axis_zero_angle_witness :
  Vector.screw_axis [1; 2; 3]%R 0 [0; 0; 1]%R [0; 0; 0]%R [0; 0; 5]%R
  = (Ok tt, [1 + 0; 2 + 0; 3 + 5]%R).
Proof.
  apply (screw_axis_zero_angle 1 2 3 0 0 1 0 0 0 0 0 5).
  rewrite np_norm_unit_z. lra.
Defined.

(** X7: on three-component coordinates [glide_plane] ends in the
    [IndexError] of its mirror step, before the translation, and the
    coordinates are as before the call. *)
Theorem glide_plane_never_completes (x0 x1 x2 : R)
    (normal point translation_vector : list R) :
  Vector.glide_plane [x0; x1; x2] normal point translation_vector
  = (Raise IndexError, [x0; x1; x2]).
Proof.
  unfold Vector.glide_plane, Vector.two_steps.
  by rewrite mirror_three_components.
Qed.

(** The sum of squares under [np_norm] does not see the order of a
    subtraction. *)
Lemma squares_zip_sym (a b : list R) :
  foldr Rplus 0%R ((λ x, x * x)%R <$> zip_with Rminus a b)
  = foldr Rplus 0%R ((λ x, x * x)%R <$> zip_with Rminus b a).
Proof.
  revert b. induction a as [|x a IH]; intros [|y b]; try reflexivity.
  cbn. rewrite IH. ring.
Qed.

Lemma squares_fmap_sym (a : list R) (y : R) :
  foldr Rplus 0%R ((λ x, x * x)%R <$> ((λ x, x - y)%R <$> a))
  = foldr Rplus 0%R ((λ x, x * x)%R <$> (Rminus y <$> a)).
Proof. induction a as [|x a IH]; [reflexivity|]. cbn. rewrite IH. ring. Qed.

Lemma squares_self (a : list R) :
  foldr Rplus 0%R ((λ x, x * x)%R <$> zip_with Rminus a a) = 0%R.
Proof. induction a as [|x a IH]; [reflexivity|]. cbn. rewrite IH. ring. Qed.

(** X8: [distance] does not depend on which of the two vectors it is
    called on, whatever their shapes: the two calls return the same number,
    or both raise the same exception when the shapes cannot be broadcast. *)
Theorem distance_symmetric (a b : list R) :
  Vector.distance a b = Vector.distance b a.
Proof.
  unfold Vector.distance, broadcast.
  destruct (decide (length a = length b)) as [H|H].
  - rewrite !bool_decide_true by done. cbn. unfold np_norm.
    by rewrite squares_zip_sym.
  - rewrite !bool_decide_false by done.
    destruct a as [|x [|x' a]], b as [|y [|y' b]]; try done;
      cbn [mbind res_bind]; try reflexivity; unfold np_norm; do 2 f_equal;
      first [ apply squares_fmap_sym | symmetry; apply squares_fmap_sym ].
Qed.

(** The largest absolute component is at most the Euclidean norm. *)
Lemma max_abs_le_norm (d0 d1 d2 : R) :
  (Rmax (Rabs d0) (Rmax (Rabs d1) (Rabs d2)) <= np_norm [d0; d1; d2])%R.
Proof.
  unfold np_norm. cbn.
  assert (H : ∀ d s, (d * d <= s)%R → (Rabs d <= sqrt s)%R).
  { intros d s Hs. rewrite <- sqrt_Rsqr_abs. apply sqrt_le_1_alt. exact Hs. }
  pose proof (Rle_0_sqr d0). pose proof (Rle_0_sqr d1). pose proof (Rle_0_sqr d2).
  unfold Rsqr in *.
  repeat apply Rmax_lub; apply H; lra.
Qed.

(** X9: for two vectors of three components, [distance_rough] returns
    the largest absolute difference of two components, which in real
    arithmetic is never more than what [distance] returns.  (In binary64
    the squares of differences below about 1e-154 underflow and the
    computed norm can be the smaller of the two.) *)
Theorem distance_rough_below_distance (x0 x1 x2 y0 y1 y2 : R) :
  ∃ r d,
    Vector.distance_rough [x0; x1; x2] [y0; y1; y2] = Ok r
    ∧ Vector.distance [x0; x1; x2] [y0; y1; y2] = Ok d
    ∧ r = Rmax (Rabs (x0 - y0)) (Rmax (Rabs (x1 - y1)) (Rabs (x2 - y2)))
    ∧ (r <= d)%R.
Proof.
  eexists _, _. split; [reflexivity|]. split; [reflexivity|]. split; [reflexivity|].
  apply max_abs_le_norm.
Qed.

(** ** Further properties of Atom *)

(** X10: [Atom.__init__] never stores its argument: the object it leaves
    has the empty symbol, weight 0 and the origin for coordinates. With no
    argument (the empty string) it ends normally; with any other symbol,
    the valid ones included, it ends in the error reporter's exception,
    the empty symbol having no entry in [element_weight]. *)
Theorem Atom_init_drops_symbol (st : store) (self : loc) (symbol : string) :
  Atom.__init__ self symbol st
  = (if bool_decide (symbol = EmptyString) then Ok tt
     else Raise (FatalError "Unrecognized  atom encountered!"),
     {| atom_objs := <[self := mkAtom EmptyString 0%R [0; 0; 0]%R]> (atom_objs st);
        list_objs := list_objs st;
        molecule_objs := molecule_objs st |}).
Proof.
  unfold Atom.__init__. erewrite bind_ok by reflexivity.
  case_bool_decide as H.
  - rewrite bool_decide_false by done.
    unfold Atom.assign_weight.
    erewrite bind_ok by (apply get_atom_ok; cbn; apply lookup_insert_eq).
    reflexivity.
  - rewrite bool_decide_true by (by destruct (decide (symbol = EmptyString))).
    reflexivity.
Qed.

(** X11: on every pair of operands and in every store, [a != b] is the
    negation of [a == b]: both raise the same exception or return opposite
    booleans, and neither changes the store. *)
Theorem Atom_ne_negates_eq (st : store) (self : loc) (other : operand) :
  Atom.__ne__ self other st
  = (res_negb (Atom.__eq__ self other st).1, st)
  ∧ (Atom.__eq__ self other st).2 = st.
Proof.
  unfold Atom.__ne__, Atom.__eq__, mbind, M_bind, get_atom.
  destruct (atom_objs st !! self) as [a|]; [|done].
  destruct other as [l|s]; cbn; [|done].
  unfold atom_coord, mbind, M_bind, get_atom.
  destruct (atom_objs st !! l) as [b|]; [|done]. cbn.
  destruct (broadcast Rminus (coord a) (coord b)) as [d| |]; cbn; try done.
  destruct (Rlt_dec (np_norm d) 0.001); cbn; [|done].
  unfold get_atom. destruct (atom_objs st !! l); [|done]. cbn.
  by case_bool_decide.
Qed.

(** The norm of a difference, in either order. *)
Lemma norm_difference_sym (a b : list R) :
  match broadcast Rminus a b, broadcast Rminus b a with
  | Ok d, Ok d' => np_norm d = np_norm d'
  | Raise e, Raise e' => e = e'
  | _, _ => False
  end.
Proof.
  unfold broadcast. destruct (decide (length a = length b)) as [H|H].
  - rewrite !bool_decide_true by done. unfold np_norm. by rewrite squares_zip_sym.
  - rewrite !bool_decide_false by done.
    destruct a as [|x [|x' a]], b as [|y [|y' b]]; try done;
      unfold np_norm; f_equal;
      first [ apply squares_fmap_sym | symmetry; apply squares_fmap_sym ].
Qed.

(** X12: [==] between two atoms of a store does not depend on the order
    of its operands: [a == b] and [b == a] return the same boolean or raise
    the same exception. *)
Theorem Atom_eq_symmetric (st : store) (a b : loc) :
  Atom.__eq__ a (AtomRef b) st = Atom.__eq__ b (AtomRef a) st.
Proof.
  unfold Atom.__eq__, operand_coord, operand_symbol, atom_coord, mbind, M_bind, get_atom.
  destruct (atom_objs st !! a) as [x|] eqn:Ha, (atom_objs st !! b) as [y|] eqn:Hb;
    cbn; rewrite ?Ha, ?Hb; cbn; try reflexivity.
  pose proof (norm_difference_sym (coord x) (coord y)) as H.
  destruct (broadcast Rminus (coord x) (coord y)) as [d| |],
           (broadcast Rminus (coord y) (coord x)) as [d'| |]; try done; cbn.
  - rewrite H. destruct (Rlt_dec (np_norm d') 0.001); cbn; [|reflexivity].
    rewrite ?Ha, ?Hb. cbn. f_equal. f_equal. apply bool_decide_ext. split; congruence.
  - by subst.
Qed.

(** X13: an atom of the store with finite coordinates (no NaN or inf
    component, as every coordinate of the model is) is equal to itself,
    whatever the coordinates and the symbol: its distance to itself is
    exactly 0. *)
Theorem Atom_eq_reflexive (st : store) (a : loc) (x : Atom) :
  atom_objs st !! a = Some x →
  Atom.__eq__ a (AtomRef a) st = (Ok true, st).
Proof.
  intros Ha.
  unfold Atom.__eq__, operand_coord, operand_symbol, atom_coord, mbind, M_bind, get_atom.
  rewrite Ha. cbn. rewrite Ha. cbn.
  rewrite broadcast_same by done. cbn.
  assert (Hn : np_norm (zip_with Rminus (coord x) (coord x)) = 0%R).
  { unfold np_norm. rewrite squares_self. apply sqrt_0. }
  rewrite Hn. destruct (Rlt_dec 0 0.001) as [_|Hlt]; [|lra].
  cbn. rewrite Ha. cbn. by rewrite bool_decide_true.
Qed.

Lemma Atom_eq_reflexive_witness :
  Atom.__eq__ 1%positive (AtomRef 1%positive) carbon_store = (Ok true, carbon_store).
Proof. apply (Atom_eq_reflexive carbon_store 1%positive (atom "C" 0 0 0)). reflexivity. Defined.

(** The two distances on three components. *)
Lemma distance_rough_components (x0 x1 x2 y0 y1 y2 : R) :
  ∃ r d,
    Vector.distance_rough [x0; x1; x2] [y0; y1; y2] = Ok r
    ∧ Vector.distance [x0; x1; x2] [y0; y1; y2] = Ok d
    ∧ (r <= d)%R.
Proof.
  eexists _, _. split; [reflexivity|]. split; [reflexivity|]. apply max_abs_le_norm.
Qed.

(** What [connected] computes for two atoms of the store. *)
Lemma connected_atoms (st : store) (a b : loc) (x y : Atom) (simplified : bool)
    (cutoff : R) :
  atom_objs st !! a = Some x → atom_objs st !! b = Some y →
  Atom.connected a b simplified cutoff st
  = match (if simplified then Vector.distance_rough (coord x) (coord y)
           else Vector.distance (coord x) (coord y)) with
    | Ok d => (Ok (if Rle_dec d cutoff then true else false), st)
    | Raise e => (Raise e, st)
    | OutOfFuel => (OutOfFuel, st)
    end.
Proof.
  intros Ha Hb. unfold Atom.connected, atom_coord.
  erewrite bind_ok by (erewrite bind_ok by (apply get_atom_ok, Ha); reflexivity).
  erewrite bind_ok by (erewrite bind_ok by (apply get_atom_ok, Hb); reflexivity).
  unfold mbind, M_bind, lift.
  destruct (if simplified then _ else _) as [d| |]; try reflexivity.
  by destruct (Rle_dec d cutoff).
Qed.

(** X14: in real arithmetic, for two atoms with three-component
    coordinates, whenever [connected] answers [True] with the Euclidean
    distance ([simplified=False]), it answers [True] with the rough
    distance ([simplified=True]) and the same cutoff.  (In binary64 the
    Euclidean distance of two atoms less than about 1e-154 apart is
    computed as 0.0 and the implication can fail for a cutoff below their
    rough distance.) *)
Theorem connected_exact_implies_rough (st : store) (a b : loc) (s s' : string)
    (w w' x0 x1 x2 y0 y1 y2 cutoff : R) :
  atom_objs st !! a = Some (mkAtom s w [x0; x1; x2]) →
  atom_objs st !! b = Some (mkAtom s' w' [y0; y1; y2]) →
  Atom.connected a b false cutoff st = (Ok true, st) →
  Atom.connected a b true cutoff st = (Ok true, st).
Proof.
  intros Ha Hb. rewrite !(connected_atoms _ _ _ _ _ _ _ Ha Hb). cbn [coord].
  destruct (distance_rough_components x0 x1 x2 y0 y1 y2) as (r & d & -> & -> & Hle).
  destruct (Rle_dec d cutoff) as [Hd|]; [|discriminate]. intros _.
  destruct (Rle_dec r cutoff) as [|Hr]; [reflexivity|]. lra.
Qed.

Lemma distance_self (c : list R) : Vector.distance c c = Ok 0%R.
Proof.
  unfold Vector.distance. rewrite broadcast_same by done. cbn. unfold np_norm.
  rewrite squares_self. by rewrite sqrt_0.
Qed.

Lemma connected_self_exact (st : store) (a : loc) (x : Atom) (cutoff : R) :
  atom_objs st !! a = Some x → (0 <= cutoff)%R →
  Atom.connected a a false cutoff st = (Ok true, st).
Proof.
  intros Ha Hc. rewrite (connected_atoms _ _ _ _ _ _ _ Ha Ha), distance_self.
  by destruct (Rle_dec 0 cutoff).
Qed.

(** Bounds on a norm from bounds on the sum of squares. *)
Lemma np_norm_le (a : list R) (c : R) :
  (0 <= c)%R → (foldr Rplus 0 ((λ x, x * x) <$> a) <= c * c)%R → (np_norm a <= c)%R.
Proof.
  intros Hc H. unfold np_norm. rewrite <- (sqrt_square c) by exact Hc.
  by apply sqrt_le_1_alt.
Qed.

Lemma np_norm_gt (a : list R) (c : R) :
  (0 <= c)%R → (c * c < foldr Rplus 0 ((λ x, x * x) <$> a))%R → (c < np_norm a)%R.
Proof.
  intros Hc H. unfold np_norm. rewrite <- (sqrt_square c) at 1 by exact Hc.
  apply sqrt_lt_1_alt. split; [nra | exact H].
Qed.

(** The first two atoms of [contacts], 0.01 apart, are connected. *)
Lemma contacts_connected :
  Atom.connected 1%positive 2%positive false 0.025 contacts = (Ok true, contacts).
Proof.
  rewrite (connected_atoms contacts 1%positive 2%positive
             (atom "H" 0 0 0) (atom "H" 0.01 0 0) false 0.025 eq_refl eq_refl).
  cbn [coord atom]. unfold Vector.distance.
  rewrite broadcast_same by reflexivity. cbn [mbind res_bind zip_with].
  destruct (Rle_dec _ _) as [_|H]; [reflexivity|].
  destruct H. apply np_norm_le; [lra|]. cbn. lra.
Qed.

Lemma connected_exact_implies_rough_witness :
  Atom.connected 1%positive 2%positive true 0.025 contacts = (Ok true, contacts).
Proof.
  apply (connected_exact_implies_rough contacts 1%positive 2%positive "H" "H"
           0 0 0 0 0 0.01 0 0 0.025).
  - reflexivity.
  - reflexivity.
  - exact contacts_connected.
Defined.

(** X15: with a cutoff that is not negative, every atom with finite
    coordinates (no NaN or inf component, as every coordinate of the model
    is) is connected to itself, with the Euclidean distance whatever the
    coordinates and with the rough distance when they have three
    components: both distances are exactly 0. *)
Theorem connected_to_itself (st : store) (a : loc) (x : Atom) (cutoff : R) :
  atom_objs st !! a = Some x → (0 <= cutoff)%R →
  Atom.connected a a false cutoff st = (Ok true, st)
  ∧ (length (coord x) = 3 → Atom.connected a a true cutoff st = (Ok true, st)).
Proof.
  intros Ha Hc. split; [by apply (connected_self_exact st a x)|].
  intros Hlen. rewrite (connected_atoms _ _ _ _ _ _ _ Ha Ha).
  destruct (coord x) as [|x0 [|x1 [|x2 [|]]]]; try discriminate.
  unfold Vector.distance_rough. rewrite broadcast_same by done. cbn [mbind res_bind zip_with].
  rewrite getitem_3_0, getitem_3_1, getitem_3_2. cbn [mbind res_bind].
  replace (x0 - x0)%R with 0%R by lra. replace (x1 - x1)%R with 0%R by lra.
  replace (x2 - x2)%R with 0%R by lra.
  rewrite Rabs_R0, !(Rmax_left 0 0) by lra.
  by destruct (Rle_dec 0 cutoff).
Qed.

Lemma connected_to_itself_witness :
  Atom.connected 1%positive 1%positive false 0.025 carbon_store = (Ok true, carbon_store)
  ∧ (length [0; 0; 0]%R = 3 →
     Atom.connected 1%positive 1%positive true 0.025 carbon_store = (Ok true, carbon_store)).
Proof.
  apply (connected_to_itself carbon_store 1%positive (atom "C" 0 0 0) 0.025);
    [reflexivity | lra].
Defined.

(** ** Further properties of Molecule *)

(** On a molecule without atoms, [get_molecular_formula] returns the
    empty string and stores it. *)
Lemma get_molecular_formula_empty (st : store) (self : loc) (m : Molecule) :
  molecule_objs st !! self = Some m →
  list_objs st !! atoms m = Some [] →
  Molecule.get_molecular_formula self st
  = (Ok EmptyString,
     {| atom_objs := atom_objs st; list_objs := list_objs st;
        molecule_objs :=
          <[self := {| atoms := atoms m; molecular_formula := Some EmptyString;
                       connectivity_graph := connectivity_graph m |}]>
            (molecule_objs st) |}).
Proof.
  intros Hm Hl. unfold Molecule.get_molecular_formula.
  erewrite bind_ok by (apply get_molecule_ok, Hm).
  destruct (molecular_formula m) as [f|].
  - erewrite bind_ok by reflexivity.
    erewrite bind_ok by (apply get_list_ok, Hl).
    cbn [for_each sort_strings foldr zip_with].
    erewrite bind_ok by reflexivity. erewrite bind_ok by reflexivity.
    erewrite bind_ok by (apply get_molecule_ok, Hm).
    reflexivity.
  - erewrite bind_ok by reflexivity.
    erewrite bind_ok by (apply get_list_ok, Hl).
    cbn [for_each sort_strings foldr zip_with].
    erewrite bind_ok by reflexivity. erewrite bind_ok by reflexivity.
    erewrite bind_ok by (apply get_molecule_ok; cbn; apply lookup_insert_eq).
    erewrite bind_ok by reflexivity. cbn. by rewrite insert_insert_eq.
Qed.

(** On a molecule without atoms, the sum of [__eq__] and [__ne__] is 0
    and [other] is not read. *)
Lemma closest_sum_empty (st : store) (self other : loc) (m : Molecule) :
  molecule_objs st !! self = Some m →
  list_objs st !! atoms m = Some [] →
  closest_sum self other st = (Ok 0%R, st).
Proof.
  intros Hm Hl. unfold closest_sum.
  erewrite bind_ok by (apply get_molecule_ok, Hm).
  erewrite bind_ok by (apply get_list_ok, Hl).
  reflexivity.
Qed.

(** X16: a molecule without atoms compares equal to everything: whatever
    [other] is (it is never read), [self == other] returns [True] and
    [self != other] returns [False]; the only effect is that the empty
    formula is stored in [self]. *)
Theorem Molecule_eq_empty (st : store) (self other : loc) (m : Molecule) :
  molecule_objs st !! self = Some m →
  list_objs st !! atoms m = Some [] →
  let st' :=
    {| atom_objs := atom_objs st; list_objs := list_objs st;
       molecule_objs :=
         <[self := {| atoms := atoms m; molecular_formula := Some EmptyString;
                      connectivity_graph := connectivity_graph m |}]>
           (molecule_objs st) |} in
  Molecule.__eq__ self other st = (Ok true, st')
  ∧ Molecule.__ne__ self other st = (Ok (Some false), st').
Proof.
  intros Hm Hl st'.
  assert (Hm' : molecule_objs st' !! self
                = Some {| atoms := atoms m; molecular_formula := Some EmptyString;
                          connectivity_graph := connectivity_graph m |})
    by apply lookup_insert_eq.
  assert (Hf : Molecule.get_molecular_formula self st' = (Ok EmptyString, st')).
  { rewrite (get_molecular_formula_empty st' self _ Hm' Hl).
    unfold st'. cbn. by rewrite insert_insert_eq. }
  assert (Hsum : closest_sum self other st' = (Ok 0%R, st'))
    by exact (closest_sum_empty st' self other _ Hm' Hl).
  pose proof (get_molecular_formula_empty st self m Hm Hl) as Hf0. fold st' in Hf0.
  unfold Molecule.__eq__, Molecule.__ne__.
  split.
  - erewrite bind_ok by exact Hf0. erewrite bind_ok by exact Hf.
    rewrite bool_decide_false by (intros H; by apply H).
    erewrite bind_ok by exact Hsum.
    destruct (Rlt_dec 0 0.05) as [_|H]; [reflexivity | lra].
  - erewrite bind_ok by exact Hf0. erewrite bind_ok by exact Hf.
    rewrite bool_decide_false by (intros H; by apply H).
    erewrite bind_ok by exact Hsum.
    destruct (Rlt_dec 0 0.05) as [_|H]; [reflexivity | lra].
Qed.

Lemma Molecule_eq_empty_witness :
  let st' :=
    {| atom_objs := atom_objs two_molecules; list_objs := list_objs two_molecules;
       molecule_objs :=
         <[21%positive := {| atoms := 11%positive; molecular_formula := Some EmptyString;
                             connectivity_graph := None |}]>
           (molecule_objs two_molecules) |} in
  Molecule.__eq__ 21%positive 20%positive two_molecules = (Ok true, st')
  ∧ Molecule.__ne__ 21%positive 20%positive two_molecules = (Ok (Some false), st').
Proof.
  apply (Molecule_eq_empty two_molecules 21%positive 20%positive
           {| atoms := 11%positive; molecular_formula := None;
              connectivity_graph := None |}); reflexivity.
Defined.

(** On a molecule with atoms, [get_molecular_formula] ends in the
    [AttributeError] of the comparison of a symbol with an atom. *)
Lemma get_molecular_formula_outcome (st : store) (self : loc) (m : Molecule)
    (x : loc) (l : list loc) :
  molecule_objs st !! self = Some m →
  list_objs st !! atoms m = Some (x :: l) →
  Forall (λ y, is_Some (atom_objs st !! y)) (x :: l) →
  ∃ st1, Molecule.get_molecular_formula self st = (Raise AttributeError, st1).
Proof.
  intros Hm Hl Hat. unfold Molecule.get_molecular_formula.
  erewrite bind_ok by (apply get_molecule_ok, Hm).
  assert (∃ st1, match molecular_formula m with
                 | Some _ => mret tt
                 | None => set_molecule self
                     {| atoms := atoms m; molecular_formula := Some EmptyString;
                        connectivity_graph := connectivity_graph m |}
                 end st = (Ok tt, st1)
                 ∧ atom_objs st1 = atom_objs st ∧ list_objs st1 = list_objs st)
    as (st1 & Hst1 & Hsa & Hsl).
  { destruct (molecular_formula m); eexists; (split; [reflexivity|]); split; reflexivity. }
  erewrite bind_ok by exact Hst1.
  rewrite <- Hsa in Hat. rewrite <- Hsl in Hl.
  erewrite bind_ok by (apply get_list_ok, Hl).
  destruct (collect_symbols_ok st1 (x :: l) [] Hat) as (acc & Hacc & Hne).
  erewrite bind_ok by exact Hacc.
  assert (Hs : sort_strings acc ≠ []).
  { apply sort_strings_not_nil, Hne. right. discriminate. }
  destruct (sort_strings acc) as [|s rest]; [congruence|].
  exists st1.
  apply bind_raise. cbn [for_each].
  do 4 apply bind_raise.
  apply str_eq_atom_raises. by apply Forall_inv in Hat.
Qed.

(** X17: a molecule with at least one atom cannot be compared: whatever
    [other] is, the molecule itself included, [self == other] and
    [self != other] end in the [AttributeError] of
    [get_molecular_formula] and return no boolean. *)
Theorem Molecule_eq_raises (st : store) (self other : loc) (m : Molecule)
    (x : loc) (l : list loc) :
  molecule_objs st !! self = Some m →
  list_objs st !! atoms m = Some (x :: l) →
  Forall (λ y, is_Some (atom_objs st !! y)) (x :: l) →
  (Molecule.__eq__ self other st).1 = Raise AttributeError
  ∧ (Molecule.__ne__ self other st).1 = Raise AttributeError.
Proof.
  intros Hm Hl Hat.
  destruct (get_molecular_formula_outcome st self m x l Hm Hl Hat) as [st1 H].
  unfold Molecule.__eq__, Molecule.__ne__.
  erewrite !bind_raise by exact H. split; reflexivity.
Qed.

Lemma Molecule_eq_raises_witness :
  (Molecule.__eq__ 20%positive 20%positive ethylene).1 = Raise AttributeError
  ∧ (Molecule.__ne__ 20%positive 20%positive ethylene).1 = Raise AttributeError.
Proof.
  apply (Molecule_eq_raises ethylene 20%positive 20%positive
           {| atoms := 10%positive; molecular_formula := None;
              connectivity_graph := None |}
           1%positive [2; 3; 4; 5; 6]%positive).
  - reflexivity.
  - reflexivity.
  - repeat constructor; eexists; reflexivity.
Defined.

(** ** Further properties of the graph queries *)

Lemma norm_index_range (n : nat) (i : Z) (k : nat) :
  norm_index n i = Ok k → (- Z.of_nat n ≤ i < Z.of_nat n)%Z.
Proof.
  unfold norm_index. repeat case_bool_decide; try discriminate; intros _; lia.
Qed.

(** A pass of the first loop keeps the length of [inside] and writes
    nothing but 1. *)
Lemma mark_step_flags (g : ConnectivityGraph) (sp : Z) (excluded : pyobj) (i : Z)
    (inside inside' : list Z) :
  mark_step g sp excluded i inside = Ok inside' →
  length inside' = length inside
  ∧ (Forall (λ v, v = 0 ∨ v = 1)%Z inside → Forall (λ v, v = 0 ∨ v = 1)%Z inside').
Proof.
  unfold mark_step. destruct (linked g sp i) as [[|]| |]; try discriminate; cbn.
  - destruct (py_in i excluded) as [[|]| |]; try discriminate; cbn.
    + intros [= <-]. done.
    + unfold setitem. destruct (norm_index (length inside) i) as [k| |];
        try discriminate; cbn.
      intros [= <-]. split; [apply length_insert|].
      intros H. apply Forall_insert; [exact H | by right].
  - intros [= <-]. done.
Qed.

Lemma mark_neighbours_flags_kept (g : ConnectivityGraph) (sp : Z) (excluded : pyobj)
    (inside inside' : list Z) :
  mark_neighbours g sp excluded inside = Ok inside' →
  length inside' = length inside
  ∧ (Forall (λ v, v = 0 ∨ v = 1)%Z inside → Forall (λ v, v = 0 ∨ v = 1)%Z inside').
Proof.
  unfold mark_neighbours. generalize (range (size g)). intros l.
  revert inside. induction l as [|i l IH]; intros inside H.
  - injection H as <-. done.
  - cbn [for_each] in H.
    destruct (mark_step g sp excluded i inside) as [x| |] eqn:Hs; try discriminate.
    apply mark_step_flags in Hs as [Hlen Hfl].
    apply IH in H as [Hlen' Hfl']. split; [congruence | auto].
Qed.

(** The array the loop returns, when it returns: it has the length of
    [inside], its entries are flags when those of [inside] are, and the
    first start point indexes [checked]. *)
Lemma flood_fill_loop_shape (g : ConnectivityGraph) (excluded : pyobj) (fuel : nat) :
  ∀ (sp : Z) (inside checked r : list Z),
    flood_fill_loop fuel g excluded sp inside checked = Ok r →
    length r = length inside
    ∧ (- Z.of_nat (length checked) ≤ sp < Z.of_nat (length checked))%Z
    ∧ (Forall (λ v, v = 0 ∨ v = 1)%Z inside → Forall (λ v, v = 0 ∨ v = 1)%Z r).
Proof.
  induction fuel as [|fuel IH]; intros sp inside checked r H; [discriminate|].
  cbn [flood_fill_loop] in H. unfold flood_fill_step in H.
  destruct (mark_neighbours g sp excluded inside) as [inside'| |] eqn:Hm;
    try discriminate.
  apply mark_neighbours_flags_kept in Hm as [Hlen Hfl]. cbn in H.
  destruct (setitem checked sp 1%Z) as [checked'| |] eqn:Hset; try discriminate.
  unfold setitem in Hset.
  destruct (norm_index (length checked) sp) as [j| |] eqn:Hj; try discriminate.
  apply norm_index_range in Hj. cbn in H.
  destruct (survey g inside' checked' sp) as [[[cc ci] sp']| |]; try discriminate.
  cbn in H. destruct (bool_decide (ci = cc)); cbn in H.
  - injection H as <-. done.
  - apply IH in H as (Hr & _ & Hfl'). split; [congruence|]. split; [exact Hj | auto].
Qed.

(** X18: whenever [flood_fill_search] returns, with whatever argument
    for [excluded], the graph has at least one vertex, the start point is
    an index of it (negative ones counting from the end), and the array
    returned has one entry per vertex, each 0 or 1. *)
Theorem flood_fill_search_result_shape (fuel : nat) (g : ConnectivityGraph)
    (startpoint : Z) (excluded : pyobj) (r : list Z) :
  ConnectivityGraph.flood_fill_search fuel g startpoint excluded = Ok r →
  0 < size g
  ∧ (- Z.of_nat (size g) ≤ startpoint < Z.of_nat (size g))%Z
  ∧ length r = size g
  ∧ Forall (λ v, v = 0 ∨ v = 1)%Z r.
Proof.
  intros H. apply flood_fill_loop_shape in H as (Hlen & Hsp & Hfl).
  rewrite length_replicate in Hlen, Hsp.
  repeat split; try lia; try exact Hlen.
  apply Hfl, Forall_replicate. by left.
Qed.

Lemma flood_fill_search_result_shape_witness :
  0 < 2
  ∧ (- Z.of_nat 2 ≤ 0 < Z.of_nat 2)%Z
  ∧ length [1; 0]%Z = 2
  ∧ Forall (λ v, v = 0 ∨ v = 1)%Z [1; 0]%Z.
Proof.
  apply (flood_fill_search_result_shape 1 {| size := 2; nodes := [[1; 1]; [1; 1]]%Z |}
           0 (PyTuple [1%Z]) [1; 0]%Z).
  reflexivity.
Defined.

(** X19: on a graph whose matrix has the shape [size] x [size], from a
    start vertex of the graph and with a tuple for [excluded], the search
    returns exactly when the start vertex has one neighbour that is not
    excluded (itself counted when [nodes[s, s]] is set): it then returns
    after one pass with that neighbour as its only member; with no such
    neighbour, or with two or more, no number of passes of the
    [while True] loop reaches the [return]. *)
Theorem flood_fill_search_outcome (g : ConnectivityGraph) (excluded : list Z) (s : nat) :
  wf_graph g → s < size g →
  if bool_decide (neighbour_count g (Z.of_nat s) excluded = 1%Z) then
    ∀ fuel,
      ConnectivityGraph.flood_fill_search (S fuel) g (Z.of_nat s) (PyTuple excluded)
      = Ok (neighbour_flags g (Z.of_nat s) excluded)
  else
    ∀ fuel,
      ConnectivityGraph.flood_fill_search fuel g (Z.of_nat s) (PyTuple excluded)
      = OutOfFuel.
Proof.
  intros Hwf Hs. case_bool_decide as Hc; intros fuel.
  - by apply flood_fill_search_returns.
  - by apply flood_fill_search_diverges.
Qed.

Lemma flood_fill_search_outcome_witness :
  (∀ fuel,
     ConnectivityGraph.flood_fill_search (S fuel) chain3 0 (PyTuple [])
     = Ok [0; 1; 0]%Z)
  ∧ (∀ fuel,
       ConnectivityGraph.flood_fill_search fuel chain3 1 (PyTuple []) = OutOfFuel).
Proof.
  split.
  - apply (flood_fill_search_outcome chain3 [] 0); [by repeat constructor | cbn; lia].
  - apply (flood_fill_search_outcome chain3 [] 1); [by repeat constructor | cbn; lia].
Defined.

(** X20: [subsets_connected] starts at the pair of positions (0, 0): on a
    graph with [nodes[0, 0]] set, as on every graph
    [get_connectivity_matrix] fills, it returns [True] for any two arrays
    that are not empty, whatever they hold. *)
Theorem subsets_connected_diagonal (g : ConnectivityGraph) (A B : list Z) :
  linked g 0 0 = Ok true → A ≠ [] → B ≠ [] →
  ConnectivityGraph.subsets_connected g A B = Ok true.
Proof.
  intros H HA HB. destruct A as [|a A]; [done|]. destruct B as [|b B]; [done|].
  unfold ConnectivityGraph.subsets_connected. cbn [length range seq fmap list_fmap any_in].
  change (Z.of_nat 0) with 0%Z. rewrite H. reflexivity.
Qed.

Lemma subsets_connected_diagonal_witness :
  ConnectivityGraph.subsets_connected pairs4 [1; 1; 0; 0]%Z [0; 0; 1; 1]%Z = Ok true.
Proof.
  apply (subsets_connected_diagonal pairs4 [1; 1; 0; 0]%Z [0; 0; 1; 1]%Z);
    [reflexivity | discriminate | discriminate].
Defined.

(** ** The internal-coordinate edits on every input *)

(** One step of a computation that only reads, followed by one that
    does not end normally. *)
Lemma reads_then_fails {A B : Type} (m : M A) (k : A → M B) (st : store) :
  reads m →
  (∀ a, m st = (Ok a, st) → ∃ r, k a st = (r, st) ∧ ∀ u, r ≠ Ok u) →
  ∃ r, (m ≫= k) st = (r, st) ∧ ∀ u, r ≠ Ok u.
Proof.
  intros Hm Hk. destruct (Hm st) as [[a|e|] Hr].
  - erewrite bind_ok by exact Hr. by apply Hk.
  - erewrite bind_raise by exact Hr. eexists. split; [reflexivity | discriminate].
  - erewrite bind_out_of_fuel by exact Hr. eexists. split; [reflexivity | discriminate].
Qed.

Lemma fails_then {A B : Type} (m : M A) (k : A → M B) (st : store) :
  (∃ r, m st = (r, st) ∧ ∀ u, r ≠ Ok u) →
  ∃ r, (m ≫= k) st = (r, st) ∧ ∀ u, r ≠ Ok u.
Proof.
  intros ([a|e|] & Hr & Hn).
  - by destruct (Hn a).
  - erewrite bind_raise by exact Hr. eexists. split; [reflexivity | discriminate].
  - erewrite bind_out_of_fuel by exact Hr. eexists. split; [reflexivity | discriminate].
Qed.

Lemma reads_bind {A B : Type} (m : M A) (k : A → M B) :
  reads m → (∀ a, reads (k a)) → reads (m ≫= k).
Proof.
  intros Hm Hk st. destruct (Hm st) as [[a|e|] Hr].
  - erewrite bind_ok by exact Hr. apply Hk.
  - erewrite bind_raise by exact Hr. eauto.
  - erewrite bind_out_of_fuel by exact Hr. eauto.
Qed.

Lemma reads_lift {A : Type} (r : res A) : reads (lift r).
Proof. intros st. by exists r. Qed.

Lemma reads_ret {A : Type} (a : A) : reads (mret a).
Proof. intros st. by exists (Ok a). Qed.

Lemma reads_get_molecule (l : loc) : reads (get_molecule l).
Proof. intros st. unfold get_molecule. destruct (molecule_objs st !! l); eauto. Qed.

Lemma reads_get_list (l : loc) : reads (get_list l).
Proof. intros st. unfold get_list. destruct (list_objs st !! l); eauto. Qed.

Lemma reads_get_atom (l : loc) : reads (get_atom l).
Proof. intros st. unfold get_atom. destruct (atom_objs st !! l); eauto. Qed.

Lemma reads_graph_of (self : loc) : reads (graph_of self).
Proof.
  apply reads_bind; [apply reads_get_molecule|]. intros m.
  destruct (connectivity_graph m); [apply reads_ret | apply reads_lift].
Qed.

Lemma reads_atom_at (self : loc) (i : Z) : reads (atom_at self i).
Proof.
  apply reads_bind; [apply reads_get_molecule|]. intros m.
  apply reads_bind; [apply reads_get_list|]. intros l. apply reads_lift.
Qed.

Lemma reads_atom_coord (a : loc) : reads (atom_coord a).
Proof. apply reads_bind; [apply reads_get_atom|]. intros x. apply reads_ret. Qed.

(** A list is not indexed by a float, and an [Atom] is not subtracted
    from an array. *)
Lemma atom_at_float_fails (self : loc) (x : Z) : reads_and_fails (atom_at_float self x).
Proof.
  intros st. unfold atom_at_float.
  apply reads_then_fails; [apply reads_get_molecule|]. intros m _.
  apply reads_then_fails; [apply reads_get_list|]. intros l _.
  eexists. split; [reflexivity | discriminate].
Qed.

Lemma rotate_about_atom_fails (a : loc) (angle : R) (axis_vector : list R) (p : loc) :
  reads_and_fails (rotate_atom a angle axis_vector (ArgObject p)).
Proof.
  intros st. unfold rotate_atom.
  apply reads_then_fails; [apply reads_get_atom|]. intros x _.
  apply fails_then. eexists. split; [reflexivity | discriminate].
Qed.

(** X21: on every store, molecule, bond or angle, [delta] and bound on
    the search, [change_bond] and [change_angle] do not end normally and
    leave the store, all coordinates included, as it was. *)
Theorem change_bond_angle_never_complete (fuel : nat) (self : loc) (bond : Z * Z)
    (angle : Z * Z * Z) (delta : R) :
  reads_and_fails (Molecule.change_bond fuel self bond delta)
  ∧ reads_and_fails (Molecule.change_angle fuel self angle delta).
Proof.
  split; intros st.
  - apply change_bond_never_completes.
  - apply change_angle_never_completes.
Qed.

(** X22: [change_dihedral], which passes tuples for [excluded], does not
    end normally either, on any store, molecule, dihedral, [delta] and
    bound: when both searches return, the branch taken either rotates
    about an [Atom] object or indexes the atom list by a float; the store
    is left as it was. *)
Theorem change_dihedral_never_completes (fuel : nat) (self : loc)
    (dihedral : Z * Z * Z * Z) (delta : R) :
  reads_and_fails (Molecule.change_dihedral fuel self dihedral delta).
Proof.
  destruct dihedral as [[[a b] c] d]. intros st. unfold Molecule.change_dihedral.
  apply reads_then_fails; [apply reads_graph_of|]. intros g _.
  apply reads_then_fails; [apply reads_lift|]. intros first Hfirst.
  apply reads_then_fails; [apply reads_graph_of|]. intros g' _.
  apply reads_then_fails; [apply reads_lift|]. intros second _.
  apply reads_then_fails; [apply reads_atom_at|]. intros ab _.
  apply reads_then_fails; [apply reads_atom_coord|]. intros cb _.
  apply reads_then_fails; [apply reads_atom_at|]. intros ac _.
  apply reads_then_fails; [apply reads_atom_coord|]. intros cc _.
  apply reads_then_fails; [apply reads_lift|]. intros rotation_vector _.
  apply reads_then_fails; [apply reads_graph_of|]. intros g'' _.
  apply reads_then_fails; [apply reads_lift|]. intros [|] _.
  - apply reads_then_fails; [apply reads_atom_at|]. intros aa _.
    apply reads_then_fails; [apply reads_atom_at|]. intros ab' _.
    apply fails_then, rotate_about_atom_fails.
  - injection Hfirst as Hfirst.
    apply flood_fill_loop_shape in Hfirst as (Hlen & Hsp & _).
    rewrite length_replicate in Hlen, Hsp.
    destruct first as [|x first]; [cbn in Hlen; lia|].
    cbn [for_each]. do 3 apply fails_then. apply atom_at_float_fails.
Qed.

(** ** Connected molecules *)

Lemma distance_sym (a b : list R) : Vector.distance a b = Vector.distance b a.
Proof.
  unfold Vector.distance. pose proof (norm_difference_sym a b) as H.
  destruct (broadcast Rminus a b) as [d| |], (broadcast Rminus b a) as [d'| |];
    try done; cbn; congruence.
Qed.

Lemma near_sym (st : store) (a b : loc) : near st a b = near st b a.
Proof.
  unfold near. destruct (atom_objs st !! a) as [x|], (atom_objs st !! b) as [y|];
    try reflexivity.
  by rewrite distance_sym.
Qed.

Lemma near_self (st : store) (a : loc) : is_Some (atom_objs st !! a) → near st a a = true.
Proof.
  intros [x Hx]. unfold near. rewrite Hx, distance_self.
  destruct (Rle_dec 0 0.025) as [_|H]; [reflexivity | lra].
Qed.

(** On two atoms with as many coordinates, [connected] returns, and it
    returns [near]. *)
Lemma connected_near (st : store) (k : nat) (a b : loc) :
  atoms_in st k [a; b] →
  Atom.connected a b false 0.025%R st = (Ok (near st a b), st).
Proof.
  intros H. apply Forall_cons in H as [(x & Hx & Hxk) H].
  apply Forall_cons in H as [(y & Hy & Hyk) _].
  rewrite (connected_atoms _ _ _ _ _ _ _ Hx Hy). unfold near. rewrite Hx, Hy.
  unfold Vector.distance. rewrite broadcast_same by congruence. cbn.
  by destruct (Rle_dec _ _).
Qed.

(** A loop that may [return True], when every test returns and leaves
    the store alone. *)
Lemma any_of_pure {A : Type} (l : list A) (test : A → M bool) (f : A → bool)
    (st : store) :
  (∀ x, x ∈ l → test x st = (Ok (f x), st)) →
  any_of l test st = (Ok (existsb f l), st).
Proof.
  induction l as [|x l IH]; intros H; [reflexivity|].
  cbn [any_of existsb].
  erewrite bind_ok by (apply H; left).
  destruct (f x); [reflexivity|]. apply IH. intros y Hy. apply H. by right.
Qed.

Lemma existsb_swap {A B : Type} (f : A → B → bool) (l1 : list A) (l2 : list B) :
  existsb (λ a, existsb (f a) l2) l1 = existsb (λ b, existsb (λ a, f a b) l1) l2.
Proof.
  induction l1 as [|a l1 IH]; cbn.
  - induction l2 as [|b l2 IH2]; [reflexivity | exact IH2].
  - rewrite IH. clear IH. induction l2 as [|b l2 IH2]; [reflexivity|].
    cbn. rewrite <- IH2.
    destruct (f a b), (existsb (f a) l2), (existsb (λ a0, f a0 b) l1); reflexivity.
Qed.

Lemma existsb_ext {A : Type} (f g : A → bool) (l : list A) :
  (∀ x, f x = g x) → existsb f l = existsb g l.
Proof. intros H. induction l as [|x l IH]; [reflexivity|]. cbn. by rewrite H, IH. Qed.

Lemma is_connected_near (st : store) (self other : loc) (m o : Molecule)
    (l1 l2 : list loc) (k : nat) :
  molecule_objs st !! self = Some m → molecule_objs st !! other = Some o →
  list_objs st !! atoms m = Some l1 → list_objs st !! atoms o = Some l2 →
  atoms_in st k (l1 ++ l2) →
  Molecule.is_connected self other st
  = (Ok (existsb (λ a, existsb (near st a) l2) l1), st).
Proof.
  intros Hm Ho Hl1 Hl2 Hat. apply Forall_app in Hat as [Hat1 Hat2].
  unfold Molecule.is_connected.
  erewrite bind_ok by (apply get_molecule_ok, Hm).
  erewrite bind_ok by (apply get_list_ok, Hl1).
  apply any_of_pure. intros a Ha.
  erewrite bind_ok by (apply get_molecule_ok, Ho).
  erewrite bind_ok by (apply get_list_ok, Hl2).
  apply any_of_pure. intros b Hb.
  apply (connected_near st k). unfold atoms_in in *. rewrite Forall_forall in Hat1, Hat2.
  repeat constructor; auto.
Qed.

(** X23: for two molecules whose atoms all have as many coordinates,
    [is_connected] returns, leaves the store alone, answers [True] exactly
    when some atom of the one is within 0.025 of some atom of the other,
    and gives the same answer with the two molecules exchanged. *)
Theorem is_connected_symmetric (st : store) (self other : loc) (m o : Molecule)
    (l1 l2 : list loc) (k : nat) :
  molecule_objs st !! self = Some m → molecule_objs st !! other = Some o →
  list_objs st !! atoms m = Some l1 → list_objs st !! atoms o = Some l2 →
  atoms_in st k (l1 ++ l2) →
  ∃ answer : bool,
    Molecule.is_connected self other st = (Ok answer, st)
    ∧ Molecule.is_connected other self st = (Ok answer, st)
    ∧ (answer = true ↔ ∃ a b, a ∈ l1 ∧ b ∈ l2 ∧ near st a b = true).
Proof.
  intros Hm Ho Hl1 Hl2 Hat.
  exists (existsb (λ a, existsb (near st a) l2) l1). split; [|split].
  - by apply (is_connected_near st self other m o l1 l2 k).
  - rewrite (is_connected_near st other self o m l2 l1 k); try done.
    + rewrite (existsb_swap (near st) l1 l2). do 2 f_equal.
      apply existsb_ext. intros b. apply existsb_ext. intros a. apply near_sym.
    + apply Forall_app in Hat as [H1 H2]. by apply Forall_app.
  - rewrite existsb_exists. split.
    + intros (a & Ha & Hex). apply existsb_exists in Hex as (b & Hb & Hn).
      exists a, b. by rewrite !list_elem_of_In.
    + intros (a & b & Ha & Hb & Hn). exists a. rewrite <- list_elem_of_In.
      split; [done|]. apply existsb_exists. exists b. by rewrite <- list_elem_of_In.
Qed.

Lemma is_connected_symmetric_witness :
  ∃ answer : bool,
    Molecule.is_connected 21%positive 22%positive contacts = (Ok answer, contacts)
    ∧ Molecule.is_connected 22%positive 21%positive contacts = (Ok answer, contacts)
    ∧ (answer = true
       ↔ ∃ a b, a ∈ [1; 3]%positive ∧ b ∈ [2%positive] ∧ near contacts a b = true).
Proof.
  apply (is_connected_symmetric contacts 21%positive 22%positive
           {| atoms := 11%positive; molecular_formula := None;
              connectivity_graph := None |}
           {| atoms := 12%positive; molecular_formula := None;
              connectivity_graph := None |} [1; 3]%positive [2%positive] 3).
  - reflexivity.
  - reflexivity.
  - reflexivity.
  - reflexivity.
  - repeat constructor; eexists; split; reflexivity.
Defined.

(** X24: a molecule is connected to itself as soon as its first atom has
    finite coordinates (no NaN or inf component, as every coordinate of the
    model is): the first pair tested is that atom with itself, at distance
    exactly 0, whatever the other atoms are.  A molecule without atoms is
    connected to nothing: [other] is then not read at all. *)
Theorem is_connected_to_itself (st : store) (self other : loc) (m : Molecule)
    (l : list loc) :
  molecule_objs st !! self = Some m →
  list_objs st !! atoms m = Some l →
  match l with
  | [] => Molecule.is_connected self other st = (Ok false, st)
  | a :: _ =>
      is_Some (atom_objs st !! a) →
      Molecule.is_connected self self st = (Ok true, st)
  end.
Proof.
  intros Hm Hl. unfold Molecule.is_connected.
  destruct l as [|a l].
  - erewrite bind_ok by (apply get_molecule_ok, Hm).
    erewrite bind_ok by (apply get_list_ok, Hl). reflexivity.
  - intros [x Hx].
    erewrite bind_ok by (apply get_molecule_ok, Hm).
    erewrite bind_ok by (apply get_list_ok, Hl).
    cbn [any_of].
    rewrite (bind_ok _ _ st st true); [reflexivity|].
    erewrite bind_ok by (apply get_molecule_ok, Hm).
    erewrite bind_ok by (apply get_list_ok, Hl).
    cbn [any_of].
    erewrite bind_ok by (apply (connected_self_exact st a x); [exact Hx | lra]).
    reflexivity.
Qed.

Lemma is_connected_to_itself_witness :
  Molecule.is_connected 20%positive 20%positive ethylene = (Ok true, ethylene)
  ∧ Molecule.is_connected 21%positive 20%positive two_molecules
    = (Ok false, two_molecules).
Proof.
  split.
  - apply (is_connected_to_itself ethylene 20%positive 20%positive
             {| atoms := 10%positive; molecular_formula := None;
                connectivity_graph := None |} [1; 2; 3; 4; 5; 6]%positive);
      [reflexivity | reflexivity | eexists; reflexivity].
  - apply (is_connected_to_itself two_molecules 21%positive 20%positive
             {| atoms := 11%positive; molecular_formula := None;
                connectivity_graph := None |} []); reflexivity.
Defined.

(** ** The connectivity matrix *)

Lemma range_from_nat (i n : nat) :
  range_from (Z.of_nat i) n = Z.of_nat <$> seq i (n - i).
Proof.
  unfold range_from. replace (Z.to_nat (Z.of_nat n - Z.of_nat i)) with (n - i) by lia.
  generalize (n - i). intros c.
  assert (H : ∀ s, (λ k, Z.of_nat i + Z.of_nat k)%Z <$> seq s c
                   = Z.of_nat <$> seq (i + s) c).
  { induction c as [|c IH]; intros s; [reflexivity|].
    cbn [seq]. rewrite !fmap_cons. f_equal; [lia|].
    rewrite IH. by rewrite Nat.add_succ_r. }
  rewrite H. by rewrite Nat.add_0_r.
Qed.

Lemma foldl_split {A B : Type} (f : A → B → A) (a : A) (l1 l2 : list B) (x : B) :
  foldl f a (l1 ++ x :: l2) = foldl f (f (foldl f a l1) x) l2.
Proof. by rewrite foldl_app. Qed.

Lemma near_at_sym (st : store) (l : list loc) (i j : nat) :
  near_at st l i j = near_at st l j i.
Proof.
  unfold near_at. destruct (l !! i), (l !! j); try reflexivity. apply near_sym.
Qed.

(** *** The matrix the loops compute *)

Lemma set_cell_square (n : nat) (N : list (list Z)) (i j : nat) :
  square n N → square n (set_cell N i j).
Proof.
  intros [Hlen Hrows]. unfold set_cell. destruct (N !! i) as [row|] eqn:Hrow; [|done].
  split; [by rewrite length_insert|].
  apply Forall_insert; [exact Hrows|]. rewrite length_insert.
  exact (Forall_lookup_1 _ _ _ _ Hrows Hrow).
Qed.

Lemma cell_set_cell (n : nat) (N : list (list Z)) (i j i' j' : nat) :
  square n N → i < n → j < n →
  cell (set_cell N i j) i' j'
  = if bool_decide (i' = i ∧ j' = j) then Some 1%Z else cell N i' j'.
Proof.
  intros [Hlen Hrows] Hi Hj. unfold set_cell, cell.
  destruct (lookup_lt_is_Some_2 N i) as [row Hrow]; [lia|]. rewrite Hrow.
  pose proof (Forall_lookup_1 _ _ _ _ Hrows Hrow) as Hr. cbn in Hr.
  destruct (decide (i' = i)) as [->|Hne].
  - rewrite list_lookup_insert_eq by lia. cbn.
    destruct (decide (j' = j)) as [->|Hnj].
    + rewrite list_lookup_insert_eq by lia. by rewrite bool_decide_true.
    + rewrite list_lookup_insert_ne by done.
      rewrite bool_decide_false by (intros [_ ?]; done). by rewrite Hrow.
  - rewrite list_lookup_insert_ne by done.
    by rewrite bool_decide_false by (intros [? _]; done).
Qed.

Section Extends.
Context (st : store) (l : list loc).

Lemma extends_refl (N : list (list Z)) : square (length l) N → extends st l N N.
Proof. intros H. split; [exact H|]. intros i j. split; [done | by left]. Qed.

Lemma extends_trans (N N' N'' : list (list Z)) :
  extends st l N N' → extends st l N' N'' → extends st l N N''.
Proof.
  intros [_ H1] [Hsq H2]. split; [exact Hsq|]. intros i j.
  destruct (H1 i j) as [Hm1 Hs1], (H2 i j) as [Hm2 Hs2]. split; [auto|].
  destruct Hs2 as [->|Hs2]; [exact Hs1 | by right].
Qed.

Lemma extends_set_cell (N : list (list Z)) (i j : nat) :
  square (length l) N → i < length l → j < length l → near_at st l i j = true →
  extends st l N (set_cell N i j).
Proof.
  intros Hsq Hi Hj Hn. split; [by apply set_cell_square|]. intros i' j'.
  rewrite (cell_set_cell (length l)) by done.
  case_bool_decide as Heq.
  - destruct Heq as [-> ->]. split; [done | by right].
  - split; [done | by left].
Qed.

Lemma extends_visit_pair (N : list (list Z)) (i j : nat) :
  square (length l) N → i < length l → j < length l →
  extends st l N (visit_pair st l i N j).
Proof.
  intros Hsq Hi Hj. unfold visit_pair.
  destruct (near_at st l i j) eqn:Hn; [|by apply extends_refl].
  apply (extends_trans _ (set_cell N i j)); [by apply extends_set_cell|].
  apply extends_set_cell; try done; [by apply set_cell_square | by rewrite near_at_sym].
Qed.

Lemma visit_pair_sets (N : list (list Z)) (i j : nat) :
  square (length l) N → i < length l → j < length l → near_at st l i j = true →
  cell (visit_pair st l i N j) i j = Some 1%Z
  ∧ cell (visit_pair st l i N j) j i = Some 1%Z.
Proof.
  intros Hsq Hi Hj Hn. unfold visit_pair. rewrite Hn.
  rewrite !(cell_set_cell (length l) (set_cell N i j)) by (done || by apply set_cell_square).
  rewrite !(cell_set_cell (length l) N) by done.
  split; repeat case_bool_decide; try done; tauto.
Qed.

Lemma extends_fold_pairs (i : nat) (js : list nat) :
  i < length l → Forall (λ j, j < length l) js →
  ∀ N, square (length l) N → extends st l N (foldl (visit_pair st l i) N js).
Proof.
  intros Hi Hjs. induction Hjs as [|j js Hj _ IH]; intros N Hsq.
  - by apply extends_refl.
  - cbn [foldl]. pose proof (extends_visit_pair N i j Hsq Hi Hj) as He.
    eapply extends_trans; [exact He|]. apply IH, He.
Qed.

Lemma seq_below (i n : nat) : Forall (λ j, j < n) (seq i (n - i)).
Proof. apply Forall_forall. intros j Hj. apply elem_of_seq in Hj. lia. Qed.

Lemma extends_visit_row (N : list (list Z)) (i : nat) :
  square (length l) N → i < length l → extends st l N (visit_row st l N i).
Proof. intros Hsq Hi. apply extends_fold_pairs; [done | apply seq_below | done]. Qed.

Lemma visit_row_sets (N : list (list Z)) (i j : nat) :
  square (length l) N → i ≤ j → j < length l → near_at st l i j = true →
  cell (visit_row st l N i) i j = Some 1%Z ∧ cell (visit_row st l N i) j i = Some 1%Z.
Proof.
  intros Hsq Hij Hj Hn. unfold visit_row.
  assert (Hin : j ∈ seq i (length l - i)) by (apply elem_of_seq; lia).
  apply list_elem_of_split in Hin as (l1 & l2 & Hsplit).
  pose proof (seq_below i (length l)) as Hall. rewrite Hsplit in Hall.
  apply Forall_app in Hall as [Hl1 Hl2]. apply Forall_cons in Hl2 as [_ Hl2].
  rewrite Hsplit, foldl_split.
  pose proof (extends_fold_pairs i l1 ltac:(lia) Hl1 N Hsq) as [Hsq1 _].
  destruct (visit_pair_sets _ i j Hsq1 ltac:(lia) Hj Hn) as [H1 H2].
  pose proof (extends_visit_pair _ i j Hsq1 ltac:(lia) Hj) as [Hsq2 _].
  destruct (extends_fold_pairs i l2 ltac:(lia) Hl2 _ Hsq2) as [_ Hext].
  split; by apply Hext.
Qed.

Lemma extends_fold_rows (rows : list nat) :
  Forall (λ i, i < length l) rows →
  ∀ N, square (length l) N → extends st l N (foldl (visit_row st l) N rows).
Proof.
  intros His. induction His as [|i rows Hi _ IH]; intros N Hsq.
  - by apply extends_refl.
  - cbn [foldl]. pose proof (extends_visit_row N i Hsq Hi) as He.
    eapply extends_trans; [exact He|]. apply IH, He.
Qed.

Lemma seq_0_below (n : nat) : Forall (λ j, j < n) (seq 0 n).
Proof. apply Forall_forall. intros j Hj. apply elem_of_seq in Hj. lia. Qed.

Lemma extends_visit_all (N : list (list Z)) :
  square (length l) N → extends st l N (visit_all st l N).
Proof. intros Hsq. apply extends_fold_rows; [apply seq_0_below | done]. Qed.

Lemma visit_all_sets (N : list (list Z)) (i j : nat) :
  square (length l) N → i ≤ j → j < length l → near_at st l i j = true →
  cell (visit_all st l N) i j = Some 1%Z ∧ cell (visit_all st l N) j i = Some 1%Z.
Proof.
  intros Hsq Hij Hj Hn. unfold visit_all.
  assert (Hin : i ∈ seq 0 (length l)) by (apply elem_of_seq; lia).
  apply list_elem_of_split in Hin as (l1 & l2 & Hsplit).
  pose proof (seq_0_below (length l)) as Hall. rewrite Hsplit in Hall.
  apply Forall_app in Hall as [Hl1 Hl2]. apply Forall_cons in Hl2 as [_ Hl2].
  rewrite Hsplit, foldl_split.
  pose proof (extends_fold_rows l1 Hl1 N Hsq) as [Hsq1 _].
  destruct (visit_row_sets _ i j Hsq1 Hij Hj Hn) as [H1 H2].
  pose proof (extends_visit_row _ i Hsq1 ltac:(lia)) as [Hsq2 _].
  destruct (extends_fold_rows l2 Hl2 _ Hsq2) as [_ Hext].
  split; by apply Hext.
Qed.

(** Every entry of the matrix computed: 1 between atoms that are near,
    the former entry otherwise. *)
Lemma visit_all_cell (N : list (list Z)) (i j : nat) :
  square (length l) N → i < length l → j < length l →
  cell (visit_all st l N) i j
  = if near_at st l i j then Some 1%Z else cell N i j.
Proof.
  intros Hsq Hi Hj. destruct (near_at st l i j) eqn:Hn.
  - destruct (decide (i ≤ j)) as [Hij|Hij].
    + by apply (visit_all_sets N i j).
    + rewrite near_at_sym in Hn. apply (visit_all_sets N j i); [done | lia | done | done].
  - destruct (extends_visit_all N Hsq) as [_ Hext].
    destruct (Hext i j) as [_ [H|[_ H]]]; [exact H | congruence].
Qed.

End Extends.

(** *** The loops in the store *)

Section ConnectivityMatrix.
Context (st : store) (self : loc) (m : Molecule) (l : list loc) (k sz : nat).
Hypothesis Hl : list_objs st !! atoms m = Some l.
Hypothesis Hat : atoms_in st k l.

Lemma W_molecule (N : list (list Z)) :
  get_molecule self (with_nodes st self m sz N)
  = (Ok {| atoms := atoms m; molecular_formula := molecular_formula m;
           connectivity_graph := Some {| size := sz; nodes := N |} |},
     with_nodes st self m sz N).
Proof. apply get_molecule_ok. apply lookup_insert_eq. Qed.

Lemma W_list (N : list (list Z)) :
  get_list (atoms m) (with_nodes st self m sz N) = (Ok l, with_nodes st self m sz N).
Proof. apply get_list_ok, Hl. Qed.

Lemma W_atom_at (N : list (list Z)) (i : nat) (a : loc) :
  l !! i = Some a →
  atom_at self (Z.of_nat i) (with_nodes st self m sz N)
  = (Ok a, with_nodes st self m sz N).
Proof.
  intros Ha. unfold atom_at.
  erewrite bind_ok by apply W_molecule. cbn [atoms].
  erewrite bind_ok by apply W_list.
  unfold lift. by rewrite (getitem_nat _ _ _ Ha).
Qed.

Lemma W_connected (N : list (list Z)) (a b : loc) :
  a ∈ l → b ∈ l →
  Atom.connected a b false 0.025%R (with_nodes st self m sz N)
  = (Ok (near st a b), with_nodes st self m sz N).
Proof.
  intros Ha Hb. apply (connected_near (with_nodes st self m sz N) k a b).
  unfold atoms_in in *. rewrite Forall_forall in Hat. repeat constructor; by apply Hat.
Qed.

Lemma W_set_node (n : nat) (N : list (list Z)) (i j : nat) :
  square n N → i < n → j < n →
  set_node self (Z.of_nat i) (Z.of_nat j) (with_nodes st self m sz N)
  = (Ok tt, with_nodes st self m sz (set_cell N i j)).
Proof.
  intros [Hlen Hrows] Hi Hj. unfold set_node.
  erewrite bind_ok by apply W_molecule. cbn [connectivity_graph nodes size atoms
    molecular_formula].
  destruct (lookup_lt_is_Some_2 N i) as [row Hrow]; [lia|].
  pose proof (Forall_lookup_1 _ _ _ _ Hrows Hrow) as Hr. cbn in Hr.
  assert (Hset : setitem2 N (Z.of_nat i) (Z.of_nat j) 1%Z = Ok (set_cell N i j)).
  { unfold setitem2, set_cell. rewrite (getitem_nat _ _ _ Hrow), Hrow. cbn [mbind res_bind].
    rewrite setitem_nat by lia. cbn [mbind res_bind]. apply setitem_nat. lia. }
  rewrite Hset. erewrite bind_ok by reflexivity.
  unfold set_molecule, with_nodes. cbn. by rewrite insert_insert_eq.
Qed.

(** A loop whose body, at every index, replaces the matrix [N] by
    [step N j]. *)
Lemma W_loop (js : list nat) (body : Z → unit → M unit)
    (step : list (list Z) → nat → list (list Z)) :
  (∀ N j, j ∈ js → square (length l) N →
          body (Z.of_nat j) tt (with_nodes st self m sz N)
          = (Ok tt, with_nodes st self m sz (step N j))
          ∧ square (length l) (step N j)) →
  ∀ N, square (length l) N →
       for_each (Z.of_nat <$> js) body tt (with_nodes st self m sz N)
       = (Ok tt, with_nodes st self m sz (foldl step N js))
       ∧ square (length l) (foldl step N js).
Proof.
  induction js as [|j js IH]; intros Hbody N Hsq; [done|].
  rewrite fmap_cons. cbn [for_each foldl].
  destruct (Hbody N j) as [Hb Hsq']; [by left | done|].
  erewrite bind_ok by exact Hb.
  apply IH; [|exact Hsq']. intros N' j' Hj'. apply Hbody. by right.
Qed.

Lemma W_pair (N : list (list Z)) (i j : nat) :
  square (length l) N → i < length l → j < length l →
  (a1 ← atom_at self (Z.of_nat i);
   a2 ← atom_at self (Z.of_nat j);
   bonded ← Atom.connected a1 a2 false 0.025%R;
   if bonded : bool then
     _ ← set_node self (Z.of_nat i) (Z.of_nat j);
     set_node self (Z.of_nat j) (Z.of_nat i)
   else mret tt) (with_nodes st self m sz N)
  = (Ok tt, with_nodes st self m sz (visit_pair st l i N j))
  ∧ square (length l) (visit_pair st l i N j).
Proof.
  intros Hsq Hi Hj.
  split; [|by apply (extends_visit_pair st l N i j)].
  destruct (lookup_lt_is_Some_2 l i Hi) as [a Ha].
  destruct (lookup_lt_is_Some_2 l j Hj) as [b Hb].
  erewrite bind_ok by (apply W_atom_at, Ha).
  erewrite bind_ok by (apply W_atom_at, Hb).
  erewrite bind_ok
    by (apply W_connected; [exact (list_elem_of_lookup_2 _ _ _ Ha)
                           | exact (list_elem_of_lookup_2 _ _ _ Hb)]).
  unfold visit_pair, near_at. rewrite Ha, Hb.
  destruct (near st a b); [|reflexivity].
  erewrite bind_ok by (by apply (W_set_node (length l))).
  apply (W_set_node (length l)); [by apply set_cell_square | done | done].
Qed.

Lemma W_row (N : list (list Z)) (i : nat) :
  square (length l) N → i < length l →
  (m' ← get_molecule self;
   l' ← get_list (atoms m');
   for_each (range_from (Z.of_nat i) (length l')) (λ i2 (_ : unit),
     a1 ← atom_at self (Z.of_nat i);
     a2 ← atom_at self i2;
     bonded ← Atom.connected a1 a2 false 0.025%R;
     if bonded : bool then
       _ ← set_node self (Z.of_nat i) i2;
       set_node self i2 (Z.of_nat i)
     else mret tt) tt) (with_nodes st self m sz N)
  = (Ok tt, with_nodes st self m sz (visit_row st l N i))
  ∧ square (length l) (visit_row st l N i).
Proof.
  intros Hsq Hi.
  erewrite bind_ok by apply W_molecule. cbn [atoms].
  erewrite bind_ok by apply W_list.
  rewrite range_from_nat. unfold visit_row.
  apply W_loop; [|exact Hsq].
  intros N' j Hj Hsq'. apply elem_of_seq in Hj. apply W_pair; [done | done | lia].
Qed.

Lemma W_all (N : list (list Z)) :
  square (length l) N →
  for_each (range (length l)) (λ i1 (_ : unit),
    m' ← get_molecule self;
    l' ← get_list (atoms m');
    for_each (range_from i1 (length l')) (λ i2 (_ : unit),
      a1 ← atom_at self i1;
      a2 ← atom_at self i2;
      bonded ← Atom.connected a1 a2 false 0.025%R;
      if bonded : bool then
        _ ← set_node self i1 i2;
        set_node self i2 i1
      else mret tt) tt) tt (with_nodes st self m sz N)
  = (Ok tt, with_nodes st self m sz (visit_all st l N)).
Proof.
  intros Hsq. unfold range, visit_all.
  apply W_loop; [|exact Hsq].
  intros N' i Hi Hsq'. apply elem_of_seq in Hi. apply W_row; [done | lia].
Qed.

End ConnectivityMatrix.

(** [get_connectivity_matrix] on a molecule whose atoms have as many
    coordinates and whose graph, if it has one, has the shape of the atom
    list. *)
Lemma get_connectivity_matrix_computes (st : store) (self : loc) (m : Molecule)
    (l : list loc) (k : nat) :
  molecule_objs st !! self = Some m →
  list_objs st !! atoms m = Some l →
  atoms_in st k l →
  square (length l) (nodes (start_graph m (length l))) →
  let g := start_graph m (length l) in
  Molecule.get_connectivity_matrix self st
  = (Ok (visit_all st l (nodes g)),
     with_nodes st self m (size g) (visit_all st l (nodes g))).
Proof.
  intros Hm Hl Hat Hsq g. unfold Molecule.get_connectivity_matrix.
  erewrite bind_ok by (apply get_molecule_ok, Hm).
  assert (Hstart :
    match connectivity_graph m with
    | Some _ => mret tt
    | None =>
        l0 ← get_list (atoms m);
        set_molecule self
          {| atoms := atoms m; molecular_formula := molecular_formula m;
             connectivity_graph := Some (ConnectivityGraph.__init__ (length l0)) |}
    end st = (Ok tt, with_nodes st self m (size g) (nodes g))).
  { unfold g, start_graph. destruct (connectivity_graph m) as [g0|] eqn:Hg.
    - unfold with_nodes. destruct st as [ao lo mo]. cbn in *.
      unfold mret, M_ret. do 2 f_equal. symmetry. apply insert_id.
      rewrite Hm. f_equal. destruct m as [am fm gm]. cbn in *. subst gm.
      by destruct g0.
    - erewrite bind_ok by (apply get_list_ok, Hl). reflexivity. }
  erewrite bind_ok by exact Hstart.
  erewrite bind_ok by apply W_molecule. cbn [atoms].
  erewrite bind_ok by (by apply W_list).
  erewrite bind_ok by (by apply (W_all st self m l k (size g))).
  assert (Hgraph :
    graph_of self (with_nodes st self m (size g) (visit_all st l (nodes g)))
    = (Ok {| size := size g; nodes := visit_all st l (nodes g) |},
       with_nodes st self m (size g) (visit_all st l (nodes g)))).
  { unfold graph_of. erewrite bind_ok by apply W_molecule. reflexivity. }
  erewrite bind_ok by exact Hgraph. reflexivity.
Qed.

Lemma zeros_square (n : nat) : square n (replicate n (replicate n 0%Z)).
Proof. split; [apply length_replicate | apply Forall_replicate, length_replicate]. Qed.

Lemma zeros_cell (n i j : nat) :
  i < n → j < n → cell (replicate n (replicate n 0%Z)) i j = Some 0%Z.
Proof.
  intros Hi Hj. unfold cell. rewrite lookup_replicate_2 by done. cbn.
  by rewrite lookup_replicate_2.
Qed.

(** X25: on a molecule that has no connectivity graph yet and whose
    atoms all have as many coordinates, [get_connectivity_matrix] returns
    the matrix it stores in a new graph of the size of the atom list: one
    row and one column per atom, the entry of two atoms being 1 when
    [Atom.connected] accepts them (they are within 0.025 of each other)
    and 0 otherwise.  The matrix is therefore symmetric, and for atoms
    with finite coordinates (no NaN or inf component, as every coordinate
    of the model is) its diagonal is set, an atom being at distance
    exactly 0 from itself. *)
Theorem get_connectivity_matrix_fresh (st : store) (self : loc) (m : Molecule)
    (l : list loc) (k : nat) :
  molecule_objs st !! self = Some m →
  connectivity_graph m = None →
  list_objs st !! atoms m = Some l →
  atoms_in st k l →
  ∃ N,
    Molecule.get_connectivity_matrix self st
    = (Ok N, with_nodes st self m (length l) N)
    ∧ wf_graph {| size := length l; nodes := N |}
    ∧ (∀ i j a b, l !! i = Some a → l !! j = Some b →
         cell N i j = Some (if near st a b then 1 else 0)%Z)
    ∧ (∀ i j, i < length l → j < length l → cell N i j = cell N j i)
    ∧ (∀ i, i < length l → cell N i i = Some 1%Z).
Proof.
  intros Hm Hg Hl Hat.
  pose proof (get_connectivity_matrix_computes st self m l k Hm Hl Hat) as H.
  unfold start_graph in H. rewrite Hg in H. cbn in H.
  specialize (H (zeros_square _)).
  set (N := visit_all st l (replicate (length l) (replicate (length l) 0%Z))) in *.
  assert (Hcell : ∀ i j, i < length l → j < length l →
            cell N i j = Some (if near_at st l i j then 1 else 0)%Z).
  { intros i j Hi Hj. unfold N. rewrite visit_all_cell by (done || apply zeros_square).
    rewrite zeros_cell by done. by destruct (near_at st l i j). }
  exists N. split; [exact H|]. split; [|split; [|split]].
  - apply (extends_visit_all st l), zeros_square.
  - intros i j a b Ha Hb.
    rewrite Hcell by (eapply lookup_lt_Some; eassumption).
    unfold near_at. by rewrite Ha, Hb.
  - intros i j Hi Hj. rewrite !Hcell by done. by rewrite near_at_sym.
  - intros i Hi. rewrite Hcell by done.
    destruct (lookup_lt_is_Some_2 l i Hi) as [a Ha].
    unfold near_at. rewrite Ha. rewrite near_self; [done|].
    unfold atoms_in in Hat. rewrite Forall_forall in Hat.
    destruct (Hat a (list_elem_of_lookup_2 _ _ _ Ha)) as (x & Hx & _). by exists x.
Qed.

Lemma get_connectivity_matrix_fresh_witness :
  ∃ N,
    Molecule.get_connectivity_matrix 20%positive ethylene
    = (Ok N, with_nodes ethylene 20%positive
               {| atoms := 10%positive; molecular_formula := None;
                  connectivity_graph := None |} 6 N)
    ∧ wf_graph {| size := 6; nodes := N |}
    ∧ (∀ i j a b, [1; 2; 3; 4; 5; 6]%positive !! i = Some a →
         [1; 2; 3; 4; 5; 6]%positive !! j = Some b →
         cell N i j = Some (if near ethylene a b then 1 else 0)%Z)
    ∧ (∀ i j, i < 6 → j < 6 → cell N i j = cell N j i)
    ∧ (∀ i, i < 6 → cell N i i = Some 1%Z).
Proof.
  apply (get_connectivity_matrix_fresh ethylene 20%positive
           {| atoms := 10%positive; molecular_formula := None;
              connectivity_graph := None |} [1; 2; 3; 4; 5; 6]%positive 3).
  - reflexivity.
  - reflexivity.
  - reflexivity.
  - repeat constructor; eexists; split; reflexivity.
Defined.

(** X26: on a molecule that already has a graph with a matrix of the
    shape of the atom list, [get_connectivity_matrix] only ever writes 1:
    the entry of two atoms within 0.025 of each other becomes 1 and every
    other entry is kept, so a bond entered earlier stays in the matrix
    when its atoms are no longer near; the size of the graph is kept. *)
Theorem get_connectivity_matrix_keeps_bonds (st : store) (self : loc) (m : Molecule)
    (g : ConnectivityGraph) (l : list loc) (k : nat) :
  molecule_objs st !! self = Some m →
  connectivity_graph m = Some g →
  list_objs st !! atoms m = Some l →
  atoms_in st k l →
  square (length l) (nodes g) →
  ∃ N,
    Molecule.get_connectivity_matrix self st
    = (Ok N, with_nodes st self m (size g) N)
    ∧ square (length l) N
    ∧ (∀ i j a b, l !! i = Some a → l !! j = Some b →
         cell N i j = if near st a b then Some 1%Z else cell (nodes g) i j)
    ∧ (∀ i j, cell (nodes g) i j = Some 1%Z → cell N i j = Some 1%Z).
Proof.
  intros Hm Hg Hl Hat Hsq.
  pose proof (get_connectivity_matrix_computes st self m l k Hm Hl Hat) as H.
  unfold start_graph in H. rewrite Hg in H. specialize (H Hsq). cbn in H.
  exists (visit_all st l (nodes g)). split; [exact H|].
  destruct (extends_visit_all st l (nodes g) Hsq) as [Hsq' Hext].
  split; [exact Hsq'|]. split.
  - intros i j a b Ha Hb.
    rewrite visit_all_cell by (done || eapply lookup_lt_Some; eassumption).
    unfold near_at. by rewrite Ha, Hb.
  - intros i j. apply Hext.
Qed.

Lemma get_connectivity_matrix_keeps_bonds_witness :
  ∃ N,
    Molecule.get_connectivity_matrix 20%positive chain_molecule
    = (Ok N, with_nodes chain_molecule 20%positive
               {| atoms := 10%positive; molecular_formula := None;
                  connectivity_graph := Some chain3_graph |} 3 N)
    ∧ square 3 N
    ∧ (∀ i j a b, [1; 2; 3]%positive !! i = Some a → [1; 2; 3]%positive !! j = Some b →
         cell N i j = if near chain_molecule a b then Some 1%Z
                      else cell (nodes chain3_graph) i j)
    ∧ (∀ i j, cell (nodes chain3_graph) i j = Some 1%Z → cell N i j = Some 1%Z).
Proof.
  apply (get_connectivity_matrix_keeps_bonds chain_molecule 20%positive
           {| atoms := 10%positive; molecular_formula := None;
              connectivity_graph := Some chain3_graph |}
           chain3_graph [1; 2; 3]%positive 3).
  - reflexivity.
  - reflexivity.
  - reflexivity.
  - repeat constructor; eexists; split; reflexivity.
  - by repeat constructor.
Defined.

(** ** The search on a matrix that [get_connectivity_matrix] has filled *)

Lemma getitem2_cell (N : list (list Z)) (i j : nat) (v : Z) :
  cell N i j = Some v → getitem2 N (Z.of_nat i) (Z.of_nat j) = Ok v.
Proof.
  unfold cell, getitem2. destruct (N !! i) as [row|] eqn:Hrow; [|discriminate]. cbn.
  intros H. rewrite (getitem_nat _ _ _ Hrow). cbn. by apply getitem_nat.
Qed.

(** Counting the indices of a list that pass a test, as
    [neighbour_count] does. *)
Section FlagSums.
Context (h : Z → bool).

Lemma flag_sum_nonneg (l : list Z) :
  (0 ≤ foldr (λ i acc, (if h i then 1 else 0) + acc) 0 l)%Z.
Proof. induction l as [|a l IH]; cbn; [lia|]. destruct (h a); lia. Qed.

Lemma flag_sum_positive (l : list Z) (x : Z) :
  x ∈ l → h x = true → (1 ≤ foldr (λ i acc, (if h i then 1 else 0) + acc) 0 l)%Z.
Proof.
  intros Hx Hh. induction l as [|a l IH]; [by apply elem_of_nil in Hx|].
  cbn. pose proof (flag_sum_nonneg l).
  apply elem_of_cons in Hx as [<-|Hx]; [rewrite Hh; lia|].
  specialize (IH Hx). destruct (h a); lia.
Qed.

Lemma flag_sum_two (l : list Z) (x y : Z) :
  x ≠ y → x ∈ l → y ∈ l → h x = true → h y = true →
  (2 ≤ foldr (λ i acc, (if h i then 1 else 0) + acc) 0 l)%Z.
Proof.
  intros Hne Hx Hy Hhx Hhy. induction l as [|a l IH]; [by apply elem_of_nil in Hx|].
  cbn. apply elem_of_cons in Hx as [<-|Hx], Hy as [Hy|Hy].
  - congruence.
  - rewrite Hhx. pose proof (flag_sum_positive l y Hy Hhy). lia.
  - subst a. rewrite Hhy. pose proof (flag_sum_positive l x Hx Hhx). lia.
  - specialize (IH Hx Hy). destruct (h a); lia.
Qed.

Lemma flag_sum_zero (l : list Z) :
  (∀ i, i ∈ l → h i = false) →
  foldr (λ i acc, (if h i then 1 else 0) + acc)%Z 0%Z l = 0%Z.
Proof.
  intros H. induction l as [|a l IH]; [reflexivity|].
  cbn. rewrite (H a) by left. rewrite IH; [reflexivity|]. intros i Hi. apply H. by right.
Qed.

Lemma flag_sum_one (l : list Z) (s : Z) :
  NoDup l → s ∈ l → h s = true → (∀ i, i ∈ l → h i = true → i = s) →
  foldr (λ i acc, (if h i then 1 else 0) + acc)%Z 0%Z l = 1%Z.
Proof.
  intros Hnd Hs Hhs Honly. induction Hnd as [|a l Ha Hnd IH]; [by apply elem_of_nil in Hs|].
  cbn. destruct (decide (a = s)) as [->|Hne].
  - rewrite Hhs, flag_sum_zero; [reflexivity|].
    intros i Hi. destruct (h i) eqn:Hhi; [|reflexivity].
    assert (i = s) by (apply Honly; [by right | done]). by subst i.
  - apply elem_of_cons in Hs as [Hs|Hs]; [congruence|].
    destruct (h a) eqn:Hha; [destruct Hne; apply Honly; [by left | done]|].
    rewrite IH; [reflexivity | done|]. intros i Hi. apply Honly. by right.
Qed.

End FlagSums.

Lemma range_NoDup (n : nat) : NoDup (range n).
Proof. unfold range. apply NoDup_fmap; [apply Nat2Z.inj' | apply NoDup_seq]. Qed.

(** On a matrix of flags [f], a vertex is a neighbour when [f] holds in
    one direction or the other. *)
Lemma filled_admissible (g : ConnectivityGraph) (f : nat → nat → bool) (s j : nat) :
  (∀ i j, i < size g → j < size g →
          cell (nodes g) i j = Some (if f i j then 1 else 0)%Z) →
  s < size g → j < size g →
  admissible g (Z.of_nat s) [] (Z.of_nat j) = f s j || f j s.
Proof.
  intros H Hs Hj. unfold admissible, linked.
  rewrite (getitem2_cell _ _ _ _ (H s j Hs Hj)). cbn [mbind res_bind].
  destruct (f s j); cbn.
  - rewrite bool_decide_true by reflexivity.
    apply bool_decide_true. apply not_elem_of_nil.
  - rewrite bool_decide_false by discriminate.
    rewrite (getitem2_cell _ _ _ _ (H j s Hj Hs)). cbn [mbind res_bind].
    destruct (f j s); cbn.
    + rewrite bool_decide_true by reflexivity. apply bool_decide_true, not_elem_of_nil.
    + by rewrite bool_decide_false by discriminate.
Qed.

(** X27: on the graph [get_connectivity_matrix] builds for a molecule
    (no graph before, atoms with as many coordinates, all finite: no NaN
    or inf component, as every coordinate of the model is), the search
    from an atom with nothing excluded never returns a fragment of more
    than one atom: from an atom that has another atom within 0.025, no
    number of passes reaches the [return]; from an atom that has none,
    the search returns after one pass with that atom alone. *)
Theorem flood_fill_search_on_built_matrix (st : store) (self : loc) (m : Molecule)
    (l : list loc) (k s : nat) :
  molecule_objs st !! self = Some m →
  connectivity_graph m = None →
  list_objs st !! atoms m = Some l →
  atoms_in st k l →
  s < length l →
  ∃ N,
    Molecule.get_connectivity_matrix self st
    = (Ok N, with_nodes st self m (length l) N)
    ∧ ((∃ j, j ≠ s ∧ near_at st l s j = true) →
       ∀ fuel,
         ConnectivityGraph.flood_fill_search fuel {| size := length l; nodes := N |}
           (Z.of_nat s) (PyTuple []) = OutOfFuel)
    ∧ ((∀ j, near_at st l s j = true → j = s) →
       ∀ fuel,
         ConnectivityGraph.flood_fill_search (S fuel) {| size := length l; nodes := N |}
           (Z.of_nat s) (PyTuple [])
         = Ok (<[s := 1%Z]> (replicate (length l) 0%Z))).
Proof.
  intros Hm Hg Hl Hat Hs.
  pose proof (get_connectivity_matrix_computes st self m l k Hm Hl Hat) as H.
  unfold start_graph in H. rewrite Hg in H. cbn in H.
  specialize (H (zeros_square _)).
  set (N := visit_all st l (replicate (length l) (replicate (length l) 0%Z))) in *.
  set (g := {| size := length l; nodes := N |}).
  assert (Hwf : wf_graph g) by apply (extends_visit_all st l), zeros_square.
  assert (Hcell : ∀ i j, i < size g → j < size g →
            cell (nodes g) i j = Some (if near_at st l i j then 1 else 0)%Z).
  { intros i j Hi Hj. cbn in *. unfold N.
    rewrite visit_all_cell by (done || apply zeros_square).
    rewrite zeros_cell by done. by destruct (near_at st l i j). }
  assert (Hadm : ∀ j, j < length l →
            admissible g (Z.of_nat s) [] (Z.of_nat j) = near_at st l s j).
  { intros j Hj. rewrite (filled_admissible g (near_at st l)) by done.
    rewrite (near_at_sym st l j s). apply orb_diag. }
  assert (Hself : near_at st l s s = true).
  { destruct (lookup_lt_is_Some_2 l s Hs) as [a Ha]. unfold near_at. rewrite Ha.
    apply near_self. unfold atoms_in in Hat. rewrite Forall_forall in Hat.
    destruct (Hat a (list_elem_of_lookup_2 _ _ _ Ha)) as (x & Hx & _). by exists x. }
  assert (Hlt : ∀ j, near_at st l s j = true → j < length l).
  { intros j Hn. unfold near_at in Hn. destruct (l !! s); [|discriminate].
    destruct (l !! j) eqn:Hj; [|discriminate]. by apply lookup_lt_Some in Hj. }
  exists N. split; [exact H|]. split.
  - intros (j & Hne & Hn) fuel.
    apply (flood_fill_search_diverges g [] s Hwf Hs).
    pose proof (flag_sum_two (admissible g (Z.of_nat s) []) (range (size g))
                  (Z.of_nat s) (Z.of_nat j)) as Htwo.
    unfold neighbour_count. cbn [size g] in *.
    rewrite !Hadm in Htwo by auto.
    specialize (Htwo ltac:(lia) (elem_of_range _ _ Hs) (elem_of_range _ _ (Hlt j Hn))
                     Hself Hn).
    lia.
  - intros Honly fuel.
    assert (Hc : neighbour_count g (Z.of_nat s) [] = 1%Z).
    { unfold neighbour_count.
      apply (flag_sum_one _ _ (Z.of_nat s)); cbn [size g].
      - apply range_NoDup.
      - by apply elem_of_range.
      - by rewrite Hadm.
      - intros i Hi Hh. unfold range in Hi. apply list_elem_of_fmap in Hi as (j & -> & Hj).
        apply elem_of_seq in Hj. rewrite Hadm in Hh by lia. f_equal. by apply Honly. }
    etrans; [exact (flood_fill_search_returns g [] s Hwf Hs fuel Hc)|]. f_equal.
    apply list_eq. intros j. destruct (decide (j < length l)) as [Hj|Hj].
    + rewrite (neighbour_flags_lookup g [] s j Hj), Hadm by done.
      destruct (decide (j = s)) as [->|Hne].
      * rewrite Hself, list_lookup_insert_eq by (by rewrite length_replicate). done.
      * rewrite list_lookup_insert_ne by done. rewrite lookup_replicate_2 by done.
        destruct (near_at st l s j) eqn:Hn; [by apply Honly in Hn | done].
    + rewrite !lookup_ge_None_2; [done | |].
      * rewrite length_insert, length_replicate. lia.
      * rewrite (neighbour_flags_length g [] s). cbn. lia.
Qed.

(** [near] on two atoms of the store. *)
Lemma near_atoms (st : store) (a b : loc) (x y : Atom) :
  atom_objs st !! a = Some x → atom_objs st !! b = Some y →
  near st a b
  = match Vector.distance (coord x) (coord y) with
    | Ok d => if Rle_dec d 0.025%R then true else false
    | _ => false
    end.
Proof. intros Ha Hb. unfold near. by rewrite Ha, Hb. Qed.

(** In [contacts] the first atom has the second within the cutoff, and
    the third has no atom but itself. *)
Lemma contacts_near_0_1 : near_at contacts [1; 2; 3]%positive 0 1 = true.
Proof.
  change (near contacts 1%positive 2%positive = true).
  rewrite (near_atoms contacts 1%positive 2%positive
             (atom "H" 0 0 0) (atom "H" 0.01 0 0) eq_refl eq_refl).
  cbn [coord atom]. unfold Vector.distance.
  rewrite broadcast_same by reflexivity. cbn [mbind res_bind zip_with].
  destruct (Rle_dec _ _) as [_|H]; [reflexivity|].
  destruct H. apply np_norm_le; [lra|]. cbn. lra.
Qed.

Lemma contacts_alone_2 (j : nat) :
  near_at contacts [1; 2; 3]%positive 2 j = true → j = 2.
Proof.
  destruct j as [|[|[|j]]]; [| |reflexivity|discriminate].
  - change (near contacts 3%positive 1%positive = true → 0 = 2).
    rewrite (near_atoms contacts 3%positive 1%positive
               (atom "O" 1 0 0) (atom "H" 0 0 0) eq_refl eq_refl).
    cbn [coord atom]. unfold Vector.distance.
    rewrite broadcast_same by reflexivity. cbn [mbind res_bind zip_with].
    destruct (Rle_dec _ _) as [H|_]; [|discriminate].
    exfalso. apply (Rlt_irrefl 0.025). eapply Rlt_le_trans; [|exact H].
    apply np_norm_gt; [lra|]. cbn. lra.
  - change (near contacts 3%positive 2%positive = true → 1 = 2).
    rewrite (near_atoms contacts 3%positive 2%positive
               (atom "O" 1 0 0) (atom "H" 0.01 0 0) eq_refl eq_refl).
    cbn [coord atom]. unfold Vector.distance.
    rewrite broadcast_same by reflexivity. cbn [mbind res_bind zip_with].
    destruct (Rle_dec _ _) as [H|_]; [|discriminate].
    exfalso. apply (Rlt_irrefl 0.025). eapply Rlt_le_trans; [|exact H].
    apply np_norm_gt; [lra|]. cbn. lra.
Qed.

Lemma flood_fill_search_on_built_matrix_witness :
  (∃ N,
     Molecule.get_connectivity_matrix 20%positive contacts
     = (Ok N, with_nodes contacts 20%positive
                {| atoms := 10%positive; molecular_formula := None;
                   connectivity_graph := None |} 3 N)
     ∧ ∀ fuel,
         ConnectivityGraph.flood_fill_search fuel {| size := 3; nodes := N |}
           0 (PyTuple []) = OutOfFuel)
  ∧ (∃ N,
       Molecule.get_connectivity_matrix 20%positive contacts
       = (Ok N, with_nodes contacts 20%positive
                  {| atoms := 10%positive; molecular_formula := None;
                     connectivity_graph := None |} 3 N)
       ∧ ∀ fuel,
           ConnectivityGraph.flood_fill_search (S fuel) {| size := 3; nodes := N |}
             2 (PyTuple []) = Ok [0; 0; 1]%Z).
Proof.
  split.
  - destruct (flood_fill_search_on_built_matrix contacts 20%positive
                {| atoms := 10%positive; molecular_formula := None;
                   connectivity_graph := None |} [1; 2; 3]%positive 3 0)
      as (N & HN & Hdiv & _).
    + reflexivity.
    + reflexivity.
    + reflexivity.
    + repeat constructor; eexists; split; reflexivity.
    + cbn. lia.
    + exists N. split; [exact HN|]. apply Hdiv.
      exists 1. split; [lia | exact contacts_near_0_1].
  - destruct (flood_fill_search_on_built_matrix contacts 20%positive
                {| atoms := 10%positive; molecular_formula := None;
                   connectivity_graph := None |} [1; 2; 3]%positive 3 2)
      as (N & HN & _ & Hret).
    + reflexivity.
    + reflexivity.
    + reflexivity.
    + repeat constructor; eexists; split; reflexivity.
    + cbn. lia.
    + exists N. split; [exact HN|]. apply Hret, contacts_alone_2.
Defined.

(** ** A graph smaller than the atom list *)

Lemma getitem_beyond {A : Type} (l : list A) (k : nat) :
  length l ≤ k → getitem l (Z.of_nat k) = Raise IndexError.
Proof.
  intros H. unfold getitem, norm_index. by rewrite !bool_decide_false by lia.
Qed.

Lemma setitem_beyond {A : Type} (l : list A) (k : nat) (x : A) :
  length l ≤ k → setitem l (Z.of_nat k) x = Raise IndexError.
Proof.
  intros H. unfold setitem, norm_index. by rewrite !bool_decide_false by lia.
Qed.

Section OutgrownGraph.
Context (st : store) (self : loc) (m : Molecule) (l : list loc) (k sz n : nat).
Hypothesis Hl : list_objs st !! atoms m = Some l.
Hypothesis Hat : atoms_in st k l.
Hypothesis Hn : n < length l.

(** Writing an entry outside the matrix. *)
Lemma set_node_outside (N : list (list Z)) (i j : nat) :
  square n N → ¬ (i < n ∧ j < n) →
  set_node self (Z.of_nat i) (Z.of_nat j) (with_nodes st self m sz N)
  = (Raise IndexError, with_nodes st self m sz N).
Proof.
  intros [Hlen Hrows] Hij. unfold set_node.
  erewrite bind_ok by apply W_molecule. cbn [connectivity_graph nodes size].
  destruct (decide (i < n)) as [Hi|Hi].
  - destruct (lookup_lt_is_Some_2 N i) as [row Hrow]; [lia|].
    pose proof (Forall_lookup_1 _ _ _ _ Hrows Hrow) as Hr. cbn in Hr.
    unfold setitem2. rewrite (getitem_nat _ _ _ Hrow). cbn [mbind res_bind].
    rewrite setitem_beyond by lia. reflexivity.
  - unfold setitem2. rewrite getitem_beyond by lia. reflexivity.
Qed.

Lemma outgrown_pair (N : list (list Z)) (i j : nat) :
  square n N → i < length l → j < length l →
  index_error_or_ok st self m sz n
    ((a1 ← atom_at self (Z.of_nat i);
      a2 ← atom_at self (Z.of_nat j);
      bonded ← Atom.connected a1 a2 false 0.025%R;
      if bonded : bool then
        _ ← set_node self (Z.of_nat i) (Z.of_nat j);
        set_node self (Z.of_nat j) (Z.of_nat i)
      else mret tt) (with_nodes st self m sz N)).
Proof.
  intros Hsq Hi Hj.
  destruct (lookup_lt_is_Some_2 l i Hi) as [a Ha].
  destruct (lookup_lt_is_Some_2 l j Hj) as [b Hb].
  erewrite bind_ok by (by apply (W_atom_at st self m l sz Hl)).
  erewrite bind_ok by (by apply (W_atom_at st self m l sz Hl)).
  erewrite bind_ok
    by (apply (W_connected st self m l k sz Hat);
        [exact (list_elem_of_lookup_2 _ _ _ Ha) | exact (list_elem_of_lookup_2 _ _ _ Hb)]).
  destruct (near st a b); [|exists N; split; [done | by left]].
  destruct (decide (i < n ∧ j < n)) as [[Hi' Hj']|Hij].
  - erewrite bind_ok by (by apply (W_set_node st self m sz n)).
    exists (set_cell (set_cell N i j) j i).
    split; [by do 2 apply set_cell_square|]. left.
    apply (W_set_node st self m sz n); [by apply set_cell_square | done | done].
  - erewrite bind_raise by (by apply set_node_outside).
    exists N. split; [done | by right].
Qed.

(** The pair of an atom beyond the matrix with itself. *)
Lemma outgrown_pair_raises (N : list (list Z)) (i : nat) :
  square n N → n ≤ i → i < length l →
  (a1 ← atom_at self (Z.of_nat i);
   a2 ← atom_at self (Z.of_nat i);
   bonded ← Atom.connected a1 a2 false 0.025%R;
   if bonded : bool then
     _ ← set_node self (Z.of_nat i) (Z.of_nat i);
     set_node self (Z.of_nat i) (Z.of_nat i)
   else mret tt) (with_nodes st self m sz N)
  = (Raise IndexError, with_nodes st self m sz N).
Proof.
  intros Hsq Hni Hi.
  destruct (lookup_lt_is_Some_2 l i Hi) as [a Ha].
  erewrite bind_ok by (by apply (W_atom_at st self m l sz Hl)).
  erewrite bind_ok by (by apply (W_atom_at st self m l sz Hl)).
  pose proof (list_elem_of_lookup_2 _ _ _ Ha) as Hin.
  erewrite bind_ok by (by apply (W_connected st self m l k sz Hat)).
  rewrite near_self.
  - erewrite bind_raise by (apply set_node_outside; [done | lia]). reflexivity.
  - unfold atoms_in in Hat. rewrite Forall_forall in Hat.
    destruct (Hat a Hin) as (x & Hx & _). by exists x.
Qed.

(** A loop whose body ends normally or in an [IndexError] does so too;
    it ends in an [IndexError] when the body does at one of the indices. *)
Lemma outgrown_loop (js : list nat) (body : Z → unit → M unit) :
  (∀ N j, j ∈ js → square n N →
          index_error_or_ok st self m sz n (body (Z.of_nat j) tt (with_nodes st self m sz N))) →
  ∀ N, square n N →
       index_error_or_ok st self m sz n
         (for_each (Z.of_nat <$> js) body tt (with_nodes st self m sz N)).
Proof.
  induction js as [|j js IH]; intros Hbody N Hsq.
  - exists N. split; [done | by left].
  - rewrite fmap_cons. cbn [for_each].
    destruct (Hbody N j) as (N' & Hsq' & [Hb|Hb]); [by left | done | |].
    + erewrite bind_ok by exact Hb.
      apply IH; [|exact Hsq']. intros N'' j' Hj'. apply Hbody. by right.
    + erewrite bind_raise by exact Hb. exists N'. split; [done | by right].
Qed.

Lemma outgrown_loop_raises (js : list nat) (body : Z → unit → M unit) (x : nat) :
  x ∈ js →
  (∀ N j, j ∈ js → square n N →
          index_error_or_ok st self m sz n (body (Z.of_nat j) tt (with_nodes st self m sz N))) →
  (∀ N, square n N →
        ∃ N', square n N'
              ∧ body (Z.of_nat x) tt (with_nodes st self m sz N)
                = (Raise IndexError, with_nodes st self m sz N')) →
  ∀ N, square n N →
       ∃ N', square n N'
             ∧ for_each (Z.of_nat <$> js) body tt (with_nodes st self m sz N)
               = (Raise IndexError, with_nodes st self m sz N').
Proof.
  intros Hx Hbody Hraise. induction js as [|j js IH]; intros N Hsq;
    [by apply elem_of_nil in Hx|].
  rewrite fmap_cons. cbn [for_each].
  destruct (decide (j = x)) as [->|Hne].
  - destruct (Hraise N Hsq) as (N' & Hsq' & Hb).
    erewrite bind_raise by exact Hb. by exists N'.
  - destruct (Hbody N j) as (N' & Hsq' & [Hb|Hb]); [by left | done | |].
    + erewrite bind_ok by exact Hb.
      apply IH; [| |exact Hsq'].
      * apply elem_of_cons in Hx as [Hx|Hx]; [congruence | done].
      * intros N'' j' Hj'. apply Hbody. by right.
    + erewrite bind_raise by exact Hb. by exists N'.
Qed.

Lemma outgrown_row (N : list (list Z)) (i : nat) :
  square n N → i < length l →
  index_error_or_ok st self m sz n
    ((m' ← get_molecule self;
      l' ← get_list (atoms m');
      for_each (range_from (Z.of_nat i) (length l')) (λ i2 (_ : unit),
        a1 ← atom_at self (Z.of_nat i);
        a2 ← atom_at self i2;
        bonded ← Atom.connected a1 a2 false 0.025%R;
        if bonded : bool then
          _ ← set_node self (Z.of_nat i) i2;
          set_node self i2 (Z.of_nat i)
        else mret tt) tt) (with_nodes st self m sz N)).
Proof.
  intros Hsq Hi.
  erewrite bind_ok by apply W_molecule. cbn [atoms].
  erewrite bind_ok by (by apply W_list).
  rewrite range_from_nat.
  apply outgrown_loop; [|exact Hsq].
  intros N' j Hj Hsq'. apply elem_of_seq in Hj. apply outgrown_pair; [done | done | lia].
Qed.

Lemma outgrown_row_raises (N : list (list Z)) :
  square n N →
  ∃ N', square n N'
        ∧ (m' ← get_molecule self;
           l' ← get_list (atoms m');
           for_each (range_from (Z.of_nat n) (length l')) (λ i2 (_ : unit),
             a1 ← atom_at self (Z.of_nat n);
             a2 ← atom_at self i2;
             bonded ← Atom.connected a1 a2 false 0.025%R;
             if bonded : bool then
               _ ← set_node self (Z.of_nat n) i2;
               set_node self i2 (Z.of_nat n)
             else mret tt) tt) (with_nodes st self m sz N)
          = (Raise IndexError, with_nodes st self m sz N').
Proof.
  intros Hsq.
  erewrite bind_ok by apply W_molecule. cbn [atoms].
  erewrite bind_ok by (by apply W_list).
  rewrite range_from_nat.
  apply (outgrown_loop_raises _ _ n); [apply elem_of_seq; lia | | | exact Hsq].
  - intros N' j Hj Hsq'. apply elem_of_seq in Hj. apply outgrown_pair; [done | done | lia].
  - intros N' Hsq'. exists N'. split; [done|]. by apply outgrown_pair_raises.
Qed.

Lemma outgrown_all (N : list (list Z)) :
  square n N →
  ∃ N', square n N'
        ∧ for_each (range (length l)) (λ i1 (_ : unit),
            m' ← get_molecule self;
            l' ← get_list (atoms m');
            for_each (range_from i1 (length l')) (λ i2 (_ : unit),
              a1 ← atom_at self i1;
              a2 ← atom_at self i2;
              bonded ← Atom.connected a1 a2 false 0.025%R;
              if bonded : bool then
                _ ← set_node self i1 i2;
                set_node self i2 i1
              else mret tt) tt) tt (with_nodes st self m sz N)
          = (Raise IndexError, with_nodes st self m sz N').
Proof.
  intros Hsq. unfold range.
  apply (outgrown_loop_raises _ _ n); [apply elem_of_seq; lia | | | exact Hsq].
  - intros N' i Hi Hsq'. apply elem_of_seq in Hi. apply outgrown_row; [done | lia].
  - intros N' Hsq'. by apply outgrown_row_raises.
Qed.

End OutgrownGraph.

(** X28: the graph is only created when the molecule has none.  On a
    molecule whose graph has a matrix of fewer rows and columns than the
    molecule now has atoms (atoms were appended since), the atoms having
    finite coordinates (no NaN or inf component, as every coordinate of
    the model is), a call of [get_connectivity_matrix] ends in an
    [IndexError] and returns no matrix: at the latest, the first atom
    beyond the matrix is at distance exactly 0 from itself and its diagonal
    entry cannot be written.  The graph keeps its size and the shape of its
    matrix. *)
Theorem get_connectivity_matrix_outgrown (st : store) (self : loc) (m : Molecule)
    (g : ConnectivityGraph) (l : list loc) (k n : nat) :
  molecule_objs st !! self = Some m →
  connectivity_graph m = Some g →
  list_objs st !! atoms m = Some l →
  atoms_in st k l →
  square n (nodes g) →
  n < length l →
  ∃ N, square n N
       ∧ Molecule.get_connectivity_matrix self st
         = (Raise IndexError, with_nodes st self m (size g) N).
Proof.
  intros Hm Hg Hl Hat Hsq Hn.
  destruct (outgrown_all st self m l k (size g) n Hl Hat Hn (nodes g) Hsq)
    as (N & HsqN & Hloop).
  exists N. split; [exact HsqN|].
  unfold Molecule.get_connectivity_matrix.
  erewrite bind_ok by (apply get_molecule_ok, Hm).
  rewrite Hg.
  assert (Hst : st = with_nodes st self m (size g) (nodes g)).
  { unfold with_nodes. destruct st as [ao lo mo]. cbn in *.
    f_equal. symmetry. apply insert_id.
    rewrite Hm. f_equal. destruct m as [am fm gm]. cbn in *. subst gm.
    by destruct g. }
  erewrite bind_ok by reflexivity.
  rewrite Hst at 1.
  erewrite bind_ok by apply W_molecule. cbn [atoms].
  erewrite bind_ok by (by apply W_list).
  erewrite bind_raise by exact Hloop. reflexivity.
Qed.

Lemma get_connectivity_matrix_outgrown_witness :
  ∃ N, square 2 N
       ∧ Molecule.get_connectivity_matrix 20%positive grown_molecule
         = (Raise IndexError,
            with_nodes grown_molecule 20%positive
              {| atoms := 10%positive; molecular_formula := None;
                 connectivity_graph := Some {| size := 2; nodes := [[1; 0]; [0; 1]]%Z |} |}
              2 N).
Proof.
  apply (get_connectivity_matrix_outgrown grown_molecule 20%positive
           {| atoms := 10%positive; molecular_formula := None;
              connectivity_graph := Some {| size := 2; nodes := [[1; 0]; [0; 1]]%Z |} |}
           {| size := 2; nodes := [[1; 0]; [0; 1]]%Z |} [1; 2; 3]%positive 3 2).
  - reflexivity.
  - reflexivity.
  - reflexivity.
  - repeat constructor; eexists; split; reflexivity.
  - by repeat constructor.
  - cbn. lia.
Defined.

(** ** Subtracting molecules *)

(** On two atoms with as many coordinates, [==] returns, and it returns
    [same_atom]. *)
Lemma Atom_eq_same (st : store) (k : nat) (a b : loc) :
  atoms_in st k [a; b] →
  Atom.__eq__ a (AtomRef b) st = (Ok (same_atom st a b), st).
Proof.
  intros H. apply Forall_cons in H as [(x & Hx & Hxk) H].
  apply Forall_cons in H as [(y & Hy & Hyk) _].
  assert (Hcy : atom_coord b st = (Ok (coord y), st)).
  { unfold atom_coord. erewrite bind_ok by (apply get_atom_ok, Hy). reflexivity. }
  unfold Atom.__eq__, operand_coord, operand_symbol, same_atom.
  erewrite bind_ok by (apply get_atom_ok, Hx).
  erewrite bind_ok by exact Hcy.
  rewrite Hx, Hy, broadcast_same by congruence.
  erewrite bind_ok by reflexivity.
  destruct (Rlt_dec _ _); [|reflexivity].
  erewrite bind_ok
    by (erewrite bind_ok by (apply get_atom_ok, Hy); reflexivity).
  reflexivity.
Qed.

Lemma atoms_in_sublist (st : store) (k : nat) (l1 l2 : list loc) :
  l1 `sublist_of` l2 → atoms_in st k l2 → atoms_in st k l1.
Proof.
  unfold atoms_in. rewrite !Forall_forall. intros Hsub H a Ha.
  apply H. by apply (elem_of_sublist l1).
Qed.

(** *** Lists without their first match *)

Lemma remove_first_sublist (f : loc → bool) (l : list loc) :
  remove_first f l `sublist_of` l.
Proof.
  induction l as [|x l IH]; cbn; [done|].
  destruct (f x); [by apply sublist_cons | by apply sublist_skip].
Qed.

Lemma remove_first_none (f : loc → bool) (l : list loc) :
  existsb f l = false → remove_first f l = l.
Proof.
  induction l as [|x l IH]; cbn; [done|].
  destruct (f x); cbn; [discriminate|]. intros H. by rewrite IH.
Qed.

Lemma count_of_app (f : loc → bool) (l1 l2 : list loc) :
  count_of f (l1 ++ l2) = count_of f l1 + count_of f l2.
Proof. unfold count_of. by rewrite List.filter_app, length_app. Qed.

Lemma count_of_cons (f : loc → bool) (x : loc) (l : list loc) :
  count_of f (x :: l) = (if f x then 1 else 0) + count_of f l.
Proof. unfold count_of. cbn. by destruct (f x). Qed.

Lemma count_of_ext (f g : loc → bool) (l : list loc) :
  (∀ x, x ∈ l → f x = g x) → count_of f l = count_of g l.
Proof.
  induction l as [|x l IH]; intros H; [reflexivity|].
  rewrite !count_of_cons, (H x) by left. rewrite IH; [reflexivity|].
  intros y Hy. apply H. by right.
Qed.

Lemma count_of_positive (f : loc → bool) (x : loc) (l : list loc) :
  x ∈ l → f x = true → 1 ≤ count_of f l.
Proof.
  intros Hx Hf. induction l as [|y l IH]; [by apply elem_of_nil in Hx|].
  rewrite count_of_cons. apply elem_of_cons in Hx as [<-|Hx]; [rewrite Hf; lia|].
  specialize (IH Hx). lia.
Qed.

Lemma count_remove_first_same (f : loc → bool) (l : list loc) :
  count_of f (remove_first f l) = pred (count_of f l).
Proof.
  induction l as [|x l IH]; [reflexivity|].
  cbn [remove_first]. rewrite count_of_cons. destruct (f x) eqn:Hx; [reflexivity|].
  by rewrite count_of_cons, Hx, IH.
Qed.

Lemma count_remove_first_le (f g : loc → bool) (l : list loc) :
  count_of f (remove_first g l) ≤ count_of f l.
Proof.
  induction l as [|x l IH]; [reflexivity|].
  cbn [remove_first]. rewrite count_of_cons. destruct (g x); [lia|].
  rewrite count_of_cons. lia.
Qed.

(** *** The two loops *)

Section Subtract.
Context (st : store) (self : loc) (s : Molecule) (ls : list loc) (k : nat).
Hypothesis Hs : molecule_objs st !! self = Some s.
Hypothesis Hls : list_objs st !! atoms s = Some ls.
Hypothesis Hat : atoms_in st k ls.

Lemma atoms_in_pair (l1 l2 : list loc) (a b : loc) :
  atoms_in st k l1 → atoms_in st k l2 → a ∈ l1 → b ∈ l2 → atoms_in st k [a; b].
Proof.
  unfold atoms_in. intros H1 H2 Ha Hb. rewrite Forall_forall in H1, H2.
  apply Forall_cons. split; [by apply H1|].
  apply Forall_cons. split; [by apply H2 | constructor].
Qed.

(** The inner loop of the first loop, from the position [length pre]. *)
Lemma sub_collect_one (i1 : loc) :
  atoms_in st k [i1] →
  ∀ (suf pre acc : list loc),
    ls = pre ++ suf →
    for_each (zip (Z.of_nat <$> seq (length pre) (length suf)) suf)
      (λ '(num, i2) for_deletion,
         b ← Atom.__eq__ i1 (AtomRef i2);
         if b : bool then
           x ← atom_at self num;
           mret (for_deletion ++ [x])
         else mret for_deletion) acc st
    = (Ok (acc ++ List.filter (same_atom st i1) suf), st).
Proof.
  intros Hi1 suf. induction suf as [|x suf IH]; intros pre acc Hsplit.
  - cbn. by rewrite app_nil_r.
  - cbn [length seq]. rewrite fmap_cons. cbn [zip_with for_each List.filter].
    assert (Hx : ls !! length pre = Some x).
    { rewrite Hsplit, lookup_app_r by lia. by rewrite Nat.sub_diag. }
    rewrite (bind_ok _ _ st st (if same_atom st i1 x then acc ++ [x] else acc)).
    + pose proof (IH (pre ++ [x]) (if same_atom st i1 x then acc ++ [x] else acc))
        as IH'.
      rewrite length_app, Nat.add_1_r in IH'.
      rewrite IH' by (rewrite Hsplit, <- app_assoc; reflexivity).
      destruct (same_atom st i1 x); [by rewrite <- app_assoc | reflexivity].
    + erewrite bind_ok
        by (apply (Atom_eq_same st k), (atoms_in_pair [i1] ls);
            [done | done | by left | exact (list_elem_of_lookup_2 _ _ _ Hx)]).
      destruct (same_atom st i1 x); [|reflexivity].
      assert (Hatx : atom_at self (Z.of_nat (length pre)) st = (Ok x, st)).
      { unfold atom_at.
        erewrite bind_ok by (apply get_molecule_ok, Hs).
        erewrite bind_ok by (apply get_list_ok, Hls).
        unfold lift. by rewrite (getitem_nat _ _ _ Hx). }
      erewrite bind_ok by exact Hatx. reflexivity.
Qed.

(** The first loop collects [marked]. *)
Lemma sub_collect (lo : list loc) :
  atoms_in st k lo →
  ∀ acc,
    for_each lo (λ i1 for_deletion,
      s' ← get_molecule self;
      ls' ← get_list (atoms s');
      for_each (zip (range (length ls')) ls') (λ '(num, i2) for_deletion,
        b ← Atom.__eq__ i1 (AtomRef i2);
        if b : bool then
          x ← atom_at self num;
          mret (for_deletion ++ [x])
        else mret for_deletion) for_deletion) acc st
    = (Ok (acc ++ marked st ls lo), st).
Proof.
  intros Hlo. induction Hlo as [|i1 lo Hi1 Hlo IH]; intros acc.
  - cbn. by rewrite app_nil_r.
  - cbn [for_each]. unfold marked. rewrite bind_cons, app_assoc.
    erewrite bind_ok; [apply IH|].
    erewrite bind_ok by (apply get_molecule_ok, Hs).
    erewrite bind_ok by (apply get_list_ok, Hls).
    apply (sub_collect_one i1 ltac:(by repeat constructor) ls [] acc). reflexivity.
Qed.

(** In the second loop the store differs from [st] by the atom list. *)
Lemma sub_same_or_eq (c : list loc) (item d : loc) :
  atoms_in st k [item; d] →
  same_or_eq item d (with_atoms st (atoms s) c)
  = (Ok (matches st d item), with_atoms st (atoms s) c).
Proof.
  intros H. unfold same_or_eq, matches. case_bool_decide; [reflexivity|].
  exact (Atom_eq_same (with_atoms st (atoms s) c) k item d H).
Qed.

Lemma sub_contains (c cur : list loc) (d : loc) :
  atoms_in st k cur → atoms_in st k [d] →
  list_contains cur d (with_atoms st (atoms s) c)
  = (Ok (existsb (matches st d) cur), with_atoms st (atoms s) c).
Proof.
  intros Hcur Hd. unfold list_contains. apply any_of_pure. intros item Hitem.
  apply sub_same_or_eq, (atoms_in_pair cur [d]); [done | done | done | by left].
Qed.

Lemma sub_remove (c cur : list loc) (d : loc) :
  atoms_in st k cur → atoms_in st k [d] →
  existsb (matches st d) cur = true →
  list_remove cur d (with_atoms st (atoms s) c)
  = (Ok (remove_first (matches st d) cur), with_atoms st (atoms s) c).
Proof.
  intros Hcur Hd. induction Hcur as [|item cur Hitem Hcur IH]; [discriminate|].
  cbn [existsb list_remove remove_first]. intros Hex.
  erewrite bind_ok
    by (apply sub_same_or_eq; apply Forall_cons; split; [exact Hitem | exact Hd]).
  destruct (matches st d item); [reflexivity|].
  erewrite bind_ok by (by apply IH). reflexivity.
Qed.

Lemma sub_delete_one (cur : list loc) (d : loc) :
  atoms_in st k cur → atoms_in st k [d] →
  (s' ← get_molecule self;
   ls' ← get_list (atoms s');
   b ← list_contains ls' d;
   if b : bool then
     s'' ← get_molecule self;
     ls'' ← get_list (atoms s'');
     ls''' ← list_remove ls'' d;
     set_list (atoms s'') ls'''
   else mret tt) (with_atoms st (atoms s) cur)
  = (Ok tt, with_atoms st (atoms s) (remove_first (matches st d) cur)).
Proof.
  intros Hcur Hd.
  assert (Hmol : ∀ c, get_molecule self (with_atoms st (atoms s) c)
                      = (Ok s, with_atoms st (atoms s) c))
    by (intros c; apply get_molecule_ok, Hs).
  assert (Hlist : ∀ c, get_list (atoms s) (with_atoms st (atoms s) c)
                       = (Ok c, with_atoms st (atoms s) c))
    by (intros c; apply get_list_ok, lookup_insert_eq).
  erewrite bind_ok by apply Hmol. erewrite bind_ok by apply Hlist.
  erewrite bind_ok by (by apply sub_contains).
  destruct (existsb (matches st d) cur) eqn:Hex.
  - erewrite bind_ok by apply Hmol. erewrite bind_ok by apply Hlist.
    erewrite bind_ok by (by apply sub_remove).
    unfold set_list, with_atoms. cbn. by rewrite insert_insert_eq.
  - by rewrite remove_first_none.
Qed.

Lemma sub_delete (D : list loc) :
  atoms_in st k D →
  ∀ cur, atoms_in st k cur →
    for_each D (λ i1 (_ : unit),
      s' ← get_molecule self;
      ls' ← get_list (atoms s');
      b ← list_contains ls' i1;
      if b : bool then
        s'' ← get_molecule self;
        ls'' ← get_list (atoms s'');
        ls''' ← list_remove ls'' i1;
        set_list (atoms s'') ls'''
      else mret tt) tt (with_atoms st (atoms s) cur)
    = (Ok tt, with_atoms st (atoms s)
                (foldl (λ c d, remove_first (matches st d) c) cur D)).
Proof.
  intros HD. induction HD as [|d D Hd HD IH]; intros cur Hcur; [reflexivity|].
  cbn [for_each foldl].
  erewrite bind_ok by (apply sub_delete_one; [done | by repeat constructor]).
  apply IH. apply (atoms_in_sublist st k _ cur); [apply remove_first_sublist | done].
Qed.

Lemma marked_in (lo : list loc) (d : loc) : d ∈ marked st ls lo → d ∈ ls.
Proof.
  unfold marked. intros H. apply list_elem_of_bind in H as (i1 & Hd & _).
  apply list_elem_of_In, List.filter_In in Hd as [Hd _]. by apply list_elem_of_In.
Qed.

Lemma fold_remove_sublist (D cur : list loc) :
  foldl (λ c d, remove_first (matches st d) c) cur D `sublist_of` cur.
Proof.
  revert cur. induction D as [|d D IH]; intros cur; [done|].
  cbn [foldl]. etrans; [apply IH | apply remove_first_sublist].
Qed.

(** [self - other] on molecules whose atoms have as many coordinates. *)
Lemma sub_computes (other : loc) (o : Molecule) (lo : list loc) :
  molecule_objs st !! other = Some o →
  list_objs st !! atoms o = Some lo →
  atoms_in st k lo →
  Molecule.__sub__ self other st
  = (Ok None,
     with_atoms st (atoms s)
       (foldl (λ c d, remove_first (matches st d) c) ls (marked st ls lo))).
Proof.
  intros Ho Hlo Hato. unfold Molecule.__sub__.
  erewrite bind_ok by (apply get_molecule_ok, Ho).
  erewrite bind_ok by (apply get_list_ok, Hlo).
  erewrite bind_ok by (by apply (sub_collect lo Hato [])).
  rewrite app_nil_l.
  assert (Hst : st = with_atoms st (atoms s) ls).
  { unfold with_atoms. destruct st as [ao lo' mo]. cbn in *.
    f_equal. symmetry. by apply insert_id. }
  assert (HD : atoms_in st k (marked st ls lo)).
  { unfold atoms_in in *. rewrite Forall_forall in *. intros d Hd.
    apply Hat. by apply (marked_in lo). }
  pose proof (sub_delete (marked st ls lo) HD ls Hat) as Hloop.
  rewrite <- Hst in Hloop.
  erewrite bind_ok by exact Hloop. reflexivity.
Qed.

(** As many items of [marked] are a given atom of [self] as there are
    atoms of [other] equal to it, or more. *)
Lemma marked_count (lo : list loc) (e : loc) :
  e ∈ ls →
  count_of (λ i1, same_atom st i1 e) lo
  ≤ count_of (λ d, bool_decide (d = e)) (marked st ls lo).
Proof.
  intros He. induction lo as [|i1 lo IH]; [reflexivity|].
  unfold marked. rewrite bind_cons, count_of_app, count_of_cons.
  fold (marked st ls lo).
  destruct (same_atom st i1 e) eqn:Hsame; [|lia].
  assert (1 ≤ count_of (λ d, bool_decide (d = e)) (List.filter (same_atom st i1) ls));
    [|lia].
  apply (count_of_positive _ e); [|by apply bool_decide_true].
  apply list_elem_of_In, List.filter_In. split; [by apply list_elem_of_In | done].
Qed.

Lemma same_atom_refl (e : loc) : e ∈ ls → same_atom st e e = true.
Proof.
  intros He. unfold atoms_in in Hat. rewrite Forall_forall in Hat.
  destruct (Hat e He) as (x & Hx & _). unfold same_atom. rewrite Hx.
  rewrite broadcast_same by done.
  assert (Hn : np_norm (zip_with Rminus (coord x) (coord x)) = 0%R).
  { unfold np_norm. rewrite squares_self. apply sqrt_0. }
  rewrite Hn. destruct (Rlt_dec 0 0.001) as [_|H]; [by apply bool_decide_true | lra].
Qed.

(** While the second loop runs, no atom of [self] has more matches left
    in the list than entries left in [for_deletion]. *)
Lemma fold_remove_count (e : loc) (D : list loc) :
  ∀ cur,
    count_of (matches st e) cur ≤ count_of (λ d, bool_decide (d = e)) D →
    count_of (matches st e)
      (foldl (λ c d, remove_first (matches st d) c) cur D) = 0.
Proof.
  induction D as [|d D IH]; intros cur Hle.
  - cbn in *. unfold count_of in Hle. cbn in Hle. lia.
  - cbn [foldl]. apply IH. rewrite count_of_cons in Hle.
    case_bool_decide as Hde.
    + subst d. rewrite count_remove_first_same. lia.
    + pose proof (count_remove_first_le (matches st e) (matches st d) cur). lia.
Qed.

Lemma sub_self_empties :
  foldl (λ c d, remove_first (matches st d) c) ls (marked st ls ls) = [].
Proof.
  pose proof (fold_remove_sublist (marked st ls ls) ls) as Hsub.
  destruct (foldl _ ls (marked st ls ls)) as [|e rest] eqn:Hfold; [reflexivity|].
  assert (He : e ∈ ls) by (apply (elem_of_sublist (e :: rest)); [by left | done]).
  pose proof (fold_remove_count e (marked st ls ls) ls) as Hzero.
  assert (Hm : matches st e e = true)
    by (unfold matches; by rewrite bool_decide_true).
  rewrite Hfold, count_of_cons, Hm in Hzero.
  assert (H : 1 + count_of (matches st e) rest = 0); [|lia].
  apply Hzero. etrans; [|apply (marked_count ls e He)].
  rewrite (count_of_ext (matches st e) (λ i1, same_atom st i1 e)); [done|].
  intros x Hx. unfold matches. case_bool_decide as Hxe; [|reflexivity].
  subst x. by rewrite same_atom_refl.
Qed.

End Subtract.

(** X29: for two molecules whose atoms all have as many coordinates,
    [self - other] ends normally with the value [None]; nothing of the
    store changes but the atom list of [self], which becomes a sublist of
    what it was (atoms are only removed, their order is kept), and it is
    left as it was when no atom of [other] is equal to an atom of [self],
    in particular when either molecule has no atoms. *)
Theorem Molecule_sub_shrinks (st : store) (self other : loc) (s o : Molecule)
    (ls lo : list loc) (k : nat) :
  molecule_objs st !! self = Some s → molecule_objs st !! other = Some o →
  list_objs st !! atoms s = Some ls → list_objs st !! atoms o = Some lo →
  atoms_in st k (ls ++ lo) →
  ∃ l',
    Molecule.__sub__ self other st = (Ok None, with_atoms st (atoms s) l')
    ∧ l' `sublist_of` ls
    ∧ ((∀ a b, a ∈ lo → b ∈ ls → same_atom st a b = false) → l' = ls).
Proof.
  intros Hs Ho Hls Hlo Hat. apply Forall_app in Hat as [Hats Hato].
  eexists. split; [by apply (sub_computes st self s ls k Hs Hls Hats other o lo)|].
  split; [apply fold_remove_sublist|].
  intros Hnone.
  assert (Hm : marked st ls lo = []).
  { clear -Hnone. induction lo as [|i1 lo IH]; [reflexivity|].
    unfold marked. rewrite bind_cons. fold (marked st ls lo).
    rewrite IH by (intros a b Ha; apply Hnone; by right).
    rewrite app_nil_r.
    assert (H : ∀ b, b ∈ ls → same_atom st i1 b = false)
      by (intros b; apply Hnone; by left).
    clear -H. induction ls as [|b ls' IHl]; [reflexivity|].
    cbn. rewrite (H b) by left. apply IHl. intros b' Hb'. apply H. by right. }
  by rewrite Hm.
Qed.

(** [same_atom] on two atoms of the store with as many coordinates. *)
Lemma same_atom_atoms (st : store) (a b : loc) (x y : Atom) :
  atom_objs st !! a = Some x → atom_objs st !! b = Some y →
  length (coord x) = length (coord y) →
  same_atom st a b
  = if Rlt_dec (np_norm (zip_with Rminus (coord x) (coord y))) 0.001%R
    then bool_decide (symbol x = symbol y) else false.
Proof.
  intros Ha Hb Hlen. unfold same_atom. by rewrite Ha, Hb, broadcast_same.
Qed.

(** In [contacts], subtracting the molecule that holds the second atom
    from the molecule of all three removes that atom and no other: the
    first atom, 0.01 away, is not equal to it. *)
Example contacts_sub :
  Molecule.__sub__ 20%positive 22%positive contacts
  = (Ok None, with_atoms contacts 10%positive [1; 3]%positive).
Proof.
  assert (H21 : same_atom contacts 2%positive 1%positive = false).
  { rewrite (same_atom_atoms contacts 2%positive 1%positive
               (atom "H" 0.01 0 0) (atom "H" 0 0 0) eq_refl eq_refl eq_refl).
    cbn [coord atom zip_with]. destruct (Rlt_dec _ _) as [H|_]; [|reflexivity].
    exfalso. apply (Rlt_irrefl 0.001). etrans; [|exact H].
    apply np_norm_gt; [lra|]. cbn. lra. }
  assert (H12 : same_atom contacts 1%positive 2%positive = false).
  { rewrite (same_atom_atoms contacts 1%positive 2%positive
               (atom "H" 0 0 0) (atom "H" 0.01 0 0) eq_refl eq_refl eq_refl).
    cbn [coord atom zip_with]. destruct (Rlt_dec _ _) as [H|_]; [|reflexivity].
    exfalso. apply (Rlt_irrefl 0.001). etrans; [|exact H].
    apply np_norm_gt; [lra|]. cbn. lra. }
  assert (H23 : same_atom contacts 2%positive 3%positive = false).
  { rewrite (same_atom_atoms contacts 2%positive 3%positive
               (atom "H" 0.01 0 0) (atom "O" 1 0 0) eq_refl eq_refl eq_refl).
    cbn [coord atom zip_with symbol]. destruct (Rlt_dec _ _); reflexivity. }
  assert (H22 : same_atom contacts 2%positive 2%positive = true).
  { apply (same_atom_refl contacts [1; 2; 3]%positive 3).
    - repeat constructor; eexists; split; reflexivity.
    - set_solver. }
  rewrite (sub_computes contacts 20%positive
             {| atoms := 10%positive; molecular_formula := None;
                connectivity_graph := None |} [1; 2; 3]%positive 3
             eq_refl eq_refl
             ltac:(repeat constructor; eexists; split; reflexivity)
             22%positive
             {| atoms := 12%positive; molecular_formula := None;
                connectivity_graph := None |} [2%positive]
             eq_refl eq_refl
             ltac:(repeat constructor; eexists; split; reflexivity)).
  do 2 f_equal. unfold marked. rewrite bind_cons. cbn [List.filter mbind].
  rewrite H21, H22, H23. cbn [app foldl remove_first].
  unfold matches. rewrite H12, H22. cbn.
  rewrite bool_decide_false by discriminate. cbn. by rewrite bool_decide_true.
Qed.

Lemma Molecule_sub_shrinks_witness :
  ∃ l',
    Molecule.__sub__ 20%positive 22%positive contacts
    = (Ok None, with_atoms contacts 10%positive l')
    ∧ l' `sublist_of` [1; 2; 3]%positive
    ∧ ((∀ a b, a ∈ [2%positive] → b ∈ [1; 2; 3]%positive →
               same_atom contacts a b = false) →
       l' = [1; 2; 3]%positive).
Proof.
  apply (Molecule_sub_shrinks contacts 20%positive 22%positive
           {| atoms := 10%positive; molecular_formula := None;
              connectivity_graph := None |}
           {| atoms := 12%positive; molecular_formula := None;
              connectivity_graph := None |} [1; 2; 3]%positive [2%positive] 3).
  - reflexivity.
  - reflexivity.
  - reflexivity.
  - reflexivity.
  - repeat constructor; eexists; split; reflexivity.
Defined.

(** X30: subtracting from a molecule whose atoms have finite coordinates
    (no NaN or inf component, as every coordinate of the model is) a
    molecule that holds the same atoms, the molecule itself included,
    always ends (unlike [m + m]) and leaves it without atoms: every atom
    is removed, also when several atoms are equal to each other. *)
Theorem Molecule_sub_self (st : store) (self other : loc) (s o : Molecule)
    (ls : list loc) (k : nat) :
  molecule_objs st !! self = Some s → molecule_objs st !! other = Some o →
  list_objs st !! atoms s = Some ls → list_objs st !! atoms o = Some ls →
  atoms_in st k ls →
  Molecule.__sub__ self other st = (Ok None, with_atoms st (atoms s) []).
Proof.
  intros Hs Ho Hls Hlo Hat.
  rewrite (sub_computes st self s ls k Hs Hls Hat other o ls Ho Hlo Hat).
  by rewrite (sub_self_empties st ls k Hat).
Qed.

Lemma Molecule_sub_self_witness :
  Molecule.__sub__ 20%positive 20%positive ethylene
  = (Ok None, with_atoms ethylene 10%positive []).
Proof.
  apply (Molecule_sub_self ethylene 20%positive 20%positive
           {| atoms := 10%positive; molecular_formula := None;
              connectivity_graph := None |}
           {| atoms := 10%positive; molecular_formula := None;
              connectivity_graph := None |} [1; 2; 3; 4; 5; 6]%positive 3).
  - reflexivity.
  - reflexivity.
  - reflexivity.
  - reflexivity.
  - repeat constructor; eexists; split; reflexivity.
Defined.
